(** * MongoDB Kubernetes operator: membership reconciliation, backup
      coordination, status projection and secrets

    A shallow embedding of [src/charm.py] and
    [lib/charms/mongodb/v0/mongodb_backups.py], with the properties its
    specification states about them.

    Python sets are stdpp [gset]s, dictionaries are [gmap]s, handlers are
    computations in a state-and-exception monad over the charm's world,
    and every call to an external collaborator (the replica-set driver,
    the workload container, the event) is recorded in a trace. *)

From Stdlib Require Import Ascii String List Bool Arith Lia.
From stdpp Require Import base option list gmap strings.

Import ListNotations.
Set Warnings "-clear-no-such-hyp".
Local Open Scope string_scope.
Local Open Scope list_scope.

(* ===================================================================== *)
(** * Regular expressions: the fragment of Python's [re] that
      [REMAPPING_PATTERN] is written in *)
(* ===================================================================== *)

Module Regex.

(** An item of a bracketed character set. *)
Inductive cls_item : Type :=
| CChar (c : ascii)            (* a literal character *)
| CRange (lo hi : ascii)       (* lo-hi *)
| CSpace.                      (* \s *)

(** Abstract syntax.  Groups carry their number, counted by opening
    parenthesis from 1, as Python numbers them. *)
Inductive re : Type :=
| REps
| RChar (c : ascii)
| RAny                               (* .  : any character but a newline *)
| RSet (negated : bool) (items : list cls_item)
| RBegin                             (* \A *)
| REnd                               (* \Z *)
| RGroup (n : nat) (r : re)
| RCat (r1 r2 : re)
| RAlt (r1 r2 : re)
| ROpt (r : re)                      (* r?  greedy *)
| RStar (r : re)                     (* r*  greedy *)
| RPlus (r : re).                    (* r+  greedy *)

Definition newline : ascii := ascii_of_nat 10.

(** [\s] on the ASCII range, as Python's [str] patterns have it:
    tab, line feed, vertical tab, form feed, carriage return, the four
    separators 0x1c-0x1f and the space. *)
Definition is_space (c : ascii) : bool :=
  let n := nat_of_ascii c in
  (Nat.leb 9 n && Nat.leb n 13) || (Nat.leb 28 n && Nat.leb n 32).

Definition item_matches (c : ascii) (i : cls_item) : bool :=
  match i with
  | CChar a => Ascii.eqb a c
  | CRange lo hi =>
      Nat.leb (nat_of_ascii lo) (nat_of_ascii c) && Nat.leb (nat_of_ascii c) (nat_of_ascii hi)
  | CSpace => is_space c
  end.

Definition set_matches (negated : bool) (items : list cls_item) (c : ascii) : bool :=
  xorb negated (existsb (item_matches c) items).

(** Captured groups: the most recent capture of a group comes first. *)
Definition caps : Type := list (nat * list ascii).

Fixpoint caps_lookup (n : nat) (c : caps) : option (list ascii) :=
  match c with
  | [] => None
  | (m, s) :: c' => if Nat.eqb m n then Some s else caps_lookup n c'
  end.

(** The continuation of a match: position, rest of the subject, captures. *)
Definition cont : Type := nat -> list ascii -> caps -> option caps.

(** The iterations of a greedy repetition whose body is [step]: one more
    iteration is tried before the continuation is, an iteration that
    consumes nothing is refused, and [n] bounds the iterations left (the
    number of characters left is enough). *)
Fixpoint star_loop (step : nat -> list ascii -> caps -> cont -> option caps) (k : cont)
    (n : nat) (pos : nat) (s : list ascii) (c : caps) {struct n} : option caps :=
  match n with
  | 0 => k pos s c
  | S n' =>
      match step pos s c
              (fun p s' c' => if Nat.eqb p pos then None else star_loop step k n' p s' c') with
      | Some res => Some res
      | None => k pos s c
      end
  end.

(** A backtracking matcher in continuation-passing style: alternatives
    are tried in Python's order (greedy quantifiers take the longer
    alternative first), and the first one whose continuation succeeds
    wins.  A repetition iterates at most once per remaining character,
    an iteration that consumes nothing being refused. *)
Fixpoint rmatch (r : re) : nat -> list ascii -> caps -> cont -> option caps :=
  match r with
  | REps => fun pos s c k => k pos s c
  | RChar a => fun pos s c k =>
      match s with
      | x :: s' => if Ascii.eqb a x then k (S pos) s' c else None
      | [] => None
      end
  | RAny => fun pos s c k =>
      match s with
      | x :: s' => if Ascii.eqb x newline then None else k (S pos) s' c
      | [] => None
      end
  | RSet neg items => fun pos s c k =>
      match s with
      | x :: s' => if set_matches neg items x then k (S pos) s' c else None
      | [] => None
      end
  | RBegin => fun pos s c k => if Nat.eqb pos 0 then k pos s c else None
  | REnd => fun pos s c k => match s with [] => k pos s c | _ :: _ => None end
  | RGroup n r1 => fun pos s c k =>
      rmatch r1 pos s c (fun p s' c' => k p s' ((n, firstn (p - pos) s) :: c'))
  | RCat r1 r2 => fun pos s c k =>
      rmatch r1 pos s c (fun p s' c' => rmatch r2 p s' c' k)
  | RAlt r1 r2 => fun pos s c k =>
      match rmatch r1 pos s c k with
      | Some res => Some res
      | None => rmatch r2 pos s c k
      end
  | ROpt r1 => fun pos s c k =>
      match rmatch r1 pos s c k with
      | Some res => Some res
      | None => k pos s c
      end
  | RStar r1 => fun pos s c k => star_loop (rmatch r1) k (length s) pos s c
  | RPlus r1 => fun pos s c k =>
      rmatch r1 pos s c (fun p0 s0 c0 => star_loop (rmatch r1) k (length s0) p0 s0 c0)
  end.

(** ** Reading a pattern *)

Local Open Scope char_scope.

Definition is_alnum (c : ascii) : bool :=
  let n := nat_of_ascii c in
  (Nat.leb 48 n && Nat.leb n 57) || (Nat.leb 65 n && Nat.leb n 90)
  || (Nat.leb 97 n && Nat.leb n 122).

(** The items of a bracketed set, up to the closing bracket.  Of the
    escapes only [\s] and an escaped punctuation character are read. *)
Fixpoint parse_items (s : list ascii) : option (list cls_item * list ascii) :=
  match s with
  | [] => None
  | "]" :: rest => Some ([], rest)
  | "\" :: x :: rest =>
      if Ascii.eqb x "s" then '(items, r) ← parse_items rest; Some (CSpace :: items, r)
      else if is_alnum x then None
      else '(items, r) ← parse_items rest; Some (CChar x :: items, r)
  | a :: "-" :: b :: rest =>
      if Ascii.eqb b "]" then Some ([CChar a; CChar "-"], rest)
      else '(items, r) ← parse_items rest; Some (CRange a b :: items, r)
  | a :: rest => '(items, r) ← parse_items rest; Some (CChar a :: items, r)
  end.

(** A quantifier after an atom. *)
Definition parse_quant (a : re) (s : list ascii) : re * list ascii :=
  match s with
  | "?" :: rest => (ROpt a, rest)
  | "*" :: rest => (RStar a, rest)
  | "+" :: rest => (RPlus a, rest)
  | _ => (a, s)
  end.

(** Recursive descent; [g] is the number the next group gets.  What the
    fragment does not cover (look-around, back-references, counted
    repetition, the other escapes) is refused with [None]. *)
Fixpoint parse_alt (fuel g : nat) (s : list ascii) {struct fuel}
    : option (re * nat * list ascii) :=
  match fuel with
  | 0 => None
  | S f =>
      '(r1, g1, s1) ← parse_seq f g s;
      match s1 with
      | "|" :: s2 => '(r2, g2, s3) ← parse_alt f g1 s2; Some (RAlt r1 r2, g2, s3)
      | _ => Some (r1, g1, s1)
      end
  end
with parse_seq (fuel g : nat) (s : list ascii) {struct fuel}
    : option (re * nat * list ascii) :=
  match fuel with
  | 0 => None
  | S f =>
      match s with
      | [] => Some (REps, g, s)
      | ")" :: _ => Some (REps, g, s)
      | "|" :: _ => Some (REps, g, s)
      | _ =>
          '(a, g1, s1) ← parse_atom f g s;
          let '(q, s2) := parse_quant a s1 in
          '(rest, g2, s3) ← parse_seq f g1 s2;
          Some (RCat q rest, g2, s3)
      end
  end
with parse_atom (fuel g : nat) (s : list ascii) {struct fuel}
    : option (re * nat * list ascii) :=
  match fuel with
  | 0 => None
  | S f =>
      match s with
      | [] => None
      | "(" :: "?" :: _ => None
      | "(" :: s1 =>
          '(r, g1, s2) ← parse_alt f (S g) s1;
          match s2 with
          | ")" :: s3 => Some (RGroup g r, g1, s3)
          | _ => None
          end
      | "[" :: "]" :: _ => None
      | "[" :: "^" :: "]" :: _ => None
      | "[" :: "^" :: s1 => '(items, s2) ← parse_items s1; Some (RSet true items, g, s2)
      | "[" :: s1 => '(items, s2) ← parse_items s1; Some (RSet false items, g, s2)
      | "\" :: x :: s1 =>
          if Ascii.eqb x "A" then Some (RBegin, g, s1)
          else if Ascii.eqb x "Z" then Some (REnd, g, s1)
          else if Ascii.eqb x "s" then Some (RSet false [CSpace], g, s1)
          else if is_alnum x then None
          else Some (RChar x, g, s1)
      | "\" :: [] => None
      | "." :: s1 => Some (RAny, g, s1)
      | "?" :: _ => None
      | "*" :: _ => None
      | "+" :: _ => None
      | "{" :: _ => None
      | "^" :: _ => None
      | "$" :: _ => None
      | x :: s1 => Some (RChar x, g, s1)
      end
  end.

Local Close Scope char_scope.

(** [re.compile(pattern)]; [None] stands for a pattern outside the
    fragment. *)
Definition compile (pattern : string) : option re :=
  let s := list_ascii_of_string pattern in
  '(r, _, rest) ← parse_alt (3 * length s + 3) 1 s;
  match rest with
  | [] => Some r
  | _ :: _ => None
  end.

(** [pattern.match(subject)]: the pattern must match at position 0. *)
Definition re_match (r : re) (subject : string) : option caps :=
  rmatch r 0 (list_ascii_of_string subject) [] (fun _ _ c => Some c).

(** [m.group(n)] for n >= 1; [None] when the group took no part. *)
Definition group (n : nat) (m : option caps) : option string :=
  match m with
  | Some c => string_of_list_ascii <$> caps_lookup n c
  | None => None
  end.

End Regex.

(* ===================================================================== *)
(** * Constants of [mongodb_backups.py] *)
(* ===================================================================== *)

Definition S3_RELATION : string := "s3-credentials".

Definition REMAPPING_PATTERN : string :=
  "\ABackup doesn't match current cluster topology - it has different replica set names. Extra shards in the backup will cause this, for a simple example. The extra/unknown replica set names found in the backup are: ([^,\s]+)([.] Backup has no data for the config server or sole replicaset)?\Z".

Definition PBM_STATUS_CMD : list string := ["status"; "-o"; "json"].

(** The compiled pattern. *)
Definition REMAPPING_RE : Regex.re :=
  Eval vm_compute in default Regex.REps (Regex.compile REMAPPING_PATTERN).

(* ===================================================================== *)
(** * The world the charm runs in *)
(* ===================================================================== *)

(** ** Statuses ([ops.model.StatusBase]) *)

Inductive StatusBase : Type :=
| ActiveStatus (message : string)
| BlockedStatus (message : string)
| MaintenanceStatus (message : string)
| WaitingStatus (message : string).

Definition message (s : StatusBase) : string :=
  match s with
  | ActiveStatus m | BlockedStatus m | MaintenanceStatus m | WaitingStatus m => m
  end.

(** [isinstance(s, ActiveStatus)] and its siblings. *)
Definition is_ActiveStatus (s : StatusBase) : bool :=
  match s with ActiveStatus _ => true | _ => false end.
Definition is_BlockedStatus (s : StatusBase) : bool :=
  match s with BlockedStatus _ => true | _ => false end.
Definition is_MaintenanceStatus (s : StatusBase) : bool :=
  match s with MaintenanceStatus _ => true | _ => false end.
Definition is_WaitingStatus (s : StatusBase) : bool :=
  match s with WaitingStatus _ => true | _ => false end.

(** ** Exceptions *)

Inductive Exn : Type :=
| NotReadyError
| PyMongoError
| PBMBusyError
| ResyncError
| SetPBMConfigError
| ExecError (stdout : string)
| CalledProcessError (output : string)
| ModelError
| SecretNotFoundError
| SecretNotAddedError
| IndexError
| AttributeError
| KeyError
| OtherException.

(** ** Calls to the collaborators, as a handler issues them *)

Inductive Call : Type :=
(* the replica-set driver, [MongoDBConnection] *)
| GetReplsetMembers
| RemoveReplsetMember (host : string)
| AddReplsetMember (host : string)
| DirectIsReady (host : string)
| GetUsers
(* the event *)
| Defer
| EventFail (msg : string)
(* the workload container *)
| GetBackupService
| RunPbmCommand (cmd : list string)
| StartBackupService
| RestartBackupService
| Sleep (seconds : nat)
(* the secret store *)
| GetSecret (id : string)
| AddSecret (content : gmap string string)
| SetContent (id : string) (content : gmap string string)
(* parts of the charm that are not followed further *)
| ConnectMongodbExporter
| ConnectPbmAgent
| GenerateSecrets
| BuildUnitStatus (host : string)
| UpdateAppRelationData (users : gset string).

Global Instance StatusBase_eq_dec : EqDecision StatusBase.
Proof. solve_decision. Defined.

Global Instance Exn_eq_dec : EqDecision Exn.
Proof. solve_decision. Defined.

Global Instance Call_eq_dec : EqDecision Call.
Proof. solve_decision. Defined.

(** ** A state, exception and trace monad *)

Inductive Res (A : Type) : Type :=
| Ret (a : A)
| Raise (e : Exn).
Arguments Ret {A} a.
Arguments Raise {A} e.

(** A computation over a state [S]: its result, the state it leaves and
    the calls it made, in order. *)
Definition M (S A : Type) : Type := S -> Res A * S * list Call.

Definition ret {S A} (a : A) : M S A := fun w => (Ret a, w, []).

Definition raise {S A} (e : Exn) : M S A := fun w => (Raise e, w, []).

Definition bind {S A B} (m : M S A) (f : A -> M S B) : M S B :=
  fun w =>
    match m w with
    | (Ret a, w1, t1) => let '(r, w2, t2) := f a w1 in (r, w2, t1 ++ t2)
    | (Raise e, w1, t1) => (Raise e, w1, t1)
    end.

(** [try: m except e: h e], where [h e = None] means that no clause
    catches [e]. *)
Definition try_except {S A} (m : M S A) (h : Exn -> option (M S A)) : M S A :=
  fun w =>
    match m w with
    | (Ret a, w1, t1) => (Ret a, w1, t1)
    | (Raise e, w1, t1) =>
        match h e with
        | Some k => let '(r, w2, t2) := k w1 in (r, w2, t1 ++ t2)
        | None => (Raise e, w1, t1)
        end
    end.

Definition call {S} (c : Call) : M S unit := fun w => (Ret tt, w, [c]).
Definition get {S} : M S S := fun w => (Ret w, w, []).
Definition gets {S A} (f : S -> A) : M S A := fun w => (Ret (f w), w, []).
Definition modify {S} (f : S -> S) : M S unit := fun w => (Ret tt, f w, []).

Declare Scope charm_scope.
Delimit Scope charm_scope with charm.
Notation "'let*' x ':=' m 'in' k" := (bind m (fun x => k))
  (at level 10, x pattern, m at level 100, k at level 200) : charm_scope.
Notation "m ';;' k" := (bind m (fun _ => k))
  (at level 100, k at level 200, right associativity) : charm_scope.
Local Open Scope charm_scope.

(** The parts of an outcome. *)
Definition result {S A} (o : Res A * S * list Call) : Res A := o.1.1.
Definition final {S A} (o : Res A * S * list Call) : S := o.1.2.
Definition calls {S A} (o : Res A * S * list Call) : list Call := o.2.

(** [tenacity]: [Retrying(stop=stop_after_attempt(n), wait=wait_fixed(s),
    retry=retry_if_exception_type(...), reraise=True)] around [body].
    The body is run; an exception the policy retries on is followed by
    the wait and another attempt until [n] attempts were made, after
    which (and for any other exception) it is raised to the caller.
    [more] is the number of attempts left after the current one. *)
Fixpoint retrying {S A} (more : nat) (wait : nat) (retry_on : Exn -> bool)
    (body : M S A) : M S A :=
  try_except body
    (fun e =>
       if retry_on e then
         match more with
         | 0 => None
         | S more' => Some (call (Sleep wait) ;; retrying more' wait retry_on body)
         end
       else None).

Definition Retrying {S A} (stop_after_attempt : nat) (wait_fixed : nat)
    (retry_on : Exn -> bool) (body : M S A) : M S A :=
  retrying (pred stop_after_attempt) wait_fixed retry_on body.

(** The default policy, [retry_if_exception_type()], retries on every
    exception. *)
Definition any_exception (e : Exn) : bool := true.

(** ** The Juju model, the replica set and the workload *)

(** [ops.model.Unit]: only its name is used. *)
Record Unit : Type := { name : string }.

(** The peer relation ([Config.Relations.PEERS]): the remote units and the
    two data bags this unit reads and writes. *)
Record Relation : Type := {
  units : list Unit;
  app_data : gmap string string;
  unit_data : gmap string string
}.

Inductive EventType : Type :=
| RelationJoinedEvent
| RelationChangedEvent
| RelationDepartedEvent
| LeaderElectedEvent
| UpdateStatusEvent
| ActionEvent.

(** An event: [event.unit] and [event.departing_unit] of a relation
    event, [event.params] of an action. *)
Record Event : Type := {
  ev_type : EventType;
  ev_unit : option Unit;
  departing_unit : option Unit;
  params : gmap string string
}.

Global Instance EventType_eq_dec : EqDecision EventType.
Proof. solve_decision. Defined.

Record World : Type := {
  (* the model *)
  app_name : string;
  self_unit : Unit;
  is_leader : bool;
  peers : option Relation;        (* model.get_relation(PEERS) *)
  s3_relation : bool;             (* model.get_relation(S3_RELATION) is not None *)
  unit_status : StatusBase;
  (* the live replica-set configuration, held by the database *)
  replset : gset string;
  (* the workload container *)
  backup_service : bool;          (* the pbm-agent service is known to Pebble *)
  pbm_runs : nat                  (* pbm commands run so far *)
}.

(** What a pbm command does when it is run. *)
Inductive PbmResult : Type :=
| PbmStdout (stdout : string)
| PbmRaises (e : Exn).

(** The behaviour of the collaborators during one handler run, and the
    helpers of [charms.mongodb.v0.helpers], which the charm imports. *)
Record Env : Type := {
  (* the replica-set driver: [None] when the call succeeds *)
  get_replset_members_fails : option Exn;
  remove_replset_member_fails : string -> option Exn;
  add_replset_member_fails : string -> option Exn;
  get_users_fails : option Exn;
  database_users : gset string;
  (* [MongoDBConnection(config, host, direct=True).is_ready] *)
  direct_is_ready : string -> bool;
  (* the n-th pbm command run in the container *)
  pbm_exec : nat -> list string -> PbmResult;
  (* helpers *)
  build_unit_status : gset string -> string -> StatusBase;
  process_pbm_status : string -> StatusBase;
  process_pbm_error : string -> string;
  current_pbm_op : string -> string
}.

Definition set_unit_status (st : StatusBase) (w : World) : World :=
  {| app_name := app_name w; self_unit := self_unit w; is_leader := is_leader w;
     peers := peers w; s3_relation := s3_relation w; unit_status := st;
     replset := replset w; backup_service := backup_service w; pbm_runs := pbm_runs w |}.

Definition set_peers (p : option Relation) (w : World) : World :=
  {| app_name := app_name w; self_unit := self_unit w; is_leader := is_leader w;
     peers := p; s3_relation := s3_relation w; unit_status := unit_status w;
     replset := replset w; backup_service := backup_service w; pbm_runs := pbm_runs w |}.

Definition set_replset (m : gset string) (w : World) : World :=
  {| app_name := app_name w; self_unit := self_unit w; is_leader := is_leader w;
     peers := peers w; s3_relation := s3_relation w; unit_status := unit_status w;
     replset := m; backup_service := backup_service w; pbm_runs := pbm_runs w |}.

Definition set_pbm_runs (n : nat) (w : World) : World :=
  {| app_name := app_name w; self_unit := self_unit w; is_leader := is_leader w;
     peers := peers w; s3_relation := s3_relation w; unit_status := unit_status w;
     replset := replset w; backup_service := backup_service w; pbm_runs := n |}.

(** ** Strings *)

(** [s.split(sep)] for a one-character separator. *)
Fixpoint split_on (sep : ascii) (s : string) : list string :=
  match s with
  | EmptyString => [EmptyString]
  | String c s' =>
      if Ascii.eqb c sep then EmptyString :: split_on sep s'
      else
        match split_on sep s' with
        | [] => [String c EmptyString]
        | x :: xs => String c x :: xs
        end
  end.

(** [needle in haystack]. *)
Fixpoint is_prefix (p s : string) : bool :=
  match p, s with
  | EmptyString, _ => true
  | String a p', String b s' => Ascii.eqb a b && is_prefix p' s'
  | String _ _, EmptyString => false
  end.

Fixpoint contains (needle haystack : string) : bool :=
  is_prefix needle haystack ||
  match haystack with
  | EmptyString => false
  | String _ h' => contains needle h'
  end.

(* ===================================================================== *)
(** * [MongoDBBackups]: the backup coordinator *)
(* ===================================================================== *)

Section Backups.

Context (E : Env).

(** ** The workload ([charm.py], the helper functions at its end) *)

(** [get_backup_service]: [container.get_service] raises [ModelError]
    for a service Pebble does not know. *)
Definition get_backup_service : M World unit :=
  call GetBackupService ;;
  let* known := gets backup_service in
  if known then ret tt else raise ModelError.

(** [run_pbm_command]: executes pbm in the container and returns its
    standard output. *)
Definition run_pbm_command (cmd : list string) : M World string :=
  call (RunPbmCommand cmd) ;;
  let* n := gets pbm_runs in
  modify (set_pbm_runs (S n)) ;;
  match pbm_exec E n cmd with
  | PbmStdout stdout => ret stdout
  | PbmRaises e => raise e
  end.

Definition start_backup_service : M World unit := call StartBackupService.

Definition restart_backup_service : M World unit := call RestartBackupService.

(** ** [_get_pbm_status] *)

Definition _get_pbm_status : M World StatusBase :=
  let* found :=
    try_except (get_backup_service ;; ret true)
      (fun e => match e with ModelError => Some (ret false) | _ => None end) in
  if negb found then ret (WaitingStatus "waiting for pbm to start")
  else
    try_except
      (let* pbm_status := run_pbm_command PBM_STATUS_CMD in
       ret (process_pbm_status E pbm_status))
      (fun e =>
         match e with
         | ExecError stdout => Some (ret (BlockedStatus (process_pbm_error E stdout)))
         | CalledProcessError output => Some (ret (BlockedStatus (process_pbm_error E output)))
         | _ => Some (ret (BlockedStatus "PBM error"))
         end).

(** ** The actions *)

Definition _on_create_backup_action (event : Event) : M World unit :=
  let* s3 := gets s3_relation in
  if negb s3 then
    call (EventFail "Relation with s3-integrator charm missing, cannot create backup.")
  else
    let* leader := gets is_leader in
    if negb leader then call (EventFail "The action can be run only on leader unit.")
    else
      let* pbm_status := _get_pbm_status in
      modify (set_unit_status pbm_status) ;;
      if is_MaintenanceStatus pbm_status then
        call (EventFail
                "Can only create one backup at a time, please wait for current backup to finish.")
      else if is_WaitingStatus pbm_status then call Defer
      else if is_BlockedStatus pbm_status then
        call (EventFail ("Cannot create backup " +:+ message pbm_status +:+ "."))
      else ret tt.

Definition _on_list_backups_action (event : Event) : M World unit :=
  let* s3 := gets s3_relation in
  if negb s3 then
    call (EventFail "Relation with s3-integrator charm missing, cannot list backups.")
  else
    let* pbm_status := _get_pbm_status in
    modify (set_unit_status pbm_status) ;;
    if is_WaitingStatus pbm_status then call Defer
    else if is_BlockedStatus pbm_status then
      call (EventFail ("Cannot list backups: " +:+ message pbm_status +:+ "."))
    else ret tt.

(** [not backup_id]: the parameter is missing or the empty string. *)
Definition falsy (v : option string) : bool :=
  match v with
  | None => true
  | Some s => bool_decide (s = "")
  end.

Definition _on_restore_action (event : Event) : M World unit :=
  let* s3 := gets s3_relation in
  if negb s3 then
    call (EventFail "Relation with s3-integrator charm missing, cannot restore from a backup.")
  else
    let backup_id := params event !! "backup-id" in
    if falsy backup_id then call (EventFail "Missing backup-id to restore")
    else
      let* leader := gets is_leader in
      if negb leader then call (EventFail "The action can be run only on leader unit.")
      else
        let* pbm_status := _get_pbm_status in
        modify (set_unit_status pbm_status) ;;
        if is_MaintenanceStatus pbm_status then
          call (EventFail "Please wait for current backup/restore to finish.")
        else if is_WaitingStatus pbm_status then call Defer
        else if is_BlockedStatus pbm_status then
          call (EventFail ("Cannot restore backup " +:+ message pbm_status +:+ "."))
        else ret tt.

(** ** Resync *)

Definition is_ResyncError (e : Exn) : bool :=
  match e with ResyncError => true | _ => false end.

(** [_wait_pbm_status]: the decorator retries the whole function on
    [ResyncError] (no wait between its attempts); the loop inside makes
    up to three attempts five seconds apart. *)
Definition _wait_pbm_status : M World unit :=
  Retrying 20 0 is_ResyncError
    (Retrying 3 5 any_exception
       (try_except
          (let* pbm_status := run_pbm_command PBM_STATUS_CMD in
           if contains "Resync" (current_pbm_op E pbm_status) then
             modify (set_unit_status (WaitingStatus "waiting to sync s3 configurations.")) ;;
             raise ResyncError
           else ret tt)
          (fun e =>
             match e with
             | ExecError stdout =>
                 Some (modify (set_unit_status (BlockedStatus (process_pbm_error E stdout))))
             | _ => None
             end))).

(** One attempt of the loop that waits for pbm to be free. *)
Definition precheck_attempt : M World unit :=
  let* pbm_status := _get_pbm_status in
  if is_MaintenanceStatus pbm_status then raise PBMBusyError
  else if is_WaitingStatus pbm_status then restart_backup_service ;; raise PBMBusyError
  else ret tt.

Definition FORCE_RESYNC_CMD : list string := ["config"; "--force-resync"].

Definition _resync_config_options : M World unit :=
  start_backup_service ;;
  Retrying 20 5 any_exception precheck_attempt ;;
  run_pbm_command FORCE_RESYNC_CMD ;;
  call (Sleep 2) ;;
  _wait_pbm_status.

End Backups.

(* ===================================================================== *)
(** * [MongoDBCharm]: membership reconciliation and the unit status *)
(* ===================================================================== *)

(** ** The desired membership *)

(** [get_hostname_for_unit]: [unit.name.split("/")[1]] between the
    application's name and its endpoints suffix; [None] stands for the
    [IndexError] of a name without a slash. *)
Definition get_hostname_for_unit (app : string) (u : Unit) : option string :=
  match split_on "/" (name u) with
  | _ :: unit_id :: _ => Some (app +:+ "-" +:+ unit_id +:+ "." +:+ app +:+ "-endpoints")
  | _ => None
  end.

(** [_unit_hosts]: this unit first, then the units of the peer relation. *)
Definition _unit_hosts (w : World) : option (list string) :=
  self ← get_hostname_for_unit (app_name w) (self_unit w);
  match peers w with
  | None => Some [self]
  | Some r => others ← mapM (get_hostname_for_unit (app_name w)) (units r); Some (self :: others)
  end.

(** [mongodb_config.hosts]: [set(self._unit_hosts)].  The credentials
    and TLS settings of the configuration are not followed. *)
Definition mongodb_config_hosts (w : World) : option (gset string) :=
  hosts ← _unit_hosts w; Some (list_to_set hosts).

(** [db_initialised]: the flag is in the application's peer data. *)
Definition db_initialised (w : World) : bool :=
  match peers w with
  | None => false
  | Some r => bool_decide (is_Some (app_data r !! "db_initialised"))
  end.

(** [unit_peer_data.setdefault("unit_departed", "True")]; without a peer
    relation the data is a fresh dictionary and nothing is kept. *)
Definition mark_unit_departed (w : World) : World :=
  match peers w with
  | None => w
  | Some r =>
      match unit_data r !! "unit_departed" with
      | Some _ => w
      | None =>
          set_peers (Some {| units := units r; app_data := app_data r;
                             unit_data := <["unit_departed" := "True"]> (unit_data r) |}) w
      end
  end.

Definition from_option {S A} (e : Exn) (o : option A) : M S A :=
  match o with
  | Some a => ret a
  | None => raise e
  end.

Section Charm.

Context (E : Env).

(** ** The replica-set driver ([MongoDBConnection]) *)

(** Modelled from the spec: [charms.mongodb.v0.mongodb], the cluster
    driver, is not among the sources.  [GetMembers] returns the live
    member set; it fails with [NotReadyError] or a driver error. *)
Definition get_replset_members : M World (gset string) :=
  call GetReplsetMembers ;;
  match get_replset_members_fails E with
  | Some e => raise e
  | None => gets replset
  end.

(** Modelled from the spec: [RemoveMember(hostname)] of the cluster
    driver, which is not among the sources; the host leaves the live
    set unless the call fails. *)
Definition remove_replset_member (host : string) : M World unit :=
  call (RemoveReplsetMember host) ;;
  match remove_replset_member_fails E host with
  | Some e => raise e
  | None => modify (fun w => set_replset (replset w ∖ {[host]}) w)
  end.

(** Modelled from the spec: [AddMember(hostname)] of the cluster driver,
    which is not among the sources; the host joins the live set unless
    the call fails. *)
Definition add_replset_member (host : string) : M World unit :=
  call (AddReplsetMember host) ;;
  match add_replset_member_fails E host with
  | Some e => raise e
  | None => modify (fun w => set_replset (replset w ∪ {[host]}) w)
  end.

(** Modelled from the spec: the users the cluster driver reports, which
    the pass hands on to the application relations. *)
Definition get_users : M World (gset string) :=
  call GetUsers ;;
  match get_users_fails E with
  | Some e => raise e
  | None => ret (database_users E)
  end.

(** [with MongoDBConnection(self.mongodb_config, host, direct=True) as
    direct_mongo: direct_mongo.is_ready] *)
Definition is_ready (host : string) : M World bool :=
  let* w := get in
  from_option IndexError (mongodb_config_hosts w) ;;
  call (DirectIsReady host) ;;
  ret (direct_is_ready E host).

(** ** Adding and removing members *)

(** [units_to_add] is the set in the order the loop visits it; the
    caller passes the [elements] of the set. *)
Fixpoint _add_units_from_replica_set (event : Event) (units_to_add : list string)
    : M World unit :=
  match units_to_add with
  | [] => ret tt
  | member :: rest =>
      let* ready := is_ready member in
      if negb ready then call Defer
      else add_replset_member member ;; _add_units_from_replica_set event rest
  end.

Fixpoint _remove_units_from_replica_set (event : Event) (units_to_remove : list string)
    : M World unit :=
  match units_to_remove with
  | [] => ret tt
  | member :: rest =>
      remove_replset_member member ;; _remove_units_from_replica_set event rest
  end.

Definition _set_leader_unit_active_if_needed : M World unit :=
  let* st := gets unit_status in
  if is_WaitingStatus st && bool_decide (message st = "waiting to reconfigure replica set")
  then modify (set_unit_status (ActiveStatus ""))
  else ret tt.

(** ** [_relation_changes_handler] *)

Definition is_departed (event : Event) : bool :=
  bool_decide (ev_type event = RelationDepartedEvent).

(** The body of [try] under [with MongoDBConnection(self.mongodb_config)
    as mongo]. *)
Definition reconfigure_body (event : Event) : M World unit :=
  let* replset_members := get_replset_members in
  let* w := get in
  let* mongodb_hosts := from_option IndexError (mongodb_config_hosts w) in
  (* compare the two sets to avoid unnecessary reconfiguration *)
  if bool_decide (replset_members = mongodb_hosts) then _set_leader_unit_active_if_needed
  else
    (* remove members first, it is faster *)
    _remove_units_from_replica_set event (elements (replset_members ∖ mongodb_hosts)) ;;
    (* remove the departing unit before adding new members *)
    let* mongodb_hosts :=
      match is_departed event, ev_unit event with
      | true, Some u =>
          let* h := from_option IndexError (get_hostname_for_unit (app_name w) u) in
          ret (mongodb_hosts ∖ {[h]})
      | _, _ => ret mongodb_hosts
      end in
    _add_units_from_replica_set event (elements (mongodb_hosts ∖ replset_members)) ;;
    let* users := get_users in
    call (UpdateAppRelationData users).

(** [except NotReadyError] and [except PyMongoError]: both defer. *)
Definition defer_on_driver_error (e : Exn) : option (M World unit) :=
  match e with
  | NotReadyError => Some (call Defer)
  | PyMongoError => Some (call Defer)
  | _ => None
  end.

Definition reconfigure (event : Event) : M World unit :=
  try_except (reconfigure_body event) defer_on_driver_error.

Definition _relation_changes_handler (event : Event) : M World unit :=
  call ConnectMongodbExporter ;;
  call ConnectPbmAgent ;;
  (if is_departed event then
     let* d := from_option AttributeError (departing_unit event) in
     let* w := get in
     if bool_decide (name d = name (self_unit w)) then modify mark_unit_departed else ret tt
   else ret tt) ;;
  let* leader := gets is_leader in
  if negb leader then ret tt
  else
    call GenerateSecrets ;;
    let* initialised := gets db_initialised in
    if negb initialised then ret tt
    else
      let* w := get in
      from_option IndexError (mongodb_config_hosts w) ;;
      reconfigure event.

(** ** [_on_update_status] *)

Definition _on_update_status (event : Event) : M World unit :=
  let* initialised := gets db_initialised in
  if negb initialised then ret tt
  else
    let* ready := is_ready "localhost" in
    if negb ready then modify (set_unit_status (WaitingStatus "Waiting for MongoDB to start"))
    else
      let* leader := gets is_leader in
      (if leader then _relation_changes_handler event else ret tt) ;;
      let* w := get in
      let* hosts := from_option IndexError (mongodb_config_hosts w) in
      let* host := from_option IndexError (get_hostname_for_unit (app_name w) (self_unit w)) in
      call (BuildUnitStatus host) ;;
      let mongodb_status := build_unit_status E hosts host in
      let* pbm_status := _get_pbm_status E in
      if negb (is_ActiveStatus mongodb_status) || negb (s3_relation w)
         || is_ActiveStatus pbm_status
      then modify (set_unit_status mongodb_status)
      else modify (set_unit_status pbm_status).

End Charm.

(* ===================================================================== *)
(** * Scoped secrets ([charm.py], [get_secret] to [remove_secret]) *)
(* ===================================================================== *)

Module Secrets.

(** [Config.Relations.Scopes] *)
Inductive Scope : Type := APP_SCOPE | UNIT_SCOPE.

Global Instance Scope_eq_dec : EqDecision Scope.
Proof. solve_decision. Defined.

(** [Config.Secrets] *)
Definition SECRET_INTERNAL_LABEL : string := "internal-secret".
Definition SECRET_DELETED_LABEL : string := "None".

(** [self.secrets[scope]]: empty, or the two entries under [SECRET_LABEL]
    (the secret object, known by its id) and [SECRET_CACHE_LABEL] (its
    content), which are always written together. *)
Definition ScopeSecrets : Type := option (string * gmap string string).

(** The peer relation is taken to exist: [_peer_data] reads
    [self.relation.data] of the scope's owner. *)
Record World : Type := {
  has_secrets : bool;                          (* JujuVersion.from_environ().has_secrets *)
  peer_data : Scope -> gmap string string;
  secrets : Scope -> ScopeSecrets;
  juju_secrets : gmap string (gmap string string);   (* the secrets Juju holds, by id *)
  unused_ids : list string                     (* the ids [add_secret] will hand out *)
}.

Definition upd {A} (f : Scope -> A) (scope : Scope) (a : A) : Scope -> A :=
  fun s => if decide (s = scope) then a else f s.

Definition set_peer_data (scope : Scope) (d : gmap string string) (w : World) : World :=
  {| has_secrets := has_secrets w; peer_data := upd (peer_data w) scope d;
     secrets := secrets w; juju_secrets := juju_secrets w; unused_ids := unused_ids w |}.

Definition set_secrets (scope : Scope) (s : ScopeSecrets) (w : World) : World :=
  {| has_secrets := has_secrets w; peer_data := peer_data w;
     secrets := upd (secrets w) scope s; juju_secrets := juju_secrets w;
     unused_ids := unused_ids w |}.

Definition set_juju_secret (id : string) (content : gmap string string) (w : World) : World :=
  {| has_secrets := has_secrets w; peer_data := peer_data w; secrets := secrets w;
     juju_secrets := <[id := content]> (juju_secrets w); unused_ids := unused_ids w |}.

Definition set_unused_ids (ids : list string) (w : World) : World :=
  {| has_secrets := has_secrets w; peer_data := peer_data w; secrets := secrets w;
     juju_secrets := juju_secrets w; unused_ids := ids |}.

(** ** The secret store of the model *)

(** [model.get_secret(id=...)] followed by [secret.get_content()]:
    [SecretNotFoundError] for an id Juju does not hold. *)
Definition model_get_secret (id : string) : M World (gmap string string) :=
  call (GetSecret id) ;;
  let* held := gets juju_secrets in
  from_option SecretNotFoundError (held !! id).

(** [scope_obj.add_secret(content)]: the new secret's id, or nothing. *)
Definition add_secret (content : gmap string string) : M World (option string) :=
  call (AddSecret content) ;;
  let* ids := gets unused_ids in
  match ids with
  | [] => ret None
  | id :: ids' =>
      modify (set_unused_ids ids') ;; modify (set_juju_secret id content) ;; ret (Some id)
  end.

Definition set_content (id : string) (content : gmap string string) : M World unit :=
  call (SetContent id content) ;; modify (set_juju_secret id content).

(** A dictionary is true when it is not empty. *)
Definition nonempty (d : gmap string string) : bool := negb (bool_decide (d = ∅)).

(** ** [_juju_secrets_get] *)

Definition _juju_secrets_get (scope : Scope) : M World (option bool) :=
  let* data := gets (fun w => peer_data w scope) in
  if falsy (data !! SECRET_INTERNAL_LABEL) then ret None
  else
    let id := default "" (data !! SECRET_INTERNAL_LABEL) in
    let* s := gets (fun w => secrets w scope) in
    match s with
    | Some (_, content) => ret (Some (nonempty content))
    | None =>
        try_except
          (let* content := model_get_secret id in
           (* the secret object is kept, its content cached *)
           modify (set_secrets scope (Some (id, content))) ;;
           ret (Some (nonempty content)))
          (fun e => match e with SecretNotFoundError => Some (ret None) | _ => None end)
    end.

(** ** [_juju_secret_get_key] and [get_secret] *)

Definition _juju_secret_get_key (scope : Scope) (key : string) : M World (option string) :=
  if bool_decide (key = "") then ret None
  else
    let* found := _juju_secrets_get scope in
    match found with
    | Some true =>
        let* s := gets (fun w => secrets w scope) in
        match s with
        | Some (_, secret_cache) =>
            if nonempty secret_cache then
              let secret_data := secret_cache !! key in
              if negb (falsy secret_data)
                 && negb (bool_decide (secret_data = Some SECRET_DELETED_LABEL))
              then ret secret_data
              else ret None
            else ret None
        | None => ret None
        end
    | _ => ret None
    end.

Definition get_secret (scope : Scope) (key : string) : M World (option string) :=
  let* data := gets (fun w => peer_data w scope) in
  let* juju := gets has_secrets in
  if juju then _juju_secret_get_key scope key
  else ret (data !! key).

(** ** [_juju_secret_set] and [set_secret] *)

Definition _juju_secret_set (scope : Scope) (key value : string) : M World string :=
  _juju_secrets_get scope ;;
  let* s := gets (fun w => secrets w scope) in
  match s with
  | Some (id, secret_cache) =>
      (* not the first secret of the scope: the one fetched before is reused *)
      (if bool_decide (secret_cache !! key = Some value) then ret tt
       else
         let secret_cache := <[key := value]> secret_cache in
         modify (set_secrets scope (Some (id, secret_cache))) ;;
         set_content id secret_cache) ;;
      ret id
  | None =>
      (* a brand-new secret for the scope *)
      let* added := add_secret {[key := value]} in
      match added with
      | None => raise SecretNotAddedError
      | Some id =>
          modify (set_secrets scope (Some (id, {[key := value]}))) ;;
          let* data := gets (fun w => peer_data w scope) in
          modify (set_peer_data scope (<[SECRET_INTERNAL_LABEL := id]> data)) ;;
          ret id
      end
  end.

(** ** [_juju_secret_remove] and [remove_secret] *)

Definition _juju_secret_remove (scope : Scope) (key : string) : M World unit :=
  _juju_secrets_get scope ;;
  let* s := gets (fun w => secrets w scope) in
  match s with
  | None => ret tt                      (* no secrets are available *)
  | Some (id, secret_cache) =>
      if negb (nonempty secret_cache) || negb (bool_decide (is_Some (secret_cache !! key)))
      then ret tt                       (* no such secret *)
      else
        let secret_cache := <[key := SECRET_DELETED_LABEL]> secret_cache in
        modify (set_secrets scope (Some (id, secret_cache))) ;;
        set_content id secret_cache
  end.

(** Without Juju secrets the key is deleted from the peer data; deleting
    from [RelationDataContent] writes the empty string, which removes a
    key and passes over one that is absent. *)
Definition remove_secret (scope : Scope) (key : string) : M World unit :=
  let* juju := gets has_secrets in
  if juju then _juju_secret_remove scope key
  else
    let* data := gets (fun w => peer_data w scope) in
    modify (set_peer_data scope (delete key data)).

(** [set_secret]: the result is the secret's id, or [None]. *)
Definition set_secret (scope : Scope) (key : string) (value : option string)
    : M World (option string) :=
  if falsy value then remove_secret scope key ;; ret None
  else
    let value := default "" value in
    let* juju := gets has_secrets in
    if juju then
      let* id := _juju_secret_set scope key value in
      ret (Some id)
    else
      let* data := gets (fun w => peer_data w scope) in
      modify (set_peer_data scope (<[key := value]> data)) ;;
      ret None.

End Secrets.

(* ===================================================================== *)
(** * Vocabulary of the properties *)
(* ===================================================================== *)

(** ** The topology-mismatch diagnostic *)

(** The pattern's literal text with every full stop read as [.]. *)
Definition lit_chain (l : list ascii) (r : Regex.re) : Regex.re :=
  fold_right
    (fun c acc => Regex.RCat (if Ascii.eqb c "."%char then Regex.RAny else Regex.RChar c) acc)
    r l.

(** The diagnostic up to the replica-set names. *)
Definition topology_prefix : string :=
  "Backup doesn't match current cluster topology - it has different replica set names. Extra shards in the backup will cause this, for a simple example. The extra/unknown replica set names found in the backup are: ".

Definition no_data_suffix : string :=
  ". Backup has no data for the config server or sole replicaset".

Definition mismatch_text (names : string) : string := topology_prefix +:+ names.

(** The characters the first group takes: [[^,\s]]. *)
Definition name_char (c : ascii) : bool :=
  Regex.set_matches true [Regex.CChar ","%char; Regex.CSpace] c.

(** The diagnostic in its documented full form, naming [rs1]. *)
Definition documented_text : string :=
  "Backup doesn't match current cluster topology - it has different replica set names. Extra shards in the backup will cause this, for a simple example. The extra/unknown replica set names found in the backup are: rs1.".

(** ** Membership calls in a trace *)

Definition is_add (c : Call) : bool :=
  match c with AddReplsetMember _ => true | _ => false end.

Definition is_remove (c : Call) : bool :=
  match c with RemoveReplsetMember _ => true | _ => false end.

Definition no_add (t : list Call) : bool := forallb (fun c => negb (is_add c)) t.
Definition no_remove (t : list Call) : bool := forallb (fun c => negb (is_remove c)) t.

(** The membership calls of a trace, in order. *)
Definition membership_calls (t : list Call) : list Call :=
  filter (fun c => is_add c || is_remove c) t.

(** Every removal is issued before any addition: once a member was
    added, nothing is removed. *)
Fixpoint removals_first (t : list Call) : bool :=
  match t with
  | [] => true
  | c :: t' => if is_add c then no_remove t' else removals_first t'
  end.

(** The same by positions in the trace. *)
Definition removals_before_additions (t : list Call) : Prop :=
  forall i j h h',
    t !! i = Some (RemoveReplsetMember h) ->
    t !! j = Some (AddReplsetMember h') ->
    i < j.



(** A result that the reconciler turns into a deferral, if it is an
    exception at all. *)
Definition retryable_result {A} (r : Res A) : Prop :=
  match r with
  | Ret _ => True
  | Raise e => e = NotReadyError \/ e = PyMongoError
  end.

(** What a handler leaves alone: everything but the unit's status, the
    live membership and the unit's own peer data. *)
Definition frame (w w' : World) : Prop :=
  app_name w' = app_name w /\
  self_unit w' = self_unit w /\
  is_leader w' = is_leader w /\
  s3_relation w' = s3_relation w /\
  backup_service w' = backup_service w /\
  pbm_runs w' = pbm_runs w /\
  mongodb_config_hosts w' = mongodb_config_hosts w /\
  db_initialised w' = db_initialised w.

(** The reconciler from its leadership check on, as
    [_relation_changes_handler] has it. *)
Definition leader_pass (E : Env) (event : Event) : M World unit :=
  let* leader := gets is_leader in
  if negb leader then ret tt
  else
    call GenerateSecrets ;;
    let* initialised := gets db_initialised in
    if negb initialised then ret tt
    else
      let* w := get in
      from_option IndexError (mongodb_config_hosts w) ;;
      reconfigure E event.

(** What a pass does before it turns to the replica set. *)
Definition handler_prelude : list Call :=
  [ConnectMongodbExporter; ConnectPbmAgent; GenerateSecrets].

(** The additions of ready hosts, each after its readiness check. *)
Definition checked_additions (l : list string) : list Call :=
  concat (map (fun h => [DirectIsReady h; AddReplsetMember h]) l).


(** ** The status projector *)



(** The status a poll of pbm yields when the service's presence is
    [known] and the poll is the [n]-th pbm command of the container. *)
Definition poll_status (E : Env) (known : bool) (n : nat) : StatusBase :=
  if known then
    match pbm_exec E n PBM_STATUS_CMD with
    | PbmStdout stdout => process_pbm_status E stdout
    | PbmRaises (ExecError stdout) => BlockedStatus (process_pbm_error E stdout)
    | PbmRaises (CalledProcessError output) => BlockedStatus (process_pbm_error E output)
    | PbmRaises _ => BlockedStatus "PBM error"
    end
  else WaitingStatus "waiting for pbm to start".

(** The calls of one poll. *)
Definition poll_calls (known : bool) : list Call :=
  if known then [GetBackupService; RunPbmCommand PBM_STATUS_CMD] else [GetBackupService].


(** The update-status handler from the building of the database status
    on, as [_on_update_status] has it. *)
Definition project_and_set (E : Env) : M World unit :=
  let* w := get in
  let* hosts := from_option IndexError (mongodb_config_hosts w) in
  let* host := from_option IndexError (get_hostname_for_unit (app_name w) (self_unit w)) in
  call (BuildUnitStatus host) ;;
  let mongodb_status := build_unit_status E hosts host in
  let* pbm_status := _get_pbm_status E in
  if negb (is_ActiveStatus mongodb_status) || negb (s3_relation w)
     || is_ActiveStatus pbm_status
  then modify (set_unit_status mongodb_status)
  else modify (set_unit_status pbm_status).

(** ** Polling the backup tool *)

(** The world after one poll: a pbm command was run if the service is
    known. *)
Definition polled (w : World) : World :=
  if backup_service w then set_pbm_runs (S (pbm_runs w)) w else w.

(** The statuses that [n] successive polls yield from [w] on. *)
Fixpoint attempt_statuses (E : Env) (w : World) (n : nat) : list StatusBase :=
  match n with
  | 0 => []
  | S n' => poll_status E (backup_service w) (pbm_runs w) :: attempt_statuses E (polled w) n'
  end.

(** Busy: an operation is running, or a resync is. *)
Definition is_busy (st : StatusBase) : bool :=
  is_MaintenanceStatus st || is_WaitingStatus st.

(** The calls of one attempt of the pre-check loop that finds pbm busy. *)
Definition busy_attempt_calls (E : Env) (w : World) : list Call :=
  poll_calls (backup_service w) ++
  (if is_MaintenanceStatus (poll_status E (backup_service w) (pbm_runs w)) then []
   else [RestartBackupService]).

(** The calls of [more + 1] busy attempts, five seconds apart. *)
Fixpoint busy_trace (E : Env) (w : World) (more : nat) : list Call :=
  match more with
  | 0 => busy_attempt_calls E w
  | S more' => busy_attempt_calls E w ++ Sleep 5 :: busy_trace E (polled w) more'
  end.

(** ** Admission of the backup actions *)

Inductive Action : Type := CreateBackup | ListBackups | Restore.

Definition run_action (E : Env) (a : Action) (event : Event) : M World unit :=
  match a with
  | CreateBackup => _on_create_backup_action E event
  | ListBackups => _on_list_backups_action E event
  | Restore => _on_restore_action E event
  end.

Inductive Admission : Type :=
| Rejected (msg : string)      (* event.fail(msg) *)
| Deferred                     (* event.defer() *)
| Proceeds.

(** What a handler's trace says it did with the action. *)
Fixpoint verdict (t : list Call) : Admission :=
  match t with
  | [] => Proceeds
  | EventFail msg :: _ => Rejected msg
  | Defer :: _ => Deferred
  | _ :: t' => verdict t'
  end.

Definition mutating (a : Action) : bool :=
  match a with
  | CreateBackup | Restore => true
  | ListBackups => false
  end.

Definition is_restore (a : Action) : bool :=
  match a with
  | Restore => true
  | _ => false
  end.

Definition missing_relation_msg (a : Action) : string :=
  match a with
  | CreateBackup => "Relation with s3-integrator charm missing, cannot create backup."
  | ListBackups => "Relation with s3-integrator charm missing, cannot list backups."
  | Restore => "Relation with s3-integrator charm missing, cannot restore from a backup."
  end.

Definition blocked_msg (a : Action) (reason : string) : string :=
  match a with
  | CreateBackup => "Cannot create backup " +:+ reason +:+ "."
  | ListBackups => "Cannot list backups: " +:+ reason +:+ "."
  | Restore => "Cannot restore backup " +:+ reason +:+ "."
  end.

(** An action gets as far as the status check. *)
Definition reaches_status_check (a : Action) (s3 leader : bool) (backup_id : option string)
    : bool :=
  s3 && negb (is_restore a && falsy backup_id) && (negb (mutating a) || leader).

(** The admission rules as a table: the relation, the restore
    parameter, the leader, then the classified status. *)
Definition admission (a : Action) (s3 leader : bool) (backup_id : option string)
    (st : StatusBase) : Admission :=
  if negb s3 then Rejected (missing_relation_msg a)
  else if is_restore a && falsy backup_id then Rejected "Missing backup-id to restore"
  else if mutating a && negb leader then Rejected "The action can be run only on leader unit."
  else
    match st, a with
    | MaintenanceStatus _, CreateBackup =>
        Rejected "Can only create one backup at a time, please wait for current backup to finish."
    | MaintenanceStatus _, Restore => Rejected "Please wait for current backup/restore to finish."
    | MaintenanceStatus _, ListBackups => Proceeds
    | WaitingStatus _, _ => Deferred
    | BlockedStatus reason, _ => Rejected (blocked_msg a reason)
    | ActiveStatus _, _ => Proceeds
    end.

(** ** Secrets *)

(** [self.secrets[scope]] once [_juju_secrets_get] has run: what was
    cached, or else the secret that the scope's peer data names, if Juju
    holds it. *)
Definition fetched (w : Secrets.World) (scope : Secrets.Scope) : Secrets.ScopeSecrets :=
  match Secrets.secrets w scope with
  | Some s => Some s
  | None =>
      let label := Secrets.peer_data w scope !! Secrets.SECRET_INTERNAL_LABEL in
      if falsy label then None
      else
        match Secrets.juju_secrets w !! default "" label with
        | Some content => Some (default "" label, content)
        | None => None
        end
  end.

Definition is_SetContent (c : Call) : bool :=
  match c with SetContent _ _ => true | _ => false end.

(* ===================================================================== *)
(** * Sample deployments *)
(* ===================================================================== *)

(** An application "mongodb" whose unit 0 leads; the peer relation lists
    unit 2; the replica set has the hosts of units 0 and 1. *)
Definition host_A : string := "mongodb-0.mongodb-endpoints".
Definition host_B : string := "mongodb-1.mongodb-endpoints".
Definition host_C : string := "mongodb-2.mongodb-endpoints".
Definition host_D : string := "mongodb-3.mongodb-endpoints".

Definition unit_0 : Unit := {| name := "mongodb/0" |}.
Definition unit_2 : Unit := {| name := "mongodb/2" |}.

Definition sample_world (s3 : bool) (live : gset string) : World :=
  {| app_name := "mongodb"; self_unit := unit_0; is_leader := true;
     peers := Some {| units := [unit_2];
                      app_data := {[ "db_initialised" := "True" ]};
                      unit_data := ∅ |};
     s3_relation := s3; unit_status := WaitingStatus "";
     replset := live; backup_service := true; pbm_runs := 0 |}.

(** A driver that answers, hosts ready as [ready] says, a database in
    status [db] and a backup tool in status [pbm]. *)
Definition sample_env (ready : string -> bool) (db pbm : StatusBase) : Env :=
  {| get_replset_members_fails := None;
     remove_replset_member_fails := fun _ => None;
     add_replset_member_fails := fun _ => None;
     get_users_fails := None;
     database_users := ∅;
     direct_is_ready := ready;
     pbm_exec := fun _ _ => PbmStdout "";
     build_unit_status := fun _ _ => db;
     process_pbm_status := fun _ => pbm;
     process_pbm_error := fun s => s;
     current_pbm_op := fun s => s |}.

Definition all_ready (h : string) : bool := true.
Definition all_but_C (h : string) : bool := negb (bool_decide (h = host_C)).

Definition relation_changed : Event :=
  {| ev_type := RelationChangedEvent; ev_unit := Some unit_2; departing_unit := None;
     params := ∅ |}.

Definition unit_2_departed : Event :=
  {| ev_type := RelationDepartedEvent; ev_unit := Some unit_2;
     departing_unit := Some unit_2; params := ∅ |}.

Definition update_status : Event :=
  {| ev_type := UpdateStatusEvent; ev_unit := None; departing_unit := None; params := ∅ |}.

Definition restore_without_id : Event :=
  {| ev_type := ActionEvent; ev_unit := None; departing_unit := None;
     params := {[ "backup-id" := "" ]} |}.

(** A driver whose removals fail with a driver error. *)
Definition removal_fails_env : Env :=
  {| get_replset_members_fails := None;
     remove_replset_member_fails := fun _ => Some PyMongoError;
     add_replset_member_fails := fun _ => None;
     get_users_fails := None;
     database_users := ∅;
     direct_is_ready := all_ready;
     pbm_exec := fun _ _ => PbmStdout "";
     build_unit_status := fun _ _ => ActiveStatus "";
     process_pbm_status := fun _ => ActiveStatus "";
     process_pbm_error := fun s => s;
     current_pbm_op := fun s => s |}.

(** Juju secrets in use: nothing stored yet, and a secret of the
    application that holds a value under "k". *)
Definition no_secret_yet : Secrets.World :=
  {| Secrets.has_secrets := true;
     Secrets.peer_data := fun _ => ∅;
     Secrets.secrets := fun _ => None;
     Secrets.juju_secrets := ∅;
     Secrets.unused_ids := ["secret:1"] |}.

Definition secret_with_k : Secrets.World :=
  {| Secrets.has_secrets := true;
     Secrets.peer_data := fun _ => {[ Secrets.SECRET_INTERNAL_LABEL := "secret:1" ]};
     Secrets.secrets := fun _ => None;
     Secrets.juju_secrets := {[ "secret:1" := {[ "k" := "v" ]} ]};
     Secrets.unused_ids := [] |}.

(* ===================================================================== *)
(** * The rest of the charm *)
(* ===================================================================== *)

(** ** Unit names *)

(** The string has no slash. *)
Definition no_slash (s : string) : bool :=
  forallb (fun c => negb (Ascii.eqb c "/"%char)) (list_ascii_of_string s).

(** The name of unit [number] of application [app]. *)
Definition unit_named (app number : string) : Unit :=
  {| name := app +:+ "/" +:+ number |}.

(** The host name the charm gives to unit [number]. *)
Definition host_of (app number : string) : string :=
  app +:+ "-" +:+ number +:+ "." +:+ app +:+ "-endpoints".

(** ** Vocabulary for the reconciler *)

(** The calls that reach the replica-set driver. *)
Definition is_driver_call (c : Call) : bool :=
  match c with
  | GetReplsetMembers | RemoveReplsetMember _ | AddReplsetMember _
  | DirectIsReady _ | GetUsers => true
  | _ => false
  end.

(** What the reconciler never changes: everything but the unit's
    status and the live membership. *)
Definition keeps_model (w w' : World) : Prop :=
  app_name w' = app_name w /\
  self_unit w' = self_unit w /\
  is_leader w' = is_leader w /\
  peers w' = peers w /\
  s3_relation w' = s3_relation w /\
  backup_service w' = backup_service w /\
  pbm_runs w' = pbm_runs w.

(** In a trace, an addition directly follows the readiness check of the
    same host, which found it ready. *)
Definition additions_checked (E : Env) (t : list Call) : Prop :=
  (forall x, t !! 0 <> Some (AddReplsetMember x)) /\
  (forall i x,
      t !! (S i) = Some (AddReplsetMember x) ->
      t !! i = Some (DirectIsReady x) /\ direct_is_ready E x = true).


(** ** Vocabulary for the handlers of the backups *)

(** The calls that answer the event: [event.fail] and [event.defer]. *)
Definition is_event_call (c : Call) : bool :=
  match c with
  | Defer | EventFail _ => true
  | _ => false
  end.

(** How often a trace answers the event. *)
Definition event_answers (t : list Call) : nat :=
  length (List.filter is_event_call t).

(* ===================================================================== *)
(** * Configuring pbm ([mongodb_backups.py], [_on_s3_credential_changed]
      to [_get_pbm_configs]; [charm.py], [set_pbm_config_file]) *)
(* ===================================================================== *)

(** A Python [dict] with string keys and values, in insertion order. *)
Definition Dict : Type := list (string * string).

(** [d.get(k)] *)
Fixpoint dict_get (k : string) (d : Dict) : option string :=
  match d with
  | [] => None
  | (k', v) :: d' => if String.eqb k' k then Some v else dict_get k d'
  end.

(** [d[k] = v]: a key the dictionary has keeps its place, a new key goes
    to the end. *)
Fixpoint dict_set (k v : string) (d : Dict) : Dict :=
  match d with
  | [] => [(k, v)]
  | (k', v') :: d' => if String.eqb k' k then (k, v) :: d' else (k', v') :: dict_set k v d'
  end.

Definition S3_PBM_OPTION_MAP : Dict :=
  [("region", "storage.s3.region");
   ("bucket", "storage.s3.bucket");
   ("path", "storage.s3.prefix");
   ("access-key", "storage.s3.credentials.access-key-id");
   ("secret-key", "storage.s3.credentials.secret-access-key");
   ("endpoint", "storage.s3.endpointUrl");
   ("storage-class", "storage.s3.storageClass")].

Definition PBM_CONFIG_FILE_PATH : string := "/etc/pbm_config.yaml".

(** [_get_pbm_configs]: [credentials] is what
    [s3_client.get_s3_connection_info()] returns, visited in its order. *)
Definition _get_pbm_configs (credentials : Dict) : Dict :=
  fold_left
    (fun pbm_configs '(s3_option, s3_value) =>
       match dict_get s3_option S3_PBM_OPTION_MAP with
       | None => pbm_configs
       | Some pbm_key => dict_set pbm_key s3_value pbm_configs
       end)
    credentials [("storage.type", "s3")].

(** The options of the connection info that pbm knows, under pbm's
    names. *)
Definition known_options (credentials : Dict) : Dict :=
  omap (fun '(s3_option, s3_value) =>
          match dict_get s3_option S3_PBM_OPTION_MAP with
          | None => None
          | Some pbm_key => Some (pbm_key, s3_value)
          end) credentials.

Definition CONFIG_FILE_CMD : list string := ["config"; "--file"; PBM_CONFIG_FILE_PATH].

(** [["config", "--set", f"{pbm_key}={pbm_value}"]] *)
Definition config_cmd (option : string * string) : list string :=
  ["config"; "--set"; fst option +:+ "=" +:+ snd option].

(** The workload after [n] further runs of pbm. *)
Definition ran (n : nat) (w : World) : World :=
  Nat.iter n (fun w' => set_pbm_runs (S (pbm_runs w')) w') w.

(** The commands [_set_config_options] issues when none fails. *)
Definition config_cmds (pbm_configs : Dict) : list (list string) :=
  CONFIG_FILE_CMD :: map config_cmd pbm_configs.

(** [except (subprocess.CalledProcessError, ExecError)] *)
Definition is_process_error (e : Exn) : bool :=
  match e with
  | CalledProcessError _ | ExecError _ => true
  | _ => false
  end.

Section Configure.

Context (E : Env).

(** [set_pbm_config_file]: the push of the placeholder file into the
    container is not followed; the command that makes pbm read it is. *)
Definition set_pbm_config_file : M World unit :=
  try_except
    (run_pbm_command E CONFIG_FILE_CMD ;; ret tt)
    (fun e =>
       match e with
       | ExecError stdout =>
           Some (modify (set_unit_status (BlockedStatus (process_pbm_error E stdout))))
       | _ => None
       end).

(** The loop of [_set_config_options]: one command per option. *)
Fixpoint set_options (pbm_configs : Dict) : M World unit :=
  match pbm_configs with
  | [] => ret tt
  | option :: rest =>
      try_except
        (run_pbm_command E (config_cmd option) ;; ret tt)
        (fun e =>
           match e with
           | CalledProcessError _ | ExecError _ => Some (raise SetPBMConfigError)
           | _ => None
           end) ;;
      set_options rest
  end.

Definition _set_config_options (credentials : Dict) : M World unit :=
  set_pbm_config_file ;;
  set_options (_get_pbm_configs credentials).

(** [_configure_pbm_options].  The clause for [snap.SnapError] is left
    out: nothing this charm calls raises it.  The handlers return [false]
    where the source returns from the function, and [true] where it goes
    on to the last statement. *)
Definition _configure_pbm_options (event : Event) (credentials : Dict) : M World unit :=
  let* go_on :=
    try_except
      (_set_config_options credentials ;;
       _resync_config_options E ;;
       ret true)
      (fun e =>
         match e with
         | SetPBMConfigError =>
             Some (modify (set_unit_status
                             (BlockedStatus "couldn't configure s3 backup options.")) ;;
                   ret false)
         | ResyncError =>
             Some (modify (set_unit_status
                             (WaitingStatus "waiting to sync s3 configurations.")) ;;
                   call Defer ;;
                   ret false)
         | PBMBusyError =>
             Some (modify (set_unit_status
                             (WaitingStatus "waiting to sync s3 configurations.")) ;;
                   call Defer ;;
                   ret false)
         | ExecError stdout =>
             Some (modify (set_unit_status (BlockedStatus (process_pbm_error E stdout))) ;;
                   ret false)
         | CalledProcessError _ => Some (ret true)
         | _ => None
         end) in
  if negb go_on then ret tt
  else
    let* pbm_status := _get_pbm_status E in
    modify (set_unit_status pbm_status).

(** [_on_s3_credential_changed]: the deferral for a missing service is
    not followed by a [return]. *)
Definition _on_s3_credential_changed (event : Event) (credentials : Dict) : M World unit :=
  let* initialised := gets db_initialised in
  if negb initialised then call Defer
  else
    try_except get_backup_service
      (fun e => match e with ModelError => Some (call Defer) | _ => None end) ;;
    _configure_pbm_options event credentials.

End Configure.

(** ** Vocabulary for the wait after a resync *)

(** One attempt of the loop inside [_wait_pbm_status], as the function
    has it. *)
Definition wait_attempt (E : Env) : M World unit :=
  try_except
    (let* pbm_status := run_pbm_command E PBM_STATUS_CMD in
     if contains "Resync" (current_pbm_op E pbm_status) then
       modify (set_unit_status (WaitingStatus "waiting to sync s3 configurations.")) ;;
       raise ResyncError
     else ret tt)
    (fun e =>
       match e with
       | ExecError stdout =>
           Some (modify (set_unit_status (BlockedStatus (process_pbm_error E stdout))))
       | _ => None
       end).

(** pbm's run number [n], asked for its status, reports a resync. *)
Definition resyncing (E : Env) (n : nat) : bool :=
  match pbm_exec E n PBM_STATUS_CMD with
  | PbmStdout stdout => contains "Resync" (current_pbm_op E stdout)
  | PbmRaises _ => false
  end.

(** pbm's run number [n], asked for its status, answers without a
    resync or fails with an [ExecError]. *)
Definition settled (E : Env) (n : nat) : bool :=
  match pbm_exec E n PBM_STATUS_CMD with
  | PbmStdout stdout => negb (contains "Resync" (current_pbm_op E stdout))
  | PbmRaises (ExecError _) => true
  | PbmRaises _ => false
  end.

(** The workload and the unit after a poll that found a resync. *)
Definition resynced (w : World) : World :=
  set_unit_status (WaitingStatus "waiting to sync s3 configurations.") (ran 1 w).

(** [more + 1] polls of the status, five seconds apart. *)
Fixpoint polls (more : nat) : list Call :=
  match more with
  | 0 => [RunPbmCommand PBM_STATUS_CMD]
  | S more' => RunPbmCommand PBM_STATUS_CMD :: Sleep 5 :: polls more'
  end.

(** [more + 1] rounds of three polls, with nothing to wait for between
    the rounds. *)
Fixpoint exhausted_wait (more : nat) : list Call :=
  match more with
  | 0 => polls 2
  | S more' => polls 2 ++ Sleep 0 :: exhausted_wait more'
  end.

(** The calls of the pre-check loop that finds pbm busy [k] times and
    free on the next attempt. *)
Fixpoint free_trace (E : Env) (w : World) (k : nat) : list Call :=
  match k with
  | 0 => poll_calls (backup_service w)
  | S k' => busy_attempt_calls E w ++ Sleep 5 :: free_trace E (polled w) k'
  end.

(** What [_configure_pbm_options] tries, with [true] for having
    reached the end of it. *)
Definition configure_attempt (E : Env) (credentials : Dict) : M World bool :=
  _set_config_options E credentials ;;
  _resync_config_options E ;;
  ret true.

(* ===================================================================== *)
(** * Leaving the replica set ([charm.py], [_on_stop] and
      [is_unit_in_replica_set]) and the flags of the peer data *)
(* ===================================================================== *)




Section Stop.

Context (E : Env).




End Stop.

(** ** The flags in the application's peer data *)

(** [app_peer_data[key] = value]: without a peer relation the write
    goes to a dictionary that is thrown away. *)
Definition set_app_peer_data (key value : string) (w : World) : World :=
  match peers w with
  | None => w
  | Some r =>
      set_peers (Some {| units := units r; app_data := <[key := value]> (app_data r);
                         unit_data := unit_data r |}) w
  end.

(** [str(value)] for a [bool]. *)
Definition str_bool (value : bool) : string := if value then "True" else "False".

(** The setter of [db_initialised], for a [bool]; the [ValueError] for
    other values is not followed. *)
Definition set_db_initialised (value : bool) (w : World) : World :=
  set_app_peer_data "db_initialised" (str_bool value) w.

(** [_is_user_created] and [_set_user_created], by the user's name. *)
Definition _is_user_created (username : string) (w : World) : bool :=
  match peers w with
  | None => false
  | Some r => bool_decide (is_Some (app_data r !! (username +:+ "-user-created")))
  end.

Definition _set_user_created (username : string) (w : World) : World :=
  set_app_peer_data (username +:+ "-user-created") "True" w.



(* ===================================================================== *)
(** * Vocabulary for the secrets *)
(* ===================================================================== *)

(** What the next event finds: [__init__] sets up [self.secrets] with
    nothing cached for either scope; Juju and the peer data stay. *)
Definition new_event (w : Secrets.World) : Secrets.World :=
  {| Secrets.has_secrets := Secrets.has_secrets w;
     Secrets.peer_data := Secrets.peer_data w;
     Secrets.secrets := fun _ => None;
     Secrets.juju_secrets := Secrets.juju_secrets w;
     Secrets.unused_ids := Secrets.unused_ids w |}.

(** The cache of a scope agrees with Juju: the cached secret is the one
    that the scope's peer data names, and the cached content is the
    content Juju holds for it.  The ids Juju hands out are not empty. *)
Definition coherent (w : Secrets.World) (scope : Secrets.Scope) : Prop :=
  match Secrets.secrets w scope with
  | Some (id, content) =>
      Secrets.peer_data w scope !! Secrets.SECRET_INTERNAL_LABEL = Some id /\
      id <> "" /\
      Secrets.juju_secrets w !! id = Some content
  | None => True
  end /\
  Forall (fun id => id <> "") (Secrets.unused_ids w).

(** What an entry of a secret's content reads as: an absent entry, the
    empty string and the tombstone read as nothing. *)
Definition readable (v : option string) : option string :=
  if negb (falsy v) && negb (bool_decide (v = Some Secrets.SECRET_DELETED_LABEL))
  then v else None.

(** The calls that write to Juju's secret store. *)
Definition is_secret_write (c : Call) : bool :=
  match c with
  | AddSecret _ | SetContent _ _ => true
  | _ => false
  end.

(* ===================================================================== *)
(** * Comparing secret ids ([charm.py], [_compare_secret_ids]) *)
(* ===================================================================== *)

(** The length of the match of [r] that starts at position [pos], [s]
    being the subject from there on. *)
Definition match_length (r : Regex.re) (pos : nat) (s : list ascii) : option nat :=
  match Regex.rmatch (Regex.RGroup 0 r) pos s [] (fun _ _ c => Some c) with
  | Some c => length <$> Regex.caps_lookup 0 c
  | None => None
  end.

(** [pattern.sub("", subject)]: the matches, looked for from left to
    right, each after the end of the one before, are dropped.  [skip]
    counts the characters of the current match that are still to be
    dropped. *)
Fixpoint sub_empty_from (r : Regex.re) (skip pos : nat) (s : list ascii) : list ascii :=
  match s with
  | [] => []
  | x :: s' =>
      match skip with
      | S skip' => sub_empty_from r skip' (S pos) s'
      | 0 =>
          match match_length r pos s with
          | Some (S n) => sub_empty_from r n (S pos) s'
          | _ => x :: sub_empty_from r 0 (S pos) s'
          end
      end
  end.

Definition sub_empty (r : Regex.re) (subject : string) : string :=
  string_of_list_ascii (sub_empty_from r 0 0 (list_ascii_of_string subject)).

Definition SECRET_ID_PATTERN : string := ".*[^/][/:]".

(** The compiled pattern. *)
Definition SECRET_ID_RE : Regex.re :=
  Eval vm_compute in default Regex.REps (Regex.compile SECRET_ID_PATTERN).

(** [_compare_secret_ids]; an argument may be [None], as
    [peer_data.get] returns it for a missing label. *)
Definition _compare_secret_ids (secret_id1 secret_id2 : option string) : bool :=
  if falsy secret_id1 || falsy secret_id2 then false
  else
    let pure_id1 := sub_empty SECRET_ID_RE (default "" secret_id1) in
    let pure_id2 := sub_empty SECRET_ID_RE (default "" secret_id2) in
    if negb (bool_decide (pure_id1 = "")) && negb (bool_decide (pure_id2 = ""))
    then bool_decide (pure_id1 = pure_id2)
    else false.

(** A character that is none of the two separators and not a line
    feed. *)
Definition id_char (c : ascii) : bool :=
  negb (Ascii.eqb c "/") && negb (Ascii.eqb c ":") && negb (Ascii.eqb c Regex.newline).

(** The two forms of an id: [secret://<model uuid>/<id>] and
    [secret:<id>]. *)
Definition long_secret_id (uuid id : string) : string :=
  "secret://" +:+ uuid +:+ "/" +:+ id.

Definition short_secret_id (id : string) : string := "secret:" +:+ id.

Definition id_text (s : string) : bool := forallb id_char (list_ascii_of_string s).

(** What a greedy [.*] does on a run of characters it takes: what
    follows it is tried after the longest stretch first, then after the
    shorter ones. *)
Fixpoint try_splits (k : Regex.cont) (pos : nat) (s : list ascii) (c : Regex.caps)
    : option Regex.caps :=
  match s with
  | [] => k pos [] c
  | _ :: s' =>
      match try_splits k (S pos) s' c with
      | Some res => Some res
      | None => k pos s c
      end
  end.

(** The end of the pattern: a character other than a slash, then a
    slash or a colon. *)
Definition SECRET_ID_TAIL : Regex.re :=
  Regex.RCat (Regex.RSet true [Regex.CChar "/"])
    (Regex.RCat (Regex.RSet false [Regex.CChar "/"; Regex.CChar ":"]) Regex.REps).

Definition not_newline (c : ascii) : bool := negb (Ascii.eqb c Regex.newline).

(* ===================================================================== *)
(** * Generating the secrets ([charm.py], [_check_or_set_user_password]
      to [_generate_secrets]) *)
(* ===================================================================== *)

Section Generate.

Import Secrets.

(** [_check_or_set_user_password] and [_check_or_set_keyfile] with
    [_generate_keyfile]: the key is stored under the application's scope
    unless it reads as something; [generated] is what
    [generate_password()] or [generate_keyfile()] would return. *)
Definition _check_or_set (key generated : string) : M Secrets.World unit :=
  let* current := get_secret APP_SCOPE key in
  if falsy current then set_secret APP_SCOPE key (Some generated) ;; ret tt
  else ret tt.

(** [_generate_secrets].  The names of the two password keys come from
    the users library, which is not among the sources; the three
    generated values are random. *)
Definition _generate_secrets (operator_key monitor_key : string)
    (operator_password monitor_password keyfile : string) : M Secrets.World unit :=
  _check_or_set operator_key operator_password ;;
  _check_or_set monitor_key monitor_password ;;
  _check_or_set "keyfile" keyfile.

End Generate.

(** A key reads as the value. *)
Definition reads (key v : string) (w : Secrets.World) : Prop :=
  result (Secrets.get_secret Secrets.APP_SCOPE key w) = Ret (Some v).

(** A value that can be stored and read back under Juju secrets. *)
Definition storable (v : string) : Prop := v <> "" /\ v <> Secrets.SECRET_DELETED_LABEL.

(* ===================================================================== *)
(** * Further sample deployments *)
(* ===================================================================== *)

(** The deployment of [sample_world] seen from a unit that does not
    lead. *)
Definition follower_world : World :=
  {| app_name := "mongodb"; self_unit := unit_0; is_leader := false;
     peers := Some {| units := [unit_2];
                      app_data := {[ "db_initialised" := "True" ]};
                      unit_data := ∅ |};
     s3_relation := false; unit_status := WaitingStatus "";
     replset := {[host_A; host_B]}; backup_service := true; pbm_runs := 0 |}.


Definition nothing_ready (h : string) : bool := false.

(** Connection info of the storage, with one option pbm has no use
    for. *)
Definition sample_credentials : Dict :=
  [("bucket", "backups"); ("endpoint", "https://s3.example"); ("tls-ca-chain", "x")].

(** The change of the storage relation that the credentials-changed
    event of the s3 library stands for. *)
Definition credentials_changed : Event :=
  {| ev_type := RelationChangedEvent; ev_unit := None; departing_unit := None;
     params := ∅ |}.

(** A backup tool that refuses its third command. *)
Definition rejecting_env : Env :=
  {| get_replset_members_fails := None;
     remove_replset_member_fails := fun _ => None;
     add_replset_member_fails := fun _ => None;
     get_users_fails := None;
     database_users := ∅;
     direct_is_ready := all_ready;
     pbm_exec := fun n _ => if Nat.eqb n 2 then PbmRaises (ExecError "denied")
                            else PbmStdout "";
     build_unit_status := fun _ _ => ActiveStatus "";
     process_pbm_status := fun _ => ActiveStatus "";
     process_pbm_error := fun s => s;
     current_pbm_op := fun s => s |}.

Definition sample_uuid : string := "9663a790-7828-4186-8b21-2624c58b6cfe".
Definition sample_secret_id : string := "citb87nubg2s766pab40".

(* ===================================================================== *)
(** * Properties of the remapping pattern *)
(* ===================================================================== *)

Lemma compile_REMAPPING_PATTERN : Regex.compile REMAPPING_PATTERN = Some REMAPPING_RE.
Proof. vm_compute. reflexivity. Qed.

(** The compiled pattern, piece by piece. *)
Lemma REMAPPING_RE_shape :
  REMAPPING_RE =
  Regex.RCat Regex.RBegin
    (lit_chain (list_ascii_of_string topology_prefix)
       (Regex.RCat
          (Regex.RGroup 1
             (Regex.RCat (Regex.RPlus (Regex.RSet true [Regex.CChar ","%char; Regex.CSpace]))
                Regex.REps))
          (Regex.RCat
             (Regex.ROpt
                (Regex.RGroup 2
                   (Regex.RCat (Regex.RSet false [Regex.CChar "."%char])
                      (lit_chain (list_ascii_of_string " Backup has no data for the config server or sole replicaset")
                         Regex.REps))))
             (Regex.RCat Regex.REnd Regex.REps)))).
Proof. vm_compute. reflexivity. Qed.

Lemma ascii_eqb_refl (c : ascii) : Ascii.eqb c c = true.
Proof. apply Ascii.eqb_eq. reflexivity. Qed.

(** Literal text matches itself and hands over to what follows. *)
Lemma rmatch_lit_chain (l : list ascii) (r : Regex.re) :
  forall pos s c k,
    Regex.rmatch (lit_chain l r) pos (l ++ s) c k = Regex.rmatch r (pos + length l) s c k.
Proof.
  induction l as [|x l IH]; intros pos s c k.
  - simpl. rewrite Nat.add_0_r. reflexivity.
  - simpl lit_chain. destruct (Ascii.eqb x "."%char) eqn:Hx.
    + apply Ascii.eqb_eq in Hx. subst x. simpl.
      rewrite IH. f_equal. lia.
    + simpl. rewrite ascii_eqb_refl, IH. f_equal. lia.
Qed.

(** A greedy repetition of a one-character body runs to the end of a
    subject made of characters the body takes, when what follows matches
    there. *)
Lemma star_loop_all (step : nat -> list ascii -> Regex.caps -> Regex.cont -> option Regex.caps)
    (P : ascii -> bool) (k : Regex.cont) :
  (forall pos x s c K, P x = true -> step pos (x :: s) c K = K (S pos) s c) ->
  forall s pos c res,
    forallb P s = true ->
    k (pos + length s) [] c = Some res ->
    Regex.star_loop step k (length s) pos s c = Some res.
Proof.
  intros Hstep. induction s as [|x s IH]; intros pos c res Hall Hk.
  - simpl in *. rewrite Nat.add_0_r in Hk. exact Hk.
  - simpl in Hall. apply andb_true_iff in Hall as [Hx Hall].
    cbn [Regex.star_loop length]. rewrite (Hstep _ _ _ _ _ Hx).
    replace (Nat.eqb (S pos) pos) with false
      by (symmetry; apply Nat.eqb_neq; lia).
    rewrite (IH (S pos) c res Hall).
    + reflexivity.
    + rewrite <- Hk. f_equal. simpl. lia.
Qed.

(** After the diagnostic's fixed text, a non-empty run of characters
    other than commas and white space is matched to the end of the
    subject and is the first group, whatever it ends in. *)
Lemma remapping_captures_tail (nm : list ascii) :
  nm <> [] ->
  forallb name_char nm = true ->
  Regex.rmatch REMAPPING_RE 0 (list_ascii_of_string topology_prefix ++ nm) []
    (fun _ _ c => Some c) = Some [(1, nm)].
Proof.
  intros Hne Hall. rewrite REMAPPING_RE_shape.
  cbn [Regex.rmatch Nat.eqb]. rewrite rmatch_lit_chain.
  destruct nm as [|x nm]; [congruence|].
  simpl in Hall. apply andb_true_iff in Hall as [Hx Hall].
  set (p := 0 + length (list_ascii_of_string topology_prefix)).
  cbn [Regex.rmatch]. fold (name_char x). rewrite Hx.
  apply (star_loop_all _ name_char); [| exact Hall |].
  - intros pos y s c K Hy. fold (name_char y). rewrite Hy. reflexivity.
  - replace (S p + length nm - p) with (S (length nm)) by lia.
    simpl firstn. rewrite firstn_all. reflexivity.
Qed.

Lemma list_ascii_of_string_app (a b : string) :
  list_ascii_of_string (a +:+ b) = list_ascii_of_string a ++ list_ascii_of_string b.
Proof. induction a as [|c a IH]; simpl; [reflexivity | rewrite IH; reflexivity]. Qed.

(** The same on strings: whatever follows the fixed text, if it is a
    single run of such characters, is the extracted name. *)
Lemma remapping_group1_tail (names : string) :
  names <> "" ->
  forallb name_char (list_ascii_of_string names) = true ->
  Regex.group 1 (Regex.re_match REMAPPING_RE (mismatch_text names)) = Some names.
Proof.
  intros Hne Hall. unfold Regex.re_match, mismatch_text.
  rewrite list_ascii_of_string_app, remapping_captures_tail; [| | exact Hall].
  - simpl. rewrite string_of_list_ascii_of_string. reflexivity.
  - destruct names; [congruence | discriminate].
Qed.

(** C9, as the code has it.  The diagnostic of the documented full form,
    which ends in "are: rs1.", matches the remapping pattern, and the
    first group is "rs1." with the full stop: the set [[^,\s]] admits a
    full stop and the greedy repetition runs to the end of the text,
    where the optional second group is skipped and [\Z] holds.  The
    first group is exactly "rs1" when the text ends in "are: rs1", and
    when "rs1" is followed by ". Backup has no data for the config
    server or sole replicaset". *)
Theorem remapping_extraction_full_form :
  Regex.compile REMAPPING_PATTERN = Some REMAPPING_RE /\
  documented_text = mismatch_text "rs1." /\
  Regex.group 1 (Regex.re_match REMAPPING_RE documented_text) = Some "rs1." /\
  Regex.group 2 (Regex.re_match REMAPPING_RE documented_text) = None /\
  Regex.group 1 (Regex.re_match REMAPPING_RE (mismatch_text "rs1")) = Some "rs1" /\
  Regex.group 1 (Regex.re_match REMAPPING_RE (mismatch_text ("rs1" +:+ no_data_suffix)))
    = Some "rs1".
Proof.
  split; [exact compile_REMAPPING_PATTERN|].
  split; [reflexivity|].
  split; [change documented_text with (mismatch_text "rs1.");
          apply remapping_group1_tail; [discriminate | reflexivity]|].
  split; [vm_compute; reflexivity|].
  split; [apply remapping_group1_tail; [discriminate | reflexivity]|].
  vm_compute. reflexivity.
Qed.

(** C9 as stated fails: on the documented full form the extracted name
    is not "rs1". *)
Lemma remapping_extraction_is_not_rs1 :
  Regex.group 1 (Regex.re_match REMAPPING_RE documented_text) <> Some "rs1".
Proof. vm_compute. discriminate. Qed.

(* ===================================================================== *)
(** * Running computations *)
(* ===================================================================== *)

Section Running.

Context {S : Type}.

Lemma run_ret {A} (a : A) (w : S) : ret a w = (Ret a, w, []).
Proof. reflexivity. Qed.

Lemma run_raise {A} (e : Exn) (w : S) : @raise S A e w = (Raise e, w, []).
Proof. reflexivity. Qed.

Lemma run_call (c : Call) (w : S) : call c w = (Ret tt, w, [c]).
Proof. reflexivity. Qed.

Lemma run_modify (g : S -> S) (w : S) : modify g w = (Ret tt, g w, []).
Proof. reflexivity. Qed.

Lemma run_bind_ret {A B} (a : A) (f : A -> M S B) (w : S) : bind (ret a) f w = f a w.
Proof. unfold bind, ret. destruct (f a w) as [[r w2] t2]. reflexivity. Qed.

Lemma run_bind_raise {A B} (e : Exn) (f : A -> M S B) (w : S) :
  bind (raise e) f w = (Raise e, w, []).
Proof. reflexivity. Qed.

Lemma run_bind_gets {A B} (g : S -> A) (f : A -> M S B) (w : S) :
  bind (gets g) f w = f (g w) w.
Proof. unfold bind, gets. destruct (f (g w) w) as [[r w2] t2]. reflexivity. Qed.

Lemma run_bind_get {B} (f : S -> M S B) (w : S) : bind get f w = f w w.
Proof. unfold bind, get. destruct (f w w) as [[r w2] t2]. reflexivity. Qed.

Lemma run_bind_modify {B} (g : S -> S) (f : unit -> M S B) (w : S) :
  bind (modify g) f w = f tt (g w).
Proof. unfold bind, modify. destruct (f tt (g w)) as [[r w2] t2]. reflexivity. Qed.

Lemma run_bind_call {B} (c : Call) (f : unit -> M S B) (w : S) :
  bind (call c) f w = (result (f tt w), final (f tt w), c :: calls (f tt w)).
Proof. unfold bind, call. destruct (f tt w) as [[r w2] t2]. reflexivity. Qed.

Lemma run_bind_from_option {A B} (e : Exn) (o : option A) (f : A -> M S B) (w : S) :
  bind (from_option e o) f w =
  match o with Some a => f a w | None => (Raise e, w, []) end.
Proof. destruct o; [apply run_bind_ret | reflexivity]. Qed.

Lemma run_bind_assoc {A B C} (m : M S A) (f : A -> M S B) (g : B -> M S C) (w : S) :
  bind (bind m f) g w = bind m (fun a => bind (f a) g) w.
Proof.
  unfold bind. destruct (m w) as [[[a|e] w1] t1]; [|reflexivity].
  destruct (f a w1) as [[[b|e] w2] t2]; [|reflexivity].
  destruct (g b w2) as [[r w3] t3]. rewrite app_assoc. reflexivity.
Qed.

(** The outcome of a sequence, from the outcomes of its parts. *)
Lemma calls_bind {A B} (m : M S A) (f : A -> M S B) (w : S) :
  calls (bind m f w) =
  calls (m w) ++
  match result (m w) with
  | Ret a => calls (f a (final (m w)))
  | Raise _ => []
  end.
Proof.
  unfold bind, calls, result, final. destruct (m w) as [[[a|e] w1] t1]; simpl.
  - destruct (f a w1) as [[r w2] t2]. reflexivity.
  - rewrite app_nil_r. reflexivity.
Qed.

Lemma result_bind {A B} (m : M S A) (f : A -> M S B) (w : S) :
  result (bind m f w) =
  match result (m w) with
  | Ret a => result (f a (final (m w)))
  | Raise e => Raise e
  end.
Proof.
  unfold bind, calls, result, final. destruct (m w) as [[[a|e] w1] t1]; simpl.
  - destruct (f a w1) as [[r w2] t2]. reflexivity.
  - reflexivity.
Qed.

Lemma final_bind {A B} (m : M S A) (f : A -> M S B) (w : S) :
  final (bind m f w) =
  match result (m w) with
  | Ret a => final (f a (final (m w)))
  | Raise e => final (m w)
  end.
Proof.
  unfold bind, calls, result, final. destruct (m w) as [[[a|e] w1] t1]; simpl.
  - destruct (f a w1) as [[r w2] t2]. reflexivity.
  - reflexivity.
Qed.

Lemma run_try_except {A} (m : M S A) (h : Exn -> option (M S A)) (w : S) :
  try_except m h w =
  match result (m w) with
  | Ret _ => m w
  | Raise e =>
      match h e with
      | Some k =>
          (result (k (final (m w))), final (k (final (m w))),
           calls (m w) ++ calls (k (final (m w))))
      | None => m w
      end
  end.
Proof.
  unfold try_except, result, final, calls. destruct (m w) as [[[a|e] w1] t1]; simpl; auto.
  destruct (h e) as [k|]; [|reflexivity]. destruct (k w1) as [[r w2] t2]. reflexivity.
Qed.

Lemma run_bind_eq {A B} (m : M S A) (f : A -> M S B) (w w1 : S) (a : A) (t1 : list Call) :
  m w = (Ret a, w1, t1) ->
  bind m f w = (result (f a w1), final (f a w1), t1 ++ calls (f a w1)).
Proof. intros H. unfold bind. rewrite H. destruct (f a w1) as [[r w2] t2]. reflexivity. Qed.

Lemma outcome_eta {A} (o : Res A * S * list Call) : o = (result o, final o, calls o).
Proof. destruct o as [[r w] t]. reflexivity. Qed.

End Running.

Create Rewrite HintDb run.

#[local] Hint Rewrite @run_ret @run_raise @run_call @run_modify @run_bind_ret @run_bind_raise @run_bind_gets @run_bind_get
  @run_bind_modify @run_bind_call @run_bind_from_option @run_bind_assoc : run.

Ltac run := repeat (autorewrite with run; cbn [result final calls fst snd negb]).

(* ===================================================================== *)
(** * Traces *)
(* ===================================================================== *)

Lemma no_remove_app (t1 t2 : list Call) :
  no_remove (t1 ++ t2) = no_remove t1 && no_remove t2.
Proof. apply forallb_app. Qed.

Lemma no_add_app (t1 t2 : list Call) : no_add (t1 ++ t2) = no_add t1 && no_add t2.
Proof. apply forallb_app. Qed.

Lemma removals_first_no_remove (t : list Call) : no_remove t = true -> removals_first t = true.
Proof.
  induction t as [|c t IH]; [reflexivity|]. simpl. intros H.
  apply andb_true_iff in H as [_ H]. destruct (is_add c); auto.
Qed.

Lemma removals_first_app (t1 t2 : list Call) :
  no_add t1 = true -> removals_first (t1 ++ t2) = removals_first t2.
Proof.
  induction t1 as [|c t1 IH]; [reflexivity|]. simpl. intros H.
  apply andb_true_iff in H as [Hc H]. destruct (is_add c); [discriminate|auto].
Qed.

Lemma no_remove_lookup (t : list Call) (i : nat) (h : string) :
  no_remove t = true -> t !! i = Some (RemoveReplsetMember h) -> False.
Proof.
  revert i. induction t as [|c t IH]; intros i Hn Hi; [destruct i; discriminate|].
  simpl in Hn. apply andb_true_iff in Hn as [Hc Hn].
  destruct i as [|i]; simpl in Hi.
  - injection Hi as ->. discriminate.
  - eauto.
Qed.

(** The check on the trace is the property by positions. *)
Lemma removals_first_sound (t : list Call) :
  removals_first t = true -> removals_before_additions t.
Proof.
  induction t as [|c t IH]; intros H i j h h' Hi Hj; [destruct i; discriminate|].
  simpl in H. destruct i as [|i], j as [|j]; simpl in Hi, Hj.
  - congruence.
  - lia.
  - injection Hj as ->. simpl in H. exfalso. eapply no_remove_lookup; eauto.
  - destruct (is_add c).
    + exfalso. eapply no_remove_lookup; eauto.
    + specialize (IH H i j h h' Hi Hj). lia.
Qed.

(* ===================================================================== *)
(** * The reconciler *)
(* ===================================================================== *)

Lemma frame_refl (w : World) : frame w w.
Proof. repeat split. Qed.

Lemma frame_trans (w1 w2 w3 : World) : frame w1 w2 -> frame w2 w3 -> frame w1 w3.
Proof.
  unfold frame. intros H1 H2.
  destruct H1 as (?&?&?&?&?&?&?&?), H2 as (?&?&?&?&?&?&?&?).
  repeat split; congruence.
Qed.

Lemma frame_set_replset (m : gset string) (w : World) : frame w (set_replset m w).
Proof. repeat split. Qed.

Lemma frame_set_unit_status (st : StatusBase) (w : World) : frame w (set_unit_status st w).
Proof. repeat split. Qed.

Lemma frame_mark_unit_departed (w : World) : frame w (mark_unit_departed w).
Proof.
  unfold mark_unit_departed.
  destruct (peers w) as [r|] eqn:Hp; [|apply frame_refl].
  destruct (unit_data r !! "unit_departed"); [apply frame_refl|].
  unfold frame, mongodb_config_hosts, _unit_hosts, db_initialised. simpl.
  rewrite Hp. repeat split.
Qed.


Section Reconciler.

Context (E : Env).

(** *** Removing *)

Lemma remove_units_calls (event : Event) (l : list string) :
  forall w,
    exists k,
      calls (_remove_units_from_replica_set E event l w)
      = map RemoveReplsetMember (take k l).
Proof.
  induction l as [|h l IH]; intros w.
  - exists 0. reflexivity.
  - simpl. unfold remove_replset_member. run.
    destruct (remove_replset_member_fails E h) as [e|].
    + exists 1. run. reflexivity.
    + run. destruct (IH (set_replset (replset w ∖ {[h]}) w)) as [k Hk].
      exists (Datatypes.S k). simpl. rewrite Hk. reflexivity.
Qed.

Lemma remove_units_no_add (event : Event) (l : list string) (w : World) :
  no_add (calls (_remove_units_from_replica_set E event l w)) = true.
Proof.
  destruct (remove_units_calls event l w) as [k ->].
  induction (take k l); simpl; auto.
Qed.

Lemma remove_units_frame (event : Event) (l : list string) :
  forall w,
    let o := _remove_units_from_replica_set E event l w in
    frame w (final o) /\ unit_status (final o) = unit_status w.
Proof.
  induction l as [|h l IH]; intros w; simpl.
  - split; [apply frame_refl | reflexivity].
  - unfold remove_replset_member. run.
    destruct (remove_replset_member_fails E h) as [e|]; run.
    + split; [apply frame_refl | reflexivity].
    + destruct (IH (set_replset (replset w ∖ {[h]}) w)) as [Hf Hs].
      split; [|exact Hs].
      eapply frame_trans; [apply frame_set_replset | exact Hf].
Qed.


(** *** Adding *)

Lemma hosts_set_replset (m : gset string) (w : World) :
  mongodb_config_hosts (set_replset m w) = mongodb_config_hosts w.
Proof. reflexivity. Qed.

(** Every call of the addition loop is a readiness check of a host it
    was given, the addition of such a host that was found ready, or the
    deferral. *)
Lemma add_units_calls (event : Event) (l : list string) :
  forall w c,
    In c (calls (_add_units_from_replica_set E event l w)) ->
    (exists h, In h l /\ c = DirectIsReady h) \/
    (exists h, In h l /\ direct_is_ready E h = true /\ c = AddReplsetMember h) \/
    c = Defer.
Proof.
  induction l as [|h l IH]; intros w c; simpl; [tauto|].
  unfold is_ready, add_replset_member. run.
  destruct (mongodb_config_hosts w) as [hs|]; run; [|simpl; tauto].
  destruct (direct_is_ready E h) eqn:Hready; run; simpl.
  - destruct (add_replset_member_fails E h) as [e|]; run; simpl.
    + intros [<- | [<- | []]]; [left | right; left]; eauto 6.
    + intros [<- | [<- | Hin]]; [left; eauto | right; left; eauto 6 |].
      destruct (IH _ _ Hin) as [(x & ? & ?) | [(x & ? & ? & ?) | ?]];
        [left | right; left | right; right]; eauto 6.
  - intros [<- | [<- | []]]; [left; eauto | right; right; reflexivity].
Qed.

Lemma add_units_no_remove (event : Event) (l : list string) (w : World) :
  no_remove (calls (_add_units_from_replica_set E event l w)) = true.
Proof.
  apply forallb_forall. intros c Hc.
  destruct (add_units_calls event l w c Hc) as [(x & ? & ->) | [(x & ? & ? & ->) | ->]];
    reflexivity.
Qed.

Lemma add_units_frame (event : Event) (l : list string) :
  forall w,
    let o := _add_units_from_replica_set E event l w in
    frame w (final o) /\ unit_status (final o) = unit_status w.
Proof.
  induction l as [|h l IH]; intros w; simpl.
  - split; [apply frame_refl | reflexivity].
  - unfold is_ready, add_replset_member. run.
    destruct (mongodb_config_hosts w) as [hs|]; run;
      [|split; [apply frame_refl | reflexivity]].
    destruct (direct_is_ready E h); run; [|split; [apply frame_refl | reflexivity]].
    destruct (add_replset_member_fails E h) as [e|]; run.
    + split; [apply frame_refl | reflexivity].
    + destruct (IH (set_replset (replset w ∪ {[h]}) w)) as [Hf Hs].
      split; [|exact Hs].
      eapply frame_trans; [apply frame_set_replset | exact Hf].
Qed.


(** *** One pass *)

(** What the exception clauses add to the body's outcome. *)
Lemma reconfigure_outcome (event : Event) (w : World) :
  let b := reconfigure_body E event w in
  let o := reconfigure E event w in
  final o = final b /\
  (exists tl, calls o = calls b ++ tl /\ (tl = [] \/ tl = [Defer])) /\
  (retryable_result (result b) -> result o = Ret tt).
Proof.
  intros b o. subst o. unfold reconfigure. rewrite run_try_except. fold b.
  destruct (result b) as [[]|e] eqn:Hr.
  - split; [reflexivity|]. split; [exists []; rewrite app_nil_r; auto|].
    intros _. exact Hr.
  - destruct e; simpl;
      (split; [reflexivity|]);
      first [ split; [exists [Defer]; auto | reflexivity]
            | split; [exists []; rewrite app_nil_r; auto | intros [?|?]; discriminate] ].
Qed.

Lemma set_leader_active_calls (w : World) :
  calls (_set_leader_unit_active_if_needed w) = [].
Proof.
  unfold _set_leader_unit_active_if_needed. run.
  destruct (_ && _); reflexivity.
Qed.

Lemma get_users_no_remove (w : World) :
  no_remove (calls ((let* users := get_users E in call (UpdateAppRelationData users)) w)) = true.
Proof.
  unfold get_users. run. destruct (get_users_fails E); run; reflexivity.
Qed.

(** From the addition loop on, nothing is removed. *)
Lemma add_phase_no_remove (event : Event) (l : list string) (w : World) :
  no_remove
    (calls ((_add_units_from_replica_set E event l ;;
             let* users := get_users E in call (UpdateAppRelationData users)) w)) = true.
Proof.
  rewrite calls_bind, no_remove_app, add_units_no_remove. simpl.
  destruct (result _); [apply get_users_no_remove | reflexivity].
Qed.

Lemma body_removals_first (event : Event) (w : World) :
  removals_first (calls (reconfigure_body E event w)) = true.
Proof.
  unfold reconfigure_body, get_replset_members. run.
  destruct (get_replset_members_fails E) as [e|]; run; [reflexivity|].
  destruct (mongodb_config_hosts w) as [hosts|]; run; [|reflexivity].
  cbn [removals_first is_add].
  destruct (bool_decide (replset w = hosts)).
  { rewrite set_leader_active_calls. reflexivity. }
  rewrite calls_bind, removals_first_app by apply remove_units_no_add.
  destruct (result _); [|reflexivity].
  apply removals_first_no_remove.
  destruct (is_departed event), (ev_unit event) as [u|]; run;
    try apply add_phase_no_remove.
  destruct (get_hostname_for_unit (app_name w) u); run;
    [apply add_phase_no_remove | reflexivity].
Qed.

Lemma handler_unfold (event : Event) :
  _relation_changes_handler E event =
  (call ConnectMongodbExporter ;;
   call ConnectPbmAgent ;;
   (if is_departed event then
      let* d := from_option AttributeError (departing_unit event) in
      let* w := get in
      if bool_decide (name d = name (self_unit w)) then modify mark_unit_departed else ret tt
    else ret tt) ;;
   leader_pass E event).
Proof. reflexivity. Qed.

Lemma leader_pass_cases (event : Event) (w : World) :
  let o := leader_pass E event w in
  (is_leader w = true /\ db_initialised w = true /\ mongodb_config_hosts w <> None /\
   o = (result (reconfigure E event w), final (reconfigure E event w),
        GenerateSecrets :: calls (reconfigure E event w)))
  \/
  ((calls o = [] \/ calls o = [GenerateSecrets]) /\
   final o = w /\
   (result o = Ret tt \/ mongodb_config_hosts w = None)).
Proof.
  unfold leader_pass. run.
  destruct (is_leader w); run; [|right; auto].
  destruct (db_initialised w); run; [|right; auto].
  destruct (mongodb_config_hosts w) as [hs|] eqn:Hhs; run.
  - left. repeat split; auto.
  - right. auto.
Qed.

(** A pass either stops before it talks to the replica set, or runs
    [reconfigure] after a fixed prelude. *)
Lemma handler_cases (event : Event) (w : World) :
  let o := _relation_changes_handler E event w in
  (exists w1,
      (w1 = w \/ w1 = mark_unit_departed w) /\
      is_leader w = true /\ db_initialised w = true /\
      mongodb_config_hosts w <> None /\
      o = (result (reconfigure E event w1), final (reconfigure E event w1),
           handler_prelude ++ calls (reconfigure E event w1)))
  \/
  ((calls o = [ConnectMongodbExporter; ConnectPbmAgent] \/ calls o = handler_prelude) /\
   (final o = w \/ final o = mark_unit_departed w) /\
   (result o = Ret tt \/
    (is_departed event = true /\ departing_unit event = None) \/
    mongodb_config_hosts w = None)).
Proof.
  assert (Hm : frame w (mark_unit_departed w)) by apply frame_mark_unit_departed.
  destruct Hm as (_ & _ & Hl & _ & _ & _ & Hh & Hi).
  assert (Hrest : forall w1, w1 = w \/ w1 = mark_unit_departed w ->
    let o := (result (leader_pass E event w1), final (leader_pass E event w1),
              ConnectMongodbExporter :: ConnectPbmAgent :: calls (leader_pass E event w1)) in
    (exists w1',
      (w1' = w \/ w1' = mark_unit_departed w) /\
      is_leader w = true /\ db_initialised w = true /\
      mongodb_config_hosts w <> None /\
      o = (result (reconfigure E event w1'), final (reconfigure E event w1'),
           handler_prelude ++ calls (reconfigure E event w1')))
    \/
    ((calls o = [ConnectMongodbExporter; ConnectPbmAgent] \/ calls o = handler_prelude) /\
     (final o = w \/ final o = mark_unit_departed w) /\
     (result o = Ret tt \/
      (is_departed event = true /\ departing_unit event = None) \/
      mongodb_config_hosts w = None))).
  { intros w1 Hw1.
    assert (Hl1 : is_leader w1 = is_leader w) by (destruct Hw1; subst; auto).
    assert (Hh1 : mongodb_config_hosts w1 = mongodb_config_hosts w)
      by (destruct Hw1; subst; auto).
    assert (Hi1 : db_initialised w1 = db_initialised w) by (destruct Hw1; subst; auto).
    destruct (leader_pass_cases event w1) as [(H1 & H2 & H3 & ->) | (Hc & -> & Hr)]; simpl.
    - left. exists w1. repeat split; auto; congruence.
    - right. repeat split; auto.
      + destruct Hc as [-> | ->]; auto.
      + destruct Hr as [-> | Hr]; auto. right. right. congruence. }
  rewrite handler_unfold.
  rewrite run_bind_call, run_bind_call.
  destruct (is_departed event) eqn:Hdep.
  - rewrite run_bind_assoc, run_bind_from_option.
    destruct (departing_unit event) as [d|].
    + rewrite run_bind_assoc, run_bind_get.
      destruct (bool_decide (name d = name (self_unit w))).
      * rewrite run_bind_modify. cbn [result final calls fst snd].
        apply (Hrest (mark_unit_departed w)). auto.
      * rewrite run_bind_ret. cbn [result final calls fst snd].
        apply (Hrest w). auto.
    + right. cbn. repeat split; auto.
  - rewrite run_bind_ret. cbn [result final calls fst snd].
    apply (Hrest w). auto.
Qed.

(** *** Removal before addition *)

Lemma handler_removals_first (event : Event) (w : World) :
  removals_first (calls (_relation_changes_handler E event w)) = true.
Proof.
  destruct (handler_cases event w) as [(w1 & _ & _ & _ & _ & ->) | ([-> | ->] & _)];
    [|reflexivity..].
  cbn [calls snd]. rewrite removals_first_app by reflexivity.
  destruct (reconfigure_outcome event w1) as (_ & (tl & -> & Htl) & _).
  generalize (body_removals_first event w1).
  generalize (calls (reconfigure_body E event w1)). intros t Ht.
  destruct Htl as [-> | ->]; [rewrite app_nil_r; exact Ht|].
  induction t as [|c t IH]; [reflexivity|]. simpl in *.
  destruct (is_add c); [|auto].
  rewrite no_remove_app, Ht. reflexivity.
Qed.

Lemma elements_pair_difference (A B C : string) :
  A <> B -> B <> C ->
  elements (({[A; B]} : gset string) ∖ {[A; C]}) = [B].
Proof.
  intros HAB HBC.
  replace (({[A; B]} : gset string) ∖ {[A; C]}) with ({[B]} : gset string)
    by (apply set_eq; set_solver).
  apply elements_singleton.
Qed.

Lemma pair_neq (A B C : string) :
  A <> B -> B <> C -> bool_decide (({[A; B]} : gset string) = {[A; C]}) = false.
Proof.
  intros HAB HBC. apply bool_decide_eq_false. intros Heq.
  assert (HB : B ∈ ({[A; C]} : gset string)) by (rewrite <- Heq; set_solver).
  set_solver.
Qed.

(** The pass for desired = {A, C} and live = {A, B}. *)
Lemma pass_A_C_over_A_B (event : Event) (w : World) (A B C : string) :
  is_departed event = false ->
  is_leader w = true ->
  db_initialised w = true ->
  mongodb_config_hosts w = Some {[A; C]} ->
  replset w = {[A; B]} ->
  A <> B -> A <> C -> B <> C ->
  get_replset_members_fails E = None ->
  remove_replset_member_fails E B = None ->
  direct_is_ready E C = true ->
  add_replset_member_fails E C = None ->
  membership_calls (calls (_relation_changes_handler E event w))
  = [RemoveReplsetMember B; AddReplsetMember C].
Proof.
  intros Hdep Hl Hi Hh Hr HAB HAC HBC Hget Hrem Hready Hadd.
  pose proof (elements_pair_difference A B C HAB HBC) as Hrm.
  pose proof (elements_pair_difference A C B HAC (not_eq_sym HBC)) as Had.
  pose proof (pair_neq A B C HAB HBC) as Hne.
  rewrite handler_unfold. run. rewrite Hdep. run.
  unfold leader_pass. run. rewrite Hl. run. rewrite Hi. run. rewrite Hh. run.
  unfold reconfigure. rewrite run_try_except.
  unfold reconfigure_body, get_replset_members. run. rewrite Hget. run.
  rewrite Hh. run. rewrite Hr, Hne, Hrm, Hdep. simpl _remove_units_from_replica_set.
  unfold remove_replset_member. run. rewrite Hrem. run.
  rewrite Had. simpl _add_units_from_replica_set.
  unfold is_ready, add_replset_member. run.
  rewrite hosts_set_replset, Hh. run. rewrite Hready. run. rewrite Hadd. run.
  unfold get_users. run. destruct (get_users_fails E) as [[]|]; reflexivity.
Qed.

(** C1.  In every reconciliation pass every [RemoveMember] call is issued
    before any [AddMember] call: a removal stands at an earlier position
    of the pass's trace than an addition.  In particular, for desired =
    {A, C} and live = {A, B}, on the leader of an initialised replica
    set, with C ready and the driver answering, the membership calls of
    the pass are [RemoveMember(B)] and then [AddMember(C)]. *)
Theorem removal_before_addition (event : Event) (w : World) :
  removals_before_additions (calls (_relation_changes_handler E event w)) /\
  (forall A B C : string,
      is_departed event = false ->
      is_leader w = true ->
      db_initialised w = true ->
      mongodb_config_hosts w = Some {[A; C]} ->
      replset w = {[A; B]} ->
      A <> B -> A <> C -> B <> C ->
      get_replset_members_fails E = None ->
      remove_replset_member_fails E B = None ->
      direct_is_ready E C = true ->
      add_replset_member_fails E C = None ->
      membership_calls (calls (_relation_changes_handler E event w))
      = [RemoveReplsetMember B; AddReplsetMember C]).
Proof.
  split.
  - apply removals_first_sound, handler_removals_first.
  - intros A B C. apply pass_A_C_over_A_B.
Qed.

(** *** The departing unit *)

Lemma In_map_remove_add (h : string) (l : list string) :
  ~ In (AddReplsetMember h) (map RemoveReplsetMember l).
Proof. induction l; simpl; [tauto | intros [?|?]; [discriminate | auto]]. Qed.

Lemma remove_units_not_add (event : Event) (l : list string) (w : World) (h : string) :
  ~ In (AddReplsetMember h) (calls (_remove_units_from_replica_set E event l w)).
Proof. destruct (remove_units_calls event l w) as [k ->]. apply In_map_remove_add. Qed.

Lemma get_users_not_add (w : World) (h : string) :
  ~ In (AddReplsetMember h)
      (calls ((let* users := get_users E in call (UpdateAppRelationData users)) w)).
Proof.
  unfold get_users. run. destruct (get_users_fails E); run; simpl;
    intuition discriminate.
Qed.

(** The additions of the phase that ends a pass are among the hosts it
    was given. *)
Lemma add_phase_adds (event : Event) (l : list string) (w : World) (h : string) :
  In (AddReplsetMember h)
     (calls ((_add_units_from_replica_set E event l ;;
              let* users := get_users E in call (UpdateAppRelationData users)) w)) ->
  In h l.
Proof.
  rewrite calls_bind, in_app_iff. intros [Hin | Hin].
  - destruct (add_units_calls event l w _ Hin)
      as [(x & ? & ?) | [(x & ? & ? & Heq) | ?]]; try discriminate.
    injection Heq as ->. assumption.
  - destruct (result _); [|destruct Hin]. exfalso. eapply get_users_not_add; eauto.
Qed.

Lemma body_departing_not_added (event : Event) (w : World) (B : Unit) (h : string) :
  is_departed event = true ->
  ev_unit event = Some B ->
  get_hostname_for_unit (app_name w) B = Some h ->
  ~ In (AddReplsetMember h) (calls (reconfigure_body E event w)).
Proof.
  intros Hdep HB Hh. unfold reconfigure_body, get_replset_members. run.
  destruct (get_replset_members_fails E) as [e|]; run; [simpl; intuition discriminate|].
  destruct (mongodb_config_hosts w) as [hosts|]; run; [|simpl; intuition discriminate].
  intros [Hin | Hin]; [discriminate|]. revert Hin.
  destruct (bool_decide (replset w = hosts)).
  { rewrite set_leader_active_calls. simpl. tauto. }
  rewrite calls_bind, in_app_iff. intros [Hin | Hin].
  { eapply remove_units_not_add; eauto. }
  destruct (result _); [|destruct Hin]. revert Hin.
  rewrite Hdep, HB. run. rewrite Hh. run. intros Hin.
  apply add_phase_adds in Hin.
  apply list_elem_of_In, elem_of_elements in Hin. set_solver.
Qed.

Lemma app_name_mark_unit_departed (w : World) :
  app_name (mark_unit_departed w) = app_name w.
Proof. apply frame_mark_unit_departed. Qed.

(** C4.  When the pass is triggered by the departure of unit B, no
    [AddMember] call is issued for B's host, whether or not the peer
    relation still lists B and whether or not the replica set has it. *)
Theorem departing_unit_not_added (event : Event) (w : World) (B : Unit) (h : string) :
  ev_type event = RelationDepartedEvent ->
  ev_unit event = Some B ->
  get_hostname_for_unit (app_name w) B = Some h ->
  ~ In (AddReplsetMember h) (calls (_relation_changes_handler E event w)).
Proof.
  intros Hty HB Hh.
  assert (Hdep : is_departed event = true) by (apply bool_decide_eq_true; exact Hty).
  destruct (handler_cases event w) as [(w1 & Hw1 & _ & _ & _ & ->) | ([-> | ->] & _)];
    [|simpl; intuition discriminate..].
  cbn [calls snd]. rewrite in_app_iff. intros [Hin | Hin].
  { simpl in Hin. intuition discriminate. }
  destruct (reconfigure_outcome event w1) as (_ & (tl & Htl & Hcases) & _).
  rewrite Htl, in_app_iff in Hin. destruct Hin as [Hin | Hin].
  - revert Hin. apply (body_departing_not_added event w1 B h Hdep HB).
    destruct Hw1 as [-> | ->]; [exact Hh | rewrite app_name_mark_unit_departed; exact Hh].
  - destruct Hcases as [-> | ->]; simpl in Hin; intuition discriminate.
Qed.

(** *** Idempotence *)

Lemma set_leader_active_final (w : World) :
  let o := _set_leader_unit_active_if_needed w in
  frame w (final o) /\ replset (final o) = replset w.
Proof.
  unfold _set_leader_unit_active_if_needed. cbv zeta. run.
  destruct (_ && _); run; (split; [|reflexivity]);
    [apply frame_set_unit_status | apply frame_refl].
Qed.

(** With the live set equal to the desired one, the body asks for the
    members and does nothing else to the replica set. *)
Lemma body_converged (event : Event) (w : World) :
  mongodb_config_hosts w = Some (replset w) ->
  let o := reconfigure_body E event w in
  calls o = [GetReplsetMembers] /\ frame w (final o) /\ replset (final o) = replset w.
Proof.
  intros Hh. unfold reconfigure_body, get_replset_members. run.
  destruct (get_replset_members_fails E) as [e|]; run.
  { repeat split. }
  rewrite Hh. run. rewrite bool_decide_eq_true_2 by reflexivity.
  rewrite set_leader_active_calls.
  destruct (set_leader_active_final w) as [Hf Hr]. auto.
Qed.

Lemma handler_converged (event : Event) (w : World) :
  mongodb_config_hosts w = Some (replset w) ->
  let o := _relation_changes_handler E event w in
  membership_calls (calls o) = [] /\
  replset (final o) = replset w /\
  mongodb_config_hosts (final o) = Some (replset (final o)).
Proof.
  intros Hh.
  assert (Hm : mongodb_config_hosts (mark_unit_departed w)
               = Some (replset (mark_unit_departed w))).
  { destruct (frame_mark_unit_departed w) as (_ & _ & _ & _ & _ & _ & -> & _).
    rewrite Hh. f_equal. unfold mark_unit_departed.
    destruct (peers w) as [r|]; [|reflexivity].
    destruct (unit_data r !! "unit_departed"); reflexivity. }
  assert (Hmr : replset (mark_unit_departed w) = replset w).
  { unfold mark_unit_departed. destruct (peers w) as [r|]; [|reflexivity].
    destruct (unit_data r !! "unit_departed"); reflexivity. }
  destruct (handler_cases event w)
    as [(w1 & Hw1 & _ & _ & _ & ->) | (Hc & Hf & _)].
  - assert (Hh1 : mongodb_config_hosts w1 = Some (replset w1))
      by (destruct Hw1 as [-> | ->]; assumption).
    assert (Hr1 : replset w1 = replset w) by (destruct Hw1 as [-> | ->]; auto).
    destruct (reconfigure_outcome event w1) as (Hfin & (tl & Htl & Hcases) & _).
    destruct (body_converged event w1 Hh1) as (Hcalls & Hframe & Hrep).
    cbn [calls final result fst snd]. rewrite Htl, Hcalls, Hfin.
    split; [destruct Hcases as [-> | ->]; reflexivity|].
    split; [congruence|].
    destruct Hframe as (_ & _ & _ & _ & _ & _ & -> & _). congruence.
  - split; [destruct Hc as [-> | ->]; reflexivity|].
    destruct Hf as [-> | ->]; auto.
Qed.

(** When nothing fails, the removal loop takes its hosts out of the
    live set and the addition loop puts its hosts into it. *)
Lemma remove_units_all (event : Event) (l : list string) :
  (forall h, remove_replset_member_fails E h = None) ->
  forall w,
    let o := _remove_units_from_replica_set E event l w in
    result o = Ret tt /\ replset (final o) = replset w ∖ list_to_set l.
Proof.
  intros Hok. induction l as [|h l IH]; intros w; cbv zeta; simpl.
  - split; [reflexivity | set_solver].
  - unfold remove_replset_member. run. rewrite Hok. run.
    destruct (IH (set_replset (replset w ∖ {[h]}) w)) as [-> ->].
    split; [reflexivity | simpl; set_solver].
Qed.

Lemma add_units_all (event : Event) (l : list string) :
  (forall h, In h l -> direct_is_ready E h = true /\ add_replset_member_fails E h = None) ->
  forall w,
    mongodb_config_hosts w <> None ->
    let o := _add_units_from_replica_set E event l w in
    result o = Ret tt /\ replset (final o) = replset w ∪ list_to_set l.
Proof.
  induction l as [|h l IH]; intros Hok w Hw; cbv zeta; simpl.
  - split; [reflexivity | set_solver].
  - unfold is_ready, add_replset_member. run.
    destruct (mongodb_config_hosts w) as [hs|] eqn:Hhs; [|congruence]. run.
    destruct (Hok h) as [-> ->]; [left; reflexivity|]. run.
    destruct (IH (fun x Hx => Hok x (or_intror Hx)) (set_replset (replset w ∪ {[h]}) w))
      as [-> ->].
    { rewrite hosts_set_replset, Hhs. discriminate. }
    split; [reflexivity | simpl; set_solver].
Qed.

(** A pass in which nothing fails and every host to add is ready leaves
    the live set equal to the desired one. *)
Lemma handler_converges (event : Event) (w : World) (desired : gset string) :
  is_departed event = false ->
  is_leader w = true ->
  db_initialised w = true ->
  mongodb_config_hosts w = Some desired ->
  get_replset_members_fails E = None ->
  (forall h, remove_replset_member_fails E h = None) ->
  (forall h, h ∈ desired ->
             direct_is_ready E h = true /\ add_replset_member_fails E h = None) ->
  let o := _relation_changes_handler E event w in
  replset (final o) = desired /\ mongodb_config_hosts (final o) = Some desired.
Proof.
  intros Hdep Hl Hi Hh Hget Hrm Hadd. cbv zeta.
  rewrite handler_unfold. run. rewrite Hdep. run.
  unfold leader_pass. run. rewrite Hl. run. rewrite Hi. run. rewrite Hh. run.
  destruct (reconfigure_outcome event w) as (-> & _ & _).
  unfold reconfigure_body, get_replset_members. run. rewrite Hget. run.
  rewrite Hh. run.
  destruct (bool_decide (replset w = desired)) eqn:Heq.
  { apply bool_decide_eq_true in Heq.
    destruct (set_leader_active_final w) as [(_ & _ & _ & _ & _ & _ & -> & _) ->]. auto. }
  rewrite Hdep.
  destruct (remove_units_all event (elements (replset w ∖ desired)) Hrm w) as [Hr1 Hs1].
  destruct (remove_units_frame event (elements (replset w ∖ desired)) w) as [Hf1 _].
  rewrite (run_bind_eq _ _ _ _ _ _
             (eq_trans (outcome_eta _) (f_equal (fun r => (r, _, _)) Hr1))).
  cbn [result final calls fst snd]. rewrite run_bind_ret.
  set (w1 := final (_remove_units_from_replica_set E event (elements (replset w ∖ desired)) w))
    in *.
  assert (Hh1 : mongodb_config_hosts w1 = Some desired).
  { destruct Hf1 as (_ & _ & _ & _ & _ & _ & -> & _). exact Hh. }
  destruct (add_units_all event (elements (desired ∖ replset w))) with (w := w1)
    as [Hr2 Hs2].
  { intros h Hin. apply Hadd. apply list_elem_of_In, elem_of_elements in Hin. set_solver. }
  { rewrite Hh1. discriminate. }
  destruct (add_units_frame event (elements (desired ∖ replset w)) w1) as [Hf2 _].
  rewrite (run_bind_eq _ _ _ _ _ _
             (eq_trans (outcome_eta _) (f_equal (fun r => (r, _, _)) Hr2))).
  cbn [result final calls fst snd].
  set (w2 := final (_add_units_from_replica_set E event (elements (desired ∖ replset w)) w1))
    in *.
  assert (Hfin : final ((let* users := get_users E in call (UpdateAppRelationData users)) w2)
                 = w2).
  { unfold get_users. run. destruct (get_users_fails E); reflexivity. }
  rewrite Hfin.
  split.
  - rewrite Hs2, Hs1, !list_to_set_elements_L.
    apply set_eq. intros x. rewrite !elem_of_union, !elem_of_difference.
    destruct (decide (x ∈ replset w)), (decide (x ∈ desired)); tauto.
  - destruct Hf2 as (_ & _ & _ & _ & _ & _ & -> & _). exact Hh1.
Qed.

(** C5, as the code has it.  When the live member set fetched from the
    cluster equals the desired host set, a reconciliation pass issues no
    [AddMember] and no [RemoveMember] call and leaves the live set as it
    is; hence a second pass run right after it, the inventory unchanged,
    issues none either.  After a first pass that had changes to make, the
    second pass issues no membership call provided the first was not
    triggered by the departure of a unit, no driver call failed and
    every desired host was ready: such a pass leaves the live set equal
    to the desired one.  Without these conditions the first pass can
    leave changes undone, and the second pass issues them. *)
Theorem reconcile_idempotent (event event' : Event) (w : World) (desired : gset string) :
  mongodb_config_hosts w = Some desired ->
  let first := _relation_changes_handler E event w in
  let second := _relation_changes_handler E event' (final first) in
  (replset w = desired ->
   membership_calls (calls first) = [] /\
   replset (final first) = desired /\
   membership_calls (calls second) = [] /\
   replset (final second) = desired) /\
  (is_departed event = false ->
   is_leader w = true ->
   db_initialised w = true ->
   get_replset_members_fails E = None ->
   (forall h, remove_replset_member_fails E h = None) ->
   (forall h, h ∈ desired ->
              direct_is_ready E h = true /\ add_replset_member_fails E h = None) ->
   replset (final first) = desired /\
   membership_calls (calls second) = [] /\
   replset (final second) = desired).
Proof.
  intros Hh first second. split.
  - intros Hr. subst desired.
    destruct (handler_converged event w Hh) as (H1 & H2 & H3).
    destruct (handler_converged event' (final first) H3) as (H4 & H5 & _).
    repeat split; auto. subst second first. rewrite H5. exact H2.
  - intros Hdep Hl Hi Hget Hrm Hadd.
    destruct (handler_converges event w desired Hdep Hl Hi Hh Hget Hrm Hadd) as [H1 H2].
    fold first in H1, H2. rewrite <- H1 in H2.
    destruct (handler_converged event' (final first) H2) as (H4 & H5 & _).
    repeat split; auto. subst second. rewrite H5. exact H1.
Qed.

(** *** Readiness before addition *)

Lemma add_units_until_not_ready (event : Event) (l1 l2 : list string) (h : string) :
  (forall x, In x l1 -> direct_is_ready E x = true /\ add_replset_member_fails E x = None) ->
  direct_is_ready E h = false ->
  forall w,
    mongodb_config_hosts w <> None ->
    let o := _add_units_from_replica_set E event (l1 ++ h :: l2) w in
    result o = Ret tt /\
    calls o = checked_additions l1 ++ [DirectIsReady h; Defer].
Proof.
  intros Hl1 Hh. induction l1 as [|x l1 IH]; intros w Hw; simpl.
  - unfold is_ready. run. destruct (mongodb_config_hosts w); [|congruence].
    run. rewrite Hh. run. auto.
  - unfold is_ready, add_replset_member. run.
    destruct (mongodb_config_hosts w) as [hs|] eqn:Hhs; [|congruence]. run.
    destruct (Hl1 x) as [-> ->]; [left; reflexivity|]. run.
    destruct (IH (fun y Hy => Hl1 y (or_intror Hy))
                 (set_replset (replset w ∪ {[x]}) w)) as [Hres Hcalls].
    { rewrite hosts_set_replset, Hhs. discriminate. }
    rewrite Hres, Hcalls. auto.
Qed.

Lemma add_units_past_not_ready (event : Event) (l1 l2 : list string) (h : string) :
  direct_is_ready E h = false ->
  forall w c,
    In c (calls (_add_units_from_replica_set E event (l1 ++ h :: l2) w)) ->
    (exists x, In x l1 /\ c = DirectIsReady x) \/
    (exists x, In x l1 /\ direct_is_ready E x = true /\ c = AddReplsetMember x) \/
    c = DirectIsReady h \/ c = Defer.
Proof.
  intros Hh. induction l1 as [|x l1 IH]; intros w c; simpl.
  - unfold is_ready. run. destruct (mongodb_config_hosts w); run; [|simpl; tauto].
    rewrite Hh. run. simpl. intuition.
  - unfold is_ready, add_replset_member. run.
    destruct (mongodb_config_hosts w); run; [|simpl; tauto].
    destruct (direct_is_ready E x) eqn:Hx; run.
    + destruct (add_replset_member_fails E x); run; simpl.
      * intros [<- | [<- | []]]; [left | right; left]; eauto 6.
      * intros [<- | [<- | Hin]]; [left; eauto | right; left; eauto 6 |].
        destruct (IH _ _ Hin) as [(y & ? & ?) | [(y & ? & ? & ?) | [? | ?]]];
          [left | right; left | right; right; left | right; right; right]; eauto 6.
    + simpl. intros [<- | [<- | []]]; [left; eauto | right; right; right; reflexivity].
Qed.

(** In the trace of the addition loop an addition directly follows the
    readiness check of the same host, which found it ready. *)
Lemma add_units_checked (event : Event) (l : list string) :
  forall w,
    let t := calls (_add_units_from_replica_set E event l w) in
    (forall x, t !! 0 <> Some (AddReplsetMember x)) /\
    (forall i x,
        t !! (Datatypes.S i) = Some (AddReplsetMember x) ->
        t !! i = Some (DirectIsReady x) /\ direct_is_ready E x = true).
Proof.
  induction l as [|h l IH]; intros w; cbv zeta; simpl.
  - split; [intros x; discriminate | intros i x; discriminate].
  - unfold is_ready, add_replset_member. run.
    destruct (mongodb_config_hosts w); run;
      [|split; [intros x; discriminate | intros i x; discriminate]].
    destruct (direct_is_ready E h) eqn:Hready; run.
    + destruct (add_replset_member_fails E h); run.
      * split; [intros x; discriminate|].
        intros [|[|i]] x; simpl; try discriminate.
        intros [= <-]. auto.
      * destruct (IH (set_replset (replset w ∪ {[h]}) w)) as [IH0 IHS].
        split; [intros x; discriminate|].
        intros [|[|i]] x; simpl.
        -- intros [= <-]. auto.
        -- intros Hx. exfalso. exact (IH0 x Hx).
        -- apply IHS.
    + split; [intros x; discriminate|].
      intros [|[|i]] x; simpl; discriminate.
Qed.

(** C8.  In the addition loop a host is added only directly after the
    direct-connection check found it ready.  At the first host [h] that
    is not ready the loop stops: only hosts visited before [h] are added,
    so neither [h] nor a host after it gets an [AddMember] call; and when
    the hosts before [h] are ready and their additions succeed, the loop
    adds exactly these, checks [h], defers the event and returns. *)
Theorem additions_stop_at_not_ready
    (event : Event) (w : World) (l1 l2 : list string) (h : string) :
  direct_is_ready E h = false ->
  let o := _add_units_from_replica_set E event (l1 ++ h :: l2) w in
  (forall i x,
      calls o !! (Datatypes.S i) = Some (AddReplsetMember x) ->
      calls o !! i = Some (DirectIsReady x) /\ direct_is_ready E x = true) /\
  (forall x, In (AddReplsetMember x) (calls o) -> In x l1 /\ direct_is_ready E x = true) /\
  (NoDup (l1 ++ h :: l2) ->
   forall x, In x (h :: l2) -> ~ In (AddReplsetMember x) (calls o)) /\
  ((forall x, In x l1 ->
      direct_is_ready E x = true /\ add_replset_member_fails E x = None) ->
   mongodb_config_hosts w <> None ->
   result o = Ret tt /\
   calls o = checked_additions l1 ++ [DirectIsReady h; Defer]).
Proof.
  intros Hh o.
  assert (Hadds : forall x, In (AddReplsetMember x) (calls o) ->
                            In x l1 /\ direct_is_ready E x = true).
  { intros x Hin.
    destruct (add_units_past_not_ready event l1 l2 h Hh w _ Hin)
      as [(y & ? & ?) | [(y & ? & ? & Heq) | [? | ?]]]; try discriminate.
    injection Heq as ->. auto. }
  split; [apply (add_units_checked event (l1 ++ h :: l2) w)|].
  split; [exact Hadds|].
  split.
  - intros Hnd x Hx Hin. destruct (Hadds x Hin) as [Hl1 _].
    apply NoDup_app in Hnd as (_ & Hdisj & _).
    apply (Hdisj x); apply list_elem_of_In; assumption.
  - intros Hl1 Hw. apply add_units_until_not_ready; assumption.
Qed.

(** *** What a pass leaves alone *)








(** *** The unit's status *)

(** One poll of pbm: its status, the state it leaves and its calls. *)
Lemma get_pbm_status_run (w : World) :
  _get_pbm_status E w =
  (Ret (poll_status E (backup_service w) (pbm_runs w)),
   (if backup_service w then set_pbm_runs (Datatypes.S (pbm_runs w)) w else w),
   poll_calls (backup_service w)).
Proof.
  unfold _get_pbm_status, poll_status, poll_calls, get_backup_service, run_pbm_command.
  unfold try_except, bind, call, gets, modify, ret, raise.
  destruct w as [an su il pe s3 us rs bs pr]; simpl.
  destruct bs; simpl; [|reflexivity].
  destruct (pbm_exec E pr PBM_STATUS_CMD) as [out | e]; simpl; [reflexivity|].
  destruct e; reflexivity.
Qed.

Lemma run_bind_get_pbm_status {B} (f : StatusBase -> M World B) (w : World) :
  bind (_get_pbm_status E) f w =
  let w1 := if backup_service w then set_pbm_runs (Datatypes.S (pbm_runs w)) w else w in
  let o := f (poll_status E (backup_service w) (pbm_runs w)) w1 in
  (result o, final o, poll_calls (backup_service w) ++ calls o).
Proof.
  unfold bind at 1. rewrite get_pbm_status_run. cbv zeta.
  destruct (f _ _) as [[r w2] t2]. reflexivity.
Qed.


Lemma on_update_status_unfold (event : Event) :
  _on_update_status E event =
  (let* initialised := gets db_initialised in
   if negb initialised then ret tt
   else
     let* ready := is_ready E "localhost" in
     if negb ready then modify (set_unit_status (WaitingStatus "Waiting for MongoDB to start"))
     else
       let* leader := gets is_leader in
       (if leader then _relation_changes_handler E event else ret tt) ;;
       project_and_set E).
Proof. reflexivity. Qed.





End Reconciler.

(* ===================================================================== *)
(** * The backup coordinator *)
(* ===================================================================== *)

Section Coordinator.

Context (E : Env).

(** *** The pre-check loop *)

Lemma precheck_attempt_run (w : World) :
  precheck_attempt E w =
  let st := poll_status E (backup_service w) (pbm_runs w) in
  if is_MaintenanceStatus st then (Raise PBMBusyError, polled w, poll_calls (backup_service w))
  else if is_WaitingStatus st then
    (Raise PBMBusyError, polled w, poll_calls (backup_service w) ++ [RestartBackupService])
  else (Ret tt, polled w, poll_calls (backup_service w)).
Proof.
  unfold precheck_attempt. rewrite run_bind_get_pbm_status. cbv zeta.
  fold (polled w).
  destruct (is_MaintenanceStatus _); [simpl; rewrite app_nil_r; reflexivity|].
  destruct (is_WaitingStatus _); [|simpl; rewrite app_nil_r; reflexivity].
  unfold restart_backup_service. run. reflexivity.
Qed.

Lemma precheck_attempt_busy (w : World) :
  is_busy (poll_status E (backup_service w) (pbm_runs w)) = true ->
  precheck_attempt E w = (Raise PBMBusyError, polled w, busy_attempt_calls E w).
Proof.
  intros Hb. rewrite precheck_attempt_run. cbv zeta. unfold busy_attempt_calls, is_busy in *.
  destruct (is_MaintenanceStatus _); [rewrite app_nil_r; reflexivity|].
  simpl in Hb. rewrite Hb. reflexivity.
Qed.

(** While pbm stays busy the loop uses up its attempts and raises. *)
Lemma retrying_busy (more : nat) :
  forall w,
    forallb is_busy (attempt_statuses E w (Datatypes.S more)) = true ->
    retrying more 5 any_exception (precheck_attempt E) w
    = (Raise PBMBusyError, Nat.iter (Datatypes.S more) polled w, busy_trace E w more).
Proof.
  induction more as [|more IH]; intros w Hall; simpl in Hall;
    apply andb_true_iff in Hall as [Hb Hall].
  - simpl. rewrite run_try_except, precheck_attempt_busy by exact Hb. reflexivity.
  - cbn [retrying]. rewrite run_try_except, precheck_attempt_busy by exact Hb.
    cbn [result final calls fst snd any_exception].
    rewrite run_bind_call, (IH (polled w) Hall).
    cbn [result final calls fst snd busy_trace].
    rewrite <- Nat.iter_succ_r. reflexivity.
Qed.

Lemma backup_service_polled (w : World) : backup_service (polled w) = backup_service w.
Proof. unfold polled. destruct (backup_service w) eqn:H; [exact H | exact H]. Qed.

Lemma count_busy_attempt (w : World) :
  count_occ Call_eq_dec (busy_attempt_calls E w) GetBackupService = 1 /\
  count_occ Call_eq_dec (busy_attempt_calls E w) (RunPbmCommand PBM_STATUS_CMD)
  = (if backup_service w then 1 else 0) /\
  count_occ Call_eq_dec (busy_attempt_calls E w) (RunPbmCommand FORCE_RESYNC_CMD) = 0 /\
  count_occ Call_eq_dec (busy_attempt_calls E w) RestartBackupService
  = (if is_MaintenanceStatus (poll_status E (backup_service w) (pbm_runs w)) then 0 else 1).
Proof.
  unfold busy_attempt_calls, poll_calls.
  destruct (backup_service w), (is_MaintenanceStatus _); repeat split.
Qed.

Lemma count_busy_trace (more : nat) :
  forall w,
    let t := busy_trace E w more in
    count_occ Call_eq_dec t GetBackupService = Datatypes.S more /\
    count_occ Call_eq_dec t (RunPbmCommand PBM_STATUS_CMD)
    = (if backup_service w then Datatypes.S more else 0) /\
    count_occ Call_eq_dec t (RunPbmCommand FORCE_RESYNC_CMD) = 0 /\
    count_occ Call_eq_dec t (Sleep 5) = more /\
    (forallb is_busy (attempt_statuses E w (Datatypes.S more)) = true ->
     count_occ Call_eq_dec t RestartBackupService
     = length (filter is_WaitingStatus (attempt_statuses E w (Datatypes.S more)))).
Proof.
  assert (Hw : forall st, is_busy st = true ->
            (if is_MaintenanceStatus st then 0 else 1)
            = length (filter is_WaitingStatus [st])).
  { intros [] H; try reflexivity; discriminate. }
  induction more as [|more IH]; intros w; cbv zeta.
  - destruct (count_busy_attempt w) as (H1 & H2 & H3 & H4).
    cbn [busy_trace]. rewrite H1, H2, H3, H4.
    repeat split; try (destruct (backup_service w); reflexivity).
    + unfold busy_attempt_calls, poll_calls.
      destruct (backup_service w), (is_MaintenanceStatus _); reflexivity.
    + cbn [attempt_statuses forallb]. rewrite andb_true_r. apply Hw.
  - destruct (count_busy_attempt w) as (H1 & H2 & H3 & H4).
    destruct (IH (polled w)) as (I1 & I2 & I3 & I4 & I5).
    rewrite backup_service_polled in I2.
    cbn [busy_trace]. rewrite !count_occ_app, H1, H2, H3, H4. cbn [count_occ].
    destruct (Call_eq_dec (Sleep 5) GetBackupService) as [?|_]; [discriminate|].
    destruct (Call_eq_dec (Sleep 5) (RunPbmCommand PBM_STATUS_CMD)) as [?|_]; [discriminate|].
    destruct (Call_eq_dec (Sleep 5) (RunPbmCommand FORCE_RESYNC_CMD)) as [?|_];
      [discriminate|].
    destruct (Call_eq_dec (Sleep 5) RestartBackupService) as [?|_]; [discriminate|].
    destruct (Call_eq_dec (Sleep 5) (Sleep 5)) as [_|?]; [|congruence].
    rewrite I1, I2, I3, I4.
    repeat split; try (destruct (backup_service w); reflexivity).
    + unfold busy_attempt_calls, poll_calls.
      destruct (backup_service w), (is_MaintenanceStatus _); simpl; lia.
    + intros Hall. cbn [attempt_statuses forallb] in Hall.
      apply andb_true_iff in Hall as [Hb Hall].
      rewrite (I5 Hall), (Hw _ Hb).
      change (attempt_statuses E w (Datatypes.S (Datatypes.S more)))
        with ([poll_status E (backup_service w) (pbm_runs w)]
                ++ attempt_statuses E (polled w) (Datatypes.S more)).
      rewrite filter_app, length_app. reflexivity.
Qed.

Lemma filter_waiting_of_maintenance (l : list StatusBase) :
  forallb is_MaintenanceStatus l = true -> filter is_WaitingStatus l = [].
Proof.
  induction l as [|st l IH]; [reflexivity|]. simpl. intros H.
  apply andb_true_iff in H as [Hst H].
  destruct st; try discriminate. simpl. auto.
Qed.

Lemma filter_waiting_of_waiting (l : list StatusBase) :
  forallb is_WaitingStatus l = true -> length (filter is_WaitingStatus l) = length l.
Proof.
  induction l as [|st l IH]; [reflexivity|]. simpl. intros H.
  apply andb_true_iff in H as [Hst H].
  destruct st; try discriminate. simpl. auto.
Qed.

(** C2, as the code has it.  An attempt of the pre-check loop that polls
    "busy running an operation" (maintenance) raises the busy condition
    without touching the daemon; one that polls "resyncing already"
    (waiting) restarts the backup daemon and raises it; either way the
    loop retries.  If the status is busy on all 20 attempts, the
    operation polls exactly 20 times, restarts the daemon on exactly the
    attempts that polled waiting, none when the status was maintenance
    throughout and 20 when it was waiting throughout, and raises
    [PBMBusyError] to the caller without issuing the resync command. *)
Theorem busy_precheck_exhausts (w : World) :
  forallb is_busy (attempt_statuses E w 20) = true ->
  let o := _resync_config_options E w in
  let count := count_occ Call_eq_dec (calls o) in
  (forall w', is_MaintenanceStatus (poll_status E (backup_service w') (pbm_runs w')) = true ->
              precheck_attempt E w'
              = (Raise PBMBusyError, polled w', poll_calls (backup_service w'))) /\
  (forall w', is_WaitingStatus (poll_status E (backup_service w') (pbm_runs w')) = true ->
              precheck_attempt E w'
              = (Raise PBMBusyError, polled w',
                 poll_calls (backup_service w') ++ [RestartBackupService])) /\
  result o = Raise PBMBusyError /\
  count GetBackupService = 20 /\
  count (RunPbmCommand PBM_STATUS_CMD) = (if backup_service w then 20 else 0) /\
  count RestartBackupService = length (filter is_WaitingStatus (attempt_statuses E w 20)) /\
  (forallb is_MaintenanceStatus (attempt_statuses E w 20) = true ->
   count RestartBackupService = 0) /\
  (forallb is_WaitingStatus (attempt_statuses E w 20) = true ->
   count RestartBackupService = 20) /\
  count (RunPbmCommand FORCE_RESYNC_CMD) = 0.
Proof.
  intros Hall o count.
  assert (Ho : o = (Raise PBMBusyError, Nat.iter 20 polled w,
                    StartBackupService :: busy_trace E w 19)).
  { subst o. unfold _resync_config_options, start_backup_service, Retrying.
    rewrite run_bind_call.
    rewrite (outcome_eta (bind _ _ w)), result_bind, final_bind, calls_bind.
    cbn [Nat.pred]. rewrite (retrying_busy 19 w Hall).
    cbn [result final calls fst snd]. rewrite app_nil_r. reflexivity. }
  destruct (count_busy_trace 19 w) as (H1 & H2 & H3 & _ & H5).
  specialize (H5 Hall).
  assert (Hcount : forall c, c <> StartBackupService ->
            count c = count_occ Call_eq_dec (busy_trace E w 19) c).
  { intros c Hc. subst count. rewrite Ho. cbn [calls snd count_occ].
    destruct (Call_eq_dec StartBackupService c); [congruence | reflexivity]. }
  split.
  { intros w' Hm. rewrite precheck_attempt_run. cbv zeta. rewrite Hm. reflexivity. }
  split.
  { intros w' Hw. rewrite precheck_attempt_run. cbv zeta. rewrite Hw.
    destruct (poll_status E (backup_service w') (pbm_runs w')); try discriminate.
    reflexivity. }
  split; [rewrite Ho; reflexivity|].
  rewrite !Hcount by discriminate. rewrite H1, H2, H3, H5.
  repeat split.
  - intros Hm. rewrite filter_waiting_of_maintenance by exact Hm. reflexivity.
  - intros Hw. rewrite filter_waiting_of_waiting by exact Hw.
    clear. generalize 20. intros n. revert w.
    induction n as [|n IH]; intros w; simpl; auto.
Qed.

(** *** The actions *)

(** C7, as the code has it.  Each action ends normally and does with the
    event what the admission table says: without the s3-credentials
    relation it fails at once with a message; [restore] then fails when
    its [backup-id] parameter is missing or empty; [create-backup] and
    [restore] then fail on a unit that is not the leader, [list-backups]
    having no such restriction; otherwise pbm's status is polled, and
    maintenance makes [create-backup] and [restore] fail and lets
    [list-backups] proceed, waiting defers the action, blocked fails it
    with the blocked message, and active lets it proceed.  The status is
    polled only by an action that passed the checks before it. *)
Theorem action_admission (a : Action) (event : Event) (w : World) :
  let o := run_action E a event w in
  let backup_id := params event !! "backup-id" in
  result o = Ret tt /\
  verdict (calls o)
  = admission a (s3_relation w) (is_leader w) backup_id
      (poll_status E (backup_service w) (pbm_runs w)) /\
  count_occ Call_eq_dec (calls o) GetBackupService
  = (if reaches_status_check a (s3_relation w) (is_leader w) backup_id then 1 else 0) /\
  (s3_relation w = false -> calls o = [EventFail (missing_relation_msg a)]).
Proof.
  cbv zeta. unfold admission, reaches_status_check.
  destruct a; cbn [run_action is_restore mutating andb orb negb];
    unfold _on_create_backup_action, _on_list_backups_action, _on_restore_action; run;
    destruct (s3_relation w) eqn:Hs3; run; cbn [negb];
    try (repeat split; congruence).
  - destruct (is_leader w); run; [|repeat split; congruence].
    rewrite run_bind_get_pbm_status. cbv zeta. run. unfold poll_calls.
    destruct (poll_status E (backup_service w) (pbm_runs w)), (backup_service w);
      repeat split; congruence.
  - rewrite run_bind_get_pbm_status. cbv zeta. run. unfold poll_calls.
    destruct (poll_status E (backup_service w) (pbm_runs w)), (backup_service w);
      repeat split; congruence.
  - destruct (falsy (params event !! "backup-id")); run; [repeat split; congruence|].
    destruct (is_leader w); run; [|repeat split; congruence].
    rewrite run_bind_get_pbm_status. cbv zeta. run. unfold poll_calls.
    destruct (poll_status E (backup_service w) (pbm_runs w)), (backup_service w);
      repeat split; congruence.
Qed.

End Coordinator.

(* ===================================================================== *)
(** * Secrets *)
(* ===================================================================== *)

Section SecretFacts.

Import Secrets.

Lemma upd_same {A} (f : Scope -> A) (scope : Scope) (a : A) : upd f scope a scope = a.
Proof. unfold upd. rewrite decide_True by reflexivity. reflexivity. Qed.

Lemma upd_other {A} (f : Scope -> A) (scope s : Scope) (a : A) :
  s <> scope -> upd f scope a s = f s.
Proof. intros H. unfold upd. rewrite decide_False by exact H. reflexivity. Qed.

Lemma run_bind_outcome {S A B} (m : M S A) (f : A -> M S B) (w : S) (a : A) :
  result (m w) = Ret a ->
  bind m f w
  = (result (f a (final (m w))), final (f a (final (m w))),
     calls (m w) ++ calls (f a (final (m w)))).
Proof. intros H. apply run_bind_eq. rewrite <- H. apply outcome_eta. Qed.

(** [_juju_secrets_get] never raises and writes nothing; it leaves the
    scope's secret fetched. *)
Lemma juju_secrets_get_spec (scope : Scope) (w : Secrets.World) :
  let o := _juju_secrets_get scope w in
  let label := peer_data w scope !! SECRET_INTERNAL_LABEL in
  result o = Ret (if falsy label then None
                  else match fetched w scope with
                       | Some (_, content) => Some (nonempty content)
                       | None => None
                       end) /\
  has_secrets (final o) = has_secrets w /\
  peer_data (final o) = peer_data w /\
  juju_secrets (final o) = juju_secrets w /\
  secrets (final o) scope = fetched w scope /\
  filter is_SetContent (calls o) = [].
Proof.
  unfold _juju_secrets_get, fetched. cbv zeta. run.
  destruct (falsy (peer_data w scope !! SECRET_INTERNAL_LABEL)) eqn:Hl; run.
  { repeat split. destruct (secrets w scope); reflexivity. }
  destruct (secrets w scope) as [[id content]|] eqn:Hs; run.
  { repeat split. exact Hs. }
  rewrite run_try_except. unfold model_get_secret. run.
  destruct (juju_secrets w !! default "" (peer_data w scope !! SECRET_INTERNAL_LABEL))
    as [content|] eqn:Hj; run.
  - repeat split. simpl. apply upd_same.
  - repeat split. exact Hs.
Qed.

Lemma is_Some_nonempty (c : gmap string string) (key : string) :
  is_Some (c !! key) -> nonempty c = true.
Proof.
  intros [v Hv]. unfold nonempty. rewrite bool_decide_eq_false_2; [reflexivity|].
  intros ->. rewrite lookup_empty in Hv. discriminate.
Qed.

(** [_juju_secret_remove]: the tombstone is written over an entry the
    fetched secret has, and nothing is written otherwise. *)
Lemma juju_secret_remove_spec (scope : Scope) (key : string) (w : Secrets.World) :
  let o := _juju_secret_remove scope key w in
  result o = Ret tt /\
  has_secrets (final o) = has_secrets w /\
  peer_data (final o) = peer_data w /\
  match fetched w scope with
  | Some (id, content) =>
      if bool_decide (is_Some (content !! key)) then
        secrets (final o) scope = Some (id, <[key := SECRET_DELETED_LABEL]> content) /\
        juju_secrets (final o)
        = <[id := <[key := SECRET_DELETED_LABEL]> content]> (juju_secrets w) /\
        filter is_SetContent (calls o)
        = [SetContent id (<[key := SECRET_DELETED_LABEL]> content)]
      else
        secrets (final o) scope = Some (id, content) /\
        juju_secrets (final o) = juju_secrets w /\
        filter is_SetContent (calls o) = []
  | None =>
      secrets (final o) scope = None /\
      juju_secrets (final o) = juju_secrets w /\
      filter is_SetContent (calls o) = []
  end.
Proof.
  destruct (juju_secrets_get_spec scope w) as (Hr & Hh & Hp & Hj & Hs & Hc).
  cbv zeta. unfold _juju_secret_remove.
  rewrite (run_bind_outcome _ _ _ _ Hr). run. rewrite filter_app, Hc, Hs.
  destruct (fetched w scope) as [[id content]|]; run.
  2:{ repeat split; auto. }
  destruct (bool_decide (is_Some (content !! key))) eqn:Hk.
  - apply bool_decide_eq_true in Hk. rewrite (is_Some_nonempty _ _ Hk).
    unfold set_content. run. simpl.
    repeat split; auto; [apply upd_same | rewrite Hj; reflexivity].
  - rewrite orb_true_r. run. repeat split; auto.
Qed.



End SecretFacts.

(* ===================================================================== *)
(** * The properties on the sample deployments *)
(* ===================================================================== *)


Lemma sample_world_hosts (s3 : bool) (live : gset string) :
  mongodb_config_hosts (sample_world s3 live) = Some {[host_A; host_C]}.
Proof. vm_compute. reflexivity. Qed.

(** Desired = {A, C}, live = {A, B}: B is removed, then C is added. *)
Lemma removal_before_addition_sample :
  membership_calls
    (calls (_relation_changes_handler (sample_env all_ready (ActiveStatus "") (ActiveStatus ""))
              relation_changed (sample_world false {[host_A; host_B]})))
  = [RemoveReplsetMember host_B; AddReplsetMember host_C].
Proof.
  apply (proj2 (removal_before_addition
                  (sample_env all_ready (ActiveStatus "") (ActiveStatus ""))
                  relation_changed (sample_world false {[host_A; host_B]}))
           host_A host_B host_C);
    first [ reflexivity | discriminate | vm_compute; reflexivity ].
Defined.

(** Unit 2 departs while the peer relation still lists it and the
    replica set does not have it: its host is not added. *)
Lemma departing_unit_not_added_sample :
  ~ In (AddReplsetMember host_C)
      (calls (_relation_changes_handler
                (sample_env all_ready (ActiveStatus "") (ActiveStatus ""))
                unit_2_departed (sample_world false {[host_A; host_B]}))).
Proof.
  apply (departing_unit_not_added
           (sample_env all_ready (ActiveStatus "") (ActiveStatus ""))
           unit_2_departed (sample_world false {[host_A; host_B]}) unit_2 host_C);
    reflexivity.
Defined.

(** Live = desired = {A, C}: two passes in a row, no membership call.
    Live = {A, B}: the first pass converges, the second has nothing to
    do. *)
Lemma reconcile_idempotent_sample :
  let E := sample_env all_ready (ActiveStatus "") (ActiveStatus "") in
  (let first := _relation_changes_handler E relation_changed
                  (sample_world false {[host_A; host_C]}) in
   let second := _relation_changes_handler E relation_changed (final first) in
   membership_calls (calls first) = [] /\
   replset (final first) = {[host_A; host_C]} /\
   membership_calls (calls second) = [] /\
   replset (final second) = {[host_A; host_C]}) /\
  (let first := _relation_changes_handler E relation_changed
                  (sample_world false {[host_A; host_B]}) in
   let second := _relation_changes_handler E relation_changed (final first) in
   replset (final first) = {[host_A; host_C]} /\
   membership_calls (calls second) = [] /\
   replset (final second) = {[host_A; host_C]}).
Proof.
  intros E. split.
  - apply (proj1 (reconcile_idempotent E relation_changed relation_changed
                    (sample_world false {[host_A; host_C]}) {[host_A; host_C]}
                    (sample_world_hosts _ _))).
    reflexivity.
  - apply (proj2 (reconcile_idempotent E relation_changed relation_changed
                    (sample_world false {[host_A; host_B]}) {[host_A; host_C]}
                    (sample_world_hosts _ _)));
      first [ reflexivity | intros; split; reflexivity | intros; reflexivity ].
Defined.

(** C5 as stated fails: a second pass, the inventory unchanged, can
    issue membership calls.  After a pass that the departure of unit 2
    triggered (desired = {A, C}, live = {A, B}: B is removed, C is held
    back), the next pass adds C.  With a driver whose removals fail, the
    first pass tries to remove B and defers, and the second tries
    again. *)
Lemma second_pass_is_not_always_silent :
  (let E := sample_env all_ready (ActiveStatus "") (ActiveStatus "") in
   let first := _relation_changes_handler E unit_2_departed
                  (sample_world false {[host_A; host_B]}) in
   let second := _relation_changes_handler E relation_changed (final first) in
   peers (final first) = peers (sample_world false {[host_A; host_B]}) /\
   mongodb_config_hosts (final first) = Some {[host_A; host_C]} /\
   membership_calls (calls first) = [RemoveReplsetMember host_B] /\
   membership_calls (calls second) = [AddReplsetMember host_C]) /\
  (let first := _relation_changes_handler removal_fails_env relation_changed
                  (sample_world false {[host_A; host_B]}) in
   let second := _relation_changes_handler removal_fails_env relation_changed
                   (final first) in
   final first = sample_world false {[host_A; host_B]} /\
   membership_calls (calls first) = [RemoveReplsetMember host_B] /\
   membership_calls (calls second) = [RemoveReplsetMember host_B]).
Proof. vm_compute. repeat split. Qed.

(** C is not ready: A is added, C is checked, the event is deferred, and
    neither C nor D, which comes after it, is added. *)
Lemma additions_stop_at_not_ready_sample :
  let E := sample_env all_but_C (ActiveStatus "") (ActiveStatus "") in
  let o := _add_units_from_replica_set E relation_changed ([host_A] ++ host_C :: [host_D])
             (sample_world false ∅) in
  calls o = [DirectIsReady host_A; AddReplsetMember host_A; DirectIsReady host_C; Defer] /\
  ~ In (AddReplsetMember host_C) (calls o) /\
  ~ In (AddReplsetMember host_D) (calls o).
Proof.
  intros E o.
  destruct (additions_stop_at_not_ready E relation_changed (sample_world false ∅)
              [host_A] [host_D] host_C eq_refl) as (_ & _ & Hafter & Hexact).
  split.
  - apply Hexact; [|discriminate].
    intros x [<- | []]. split; reflexivity.
  - assert (Hnd : NoDup ([host_A] ++ host_C :: [host_D])).
    { apply NoDup_ListNoDup. repeat constructor; simpl; intuition discriminate. }
    split; apply (Hafter Hnd); simpl; auto.
Defined.




(** pbm in maintenance throughout: twenty polls, the busy condition. *)
Lemma busy_precheck_exhausts_sample :
  let E := sample_env all_ready (ActiveStatus "") (MaintenanceStatus "backup") in
  let o := _resync_config_options E (sample_world true ∅) in
  result o = Raise PBMBusyError /\
  count_occ Call_eq_dec (calls o) GetBackupService = 20 /\
  count_occ Call_eq_dec (calls o) (RunPbmCommand FORCE_RESYNC_CMD) = 0.
Proof.
  intros E o.
  destruct (busy_precheck_exhausts E (sample_world true ∅))
    as (_ & _ & Hres & Hpolls & _ & _ & _ & _ & Hresync).
  - vm_compute. reflexivity.
  - auto.
Defined.

(** C2 as stated fails: with pbm in maintenance on all 20 attempts the
    daemon is polled 20 times and never restarted. *)
Lemma maintenance_is_not_restarted :
  let E := sample_env all_ready (ActiveStatus "") (MaintenanceStatus "backup") in
  let w := sample_world true ∅ in
  let o := _resync_config_options E w in
  forallb is_MaintenanceStatus (attempt_statuses E w 20) = true /\
  result o = Raise PBMBusyError /\
  count_occ Call_eq_dec (calls o) GetBackupService = 20 /\
  count_occ Call_eq_dec (calls o) RestartBackupService = 0.
Proof. vm_compute. repeat split. Qed.

(** C7 as stated fails: on the leader, with the s3 relation and pbm
    active, [restore] with an empty [backup-id] does not proceed; with
    pbm resyncing it is not deferred either. *)
Lemma restore_without_id_is_rejected :
  let active := sample_env all_ready (ActiveStatus "") (ActiveStatus "") in
  let waiting := sample_env all_ready (ActiveStatus "") (WaitingStatus "") in
  let w := sample_world true ∅ in
  s3_relation w = true /\ is_leader w = true /\
  poll_status active (backup_service w) (pbm_runs w) = ActiveStatus "" /\
  verdict (calls (run_action active Restore restore_without_id w))
  = Rejected "Missing backup-id to restore" /\
  poll_status waiting (backup_service w) (pbm_runs w) = WaitingStatus "" /\
  verdict (calls (run_action waiting Restore restore_without_id w))
  = Rejected "Missing backup-id to restore".
Proof. vm_compute. repeat split. Qed.



(* ===================================================================== *)
(** * Further properties: host names and the desired membership *)
(* ===================================================================== *)

Lemma split_on_no_sep (s : string) :
  no_slash s = true -> split_on "/" s = [s].
Proof.
  induction s as [|c s IH]; [reflexivity|].
  unfold no_slash. simpl. intros H. apply andb_true_iff in H as [Hc H].
  apply negb_true_iff in Hc. rewrite Hc, (IH H). reflexivity.
Qed.

Lemma split_on_slash (a rest : string) :
  no_slash a = true -> split_on "/" (a +:+ "/" +:+ rest) = a :: split_on "/" rest.
Proof.
  induction a as [|c a IH]; [reflexivity|].
  unfold no_slash. simpl. intros H. apply andb_true_iff in H as [Hc H].
  apply negb_true_iff in Hc. rewrite Hc. rewrite (IH H). reflexivity.
Qed.

Lemma append_inj_l (p x y : string) : p +:+ x = p +:+ y -> x = y.
Proof. induction p as [|c p IH]; simpl; [auto | intros [= H]; auto]. Qed.

Lemma append_inj_r (x y q : string) : x +:+ q = y +:+ q -> x = y.
Proof.
  intros H. apply (f_equal list_ascii_of_string) in H.
  rewrite !list_ascii_of_string_app in H. apply app_inv_tail in H.
  rewrite <- (string_of_list_ascii_of_string x), <- (string_of_list_ascii_of_string y).
  congruence.
Qed.

(** X1.  A unit named "<application>/<number>" gets the host name
    "<app>-<number>.<app>-endpoints", whatever application its name
    carries; two such units get the same host name exactly when their
    numbers are equal; and a unit name without a slash has no host name
    (the [IndexError] of the source). *)
Theorem hostname_by_unit_number (app a b i j : string) :
  no_slash a = true -> no_slash b = true -> no_slash i = true -> no_slash j = true ->
  get_hostname_for_unit app (unit_named a i) = Some (host_of app i) /\
  (get_hostname_for_unit app (unit_named a i) = get_hostname_for_unit app (unit_named b j)
   <-> i = j) /\
  get_hostname_for_unit app {| name := a |} = None.
Proof.
  intros Ha Hb Hi Hj.
  assert (Hn : forall x n, no_slash x = true -> no_slash n = true ->
             get_hostname_for_unit app (unit_named x n) = Some (host_of app n)).
  { intros x n Hx Hnn. unfold get_hostname_for_unit, unit_named. simpl.
    rewrite (split_on_slash x n Hx), (split_on_no_sep n Hnn). reflexivity. }
  split; [apply Hn; assumption|]. split.
  - rewrite !Hn by assumption. split; [|intros ->; reflexivity].
    intros [= H]. unfold host_of in H.
    apply append_inj_l, append_inj_l in H.
    apply (append_inj_r i j ("." +:+ app +:+ "-endpoints")). exact H.
  - unfold get_hostname_for_unit. simpl. rewrite (split_on_no_sep a Ha). reflexivity.
Qed.

Lemma hostname_by_unit_number_sample :
  get_hostname_for_unit "mongodb" (unit_named "mongodb" "2") = Some host_C /\
  get_hostname_for_unit "mongodb" {| name := "mongodb" |} = None.
Proof.
  destruct (hostname_by_unit_number "mongodb" "mongodb" "mongodb" "2" "2"
              eq_refl eq_refl eq_refl eq_refl) as (H1 & _ & H3).
  split; [exact H1 | exact H3].
Defined.




(* ===================================================================== *)
(** * Further properties: the reconciler *)
(* ===================================================================== *)



Section ReconcilerMore.

Context (E : Env).







(** X3.  Single writer: on a unit that is not the leader, and on any
    unit before the replica set is initialised, a pass issues no call to
    the replica-set driver and changes neither the live membership nor
    the unit's status. *)
Theorem no_driver_call_by_follower (event : Event) (w : World) :
  is_leader w = false \/ db_initialised w = false ->
  let o := _relation_changes_handler E event w in
  forallb (fun c => negb (is_driver_call c)) (calls o) = true /\
  replset (final o) = replset w /\
  unit_status (final o) = unit_status w.
Proof.
  intros Hnot. cbv zeta.
  assert (Hm : replset (mark_unit_departed w) = replset w /\
               unit_status (mark_unit_departed w) = unit_status w).
  { unfold mark_unit_departed. destruct (peers w) as [r|]; [|auto].
    destruct (unit_data r !! "unit_departed"); auto. }
  destruct (handler_cases E event w)
    as [(w1 & _ & Hl & Hi & _) | (Hc & Hf & _)].
  - destruct Hnot; congruence.
  - split; [destruct Hc as [-> | ->]; reflexivity|].
    destruct Hf as [-> | ->]; [auto | exact Hm].
Qed.

(** *** Only the difference is touched *)

Lemma membership_calls_app (t1 t2 : list Call) :
  membership_calls (t1 ++ t2) = membership_calls t1 ++ membership_calls t2.
Proof. apply filter_app. Qed.

Lemma membership_calls_removes (l : list string) :
  membership_calls (map RemoveReplsetMember l) = map RemoveReplsetMember l.
Proof. induction l as [|h l IH]; [reflexivity|]. cbn. f_equal. exact IH. Qed.

Lemma add_units_membership (event : Event) (l : list string) :
  forall w, exists k,
    membership_calls (calls (_add_units_from_replica_set E event l w))
    = map AddReplsetMember (take k l) /\
    forall h, In h (take k l) -> direct_is_ready E h = true.
Proof.
  induction l as [|h l IH]; intros w; simpl.
  - exists 0. split; [reflexivity | intros h []].
  - unfold is_ready, add_replset_member. run.
    destruct (mongodb_config_hosts w); run;
      [|exists 0; split; [reflexivity | intros x []]].
    destruct (direct_is_ready E h) eqn:Hready; run;
      [|exists 0; split; [reflexivity | intros x []]].
    destruct (add_replset_member_fails E h); run.
    + exists 1. split; [reflexivity|]. simpl. intros x [<- | Hx]; [exact Hready|].
      destruct l; destruct Hx.
    + destruct (IH (set_replset (replset w ∪ {[h]}) w)) as (k & Hk & Hr).
      exists (Datatypes.S k). split.
      * change (membership_calls (DirectIsReady h :: AddReplsetMember h :: ?t))
          with (AddReplsetMember h :: membership_calls t).
        rewrite Hk. reflexivity.
      * simpl. intros x [<- | Hx]; auto.
Qed.

Lemma users_membership (w : World) :
  membership_calls
    (calls ((let* users := get_users E in call (UpdateAppRelationData users)) w)) = [].
Proof. unfold get_users. run. destruct (get_users_fails E); reflexivity. Qed.

Lemma add_phase_membership (event : Event) (l : list string) (w : World) :
  exists k,
    membership_calls
      (calls ((_add_units_from_replica_set E event l ;;
               let* users := get_users E in call (UpdateAppRelationData users)) w))
    = map AddReplsetMember (take k l) /\
    forall h, In h (take k l) -> direct_is_ready E h = true.
Proof.
  destruct (add_units_membership event l w) as (k & Hk & Hr).
  exists k. split; [|exact Hr].
  rewrite calls_bind, membership_calls_app, Hk.
  destruct (result _); [rewrite users_membership|]; apply app_nil_r.
Qed.

(** The membership calls of the body: removals of hosts of live −
    desired, then additions of ready hosts of desired − live. *)
Lemma body_membership (event : Event) (w : World) (desired : gset string) :
  mongodb_config_hosts w = Some desired ->
  exists (k1 k2 : nat) (narrowed : gset string),
    narrowed ⊆ desired /\
    membership_calls (calls (reconfigure_body E event w))
    = map RemoveReplsetMember (take k1 (elements (replset w ∖ desired)))
      ++ map AddReplsetMember (take k2 (elements (narrowed ∖ replset w))) /\
    forall h, In h (take k2 (elements (narrowed ∖ replset w))) ->
              direct_is_ready E h = true.
Proof.
  intros Hh.
  assert (Hnone : exists (k1 k2 : nat) (narrowed : gset string),
    narrowed ⊆ desired /\
    [] = map RemoveReplsetMember (take k1 (elements (replset w ∖ desired)))
         ++ map AddReplsetMember (take k2 (elements (narrowed ∖ replset w))) /\
    forall h, In h (take k2 (elements (narrowed ∖ replset w))) ->
              direct_is_ready E h = true).
  { exists 0, 0, desired. rewrite !take_0. split; [reflexivity|].
    split; [reflexivity | intros h []]. }
  unfold reconfigure_body, get_replset_members. run.
  destruct (get_replset_members_fails E); run; [exact Hnone|].
  rewrite Hh. run.
  destruct (bool_decide (replset w = desired)).
  { rewrite set_leader_active_calls. exact Hnone. }
  change (membership_calls (GetReplsetMembers :: ?t)) with (membership_calls t).
  rewrite calls_bind, membership_calls_app.
  destruct (remove_units_calls E event (elements (replset w ∖ desired)) w) as [k1 Hk1].
  rewrite Hk1, membership_calls_removes.
  destruct (result _).
  2:{ exists k1, 0, desired. rewrite take_0. split; [reflexivity|].
      split; [reflexivity | intros h []]. }
  destruct (is_departed event), (ev_unit event) as [u|]; run.
  1: destruct (get_hostname_for_unit (app_name w) u) as [h|]; run.
  2:{ exists k1, 0, desired. rewrite take_0. split; [reflexivity|].
      split; [reflexivity | intros h []]. }
  1: destruct (add_phase_membership event (elements (desired ∖ {[h]} ∖ replset w))
                 (final (_remove_units_from_replica_set E event
                           (elements (replset w ∖ desired)) w))) as (k2 & Hk2 & Hr2);
     exists k1, k2, (desired ∖ {[h]}); rewrite Hk2;
     (split; [set_solver | split; [reflexivity | exact Hr2]]).
  all: destruct (add_phase_membership event (elements (desired ∖ replset w))
                 (final (_remove_units_from_replica_set E event
                           (elements (replset w ∖ desired)) w))) as (k2 & Hk2 & Hr2);
     exists k1, k2, desired; rewrite Hk2;
     (split; [reflexivity | split; [reflexivity | exact Hr2]]).
Qed.

Lemma mark_unit_departed_replset (w : World) :
  replset (mark_unit_departed w) = replset w.
Proof.
  unfold mark_unit_departed. destruct (peers w) as [r|]; [|reflexivity].
  destruct (unit_data r !! "unit_departed"); reflexivity.
Qed.

Lemma handler_membership (event : Event) (w : World) (desired : gset string) :
  mongodb_config_hosts w = Some desired ->
  exists (k1 k2 : nat) (narrowed : gset string),
    narrowed ⊆ desired /\
    membership_calls (calls (_relation_changes_handler E event w))
    = map RemoveReplsetMember (take k1 (elements (replset w ∖ desired)))
      ++ map AddReplsetMember (take k2 (elements (narrowed ∖ replset w))) /\
    forall h, In h (take k2 (elements (narrowed ∖ replset w))) ->
              direct_is_ready E h = true.
Proof.
  intros Hh.
  destruct (handler_cases E event w) as [(w1 & Hw1 & _ & _ & _ & ->) | (Hc & _)].
  - assert (Hr1 : replset w1 = replset w)
      by (destruct Hw1 as [-> | ->]; [reflexivity | apply mark_unit_departed_replset]).
    assert (Hh1 : mongodb_config_hosts w1 = Some desired).
    { destruct Hw1 as [-> | ->]; [exact Hh|].
      destruct (frame_mark_unit_departed w) as (_ & _ & _ & _ & _ & _ & -> & _). exact Hh. }
    destruct (reconfigure_outcome E event w1) as (_ & (tl & Htl & Hcases) & _).
    destruct (body_membership event w1 desired Hh1) as (k1 & k2 & n & Hn & Hm & Hr).
    rewrite Hr1 in Hm, Hr. exists k1, k2, n. split; [exact Hn|]. split; [|exact Hr].
    cbn [calls snd]. rewrite Htl, !membership_calls_app, Hm.
    destruct Hcases as [-> | ->]; cbn; apply app_nil_r.
  - exists 0, 0, desired. rewrite !take_0. split; [reflexivity|].
    split; [destruct Hc as [-> | ->]; reflexivity | intros h []].
Qed.

Lemma In_membership_calls (c : Call) (t : list Call) :
  (is_add c || is_remove c) = true -> In c t -> In c (membership_calls t).
Proof.
  intros Hc Hin. apply list_elem_of_In. apply list_elem_of_In in Hin.
  unfold membership_calls. apply list_elem_of_filter. split; [|exact Hin].
  rewrite Hc. exact I.
Qed.

Lemma NoDup_map_inj {A} (f : string -> A) (l : list string) :
  (forall x y, f x = f y -> x = y) -> NoDup l -> NoDup (map f l).
Proof.
  intros Hinj. induction l as [|x l IH]; simpl; intros Hnd; [constructor|].
  apply NoDup_cons in Hnd as [Hx Hnd]. apply NoDup_cons. split; [|auto].
  intros Hin. apply Hx. apply list_elem_of_In in Hin. apply list_elem_of_In.
  apply in_map_iff in Hin as (y & Hy & Hin). apply Hinj in Hy. subst y. exact Hin.
Qed.

Lemma NoDup_map_take {A} (f : string -> A) (k : nat) (l : list string) :
  (forall x y, f x = f y -> x = y) -> NoDup l -> NoDup (map f (take k l)).
Proof.
  intros Hinj Hnd. apply NoDup_map_inj; [exact Hinj|].
  eapply sublist_NoDup; [exact Hnd | apply sublist_take].
Qed.

(** X4.  A pass touches the difference of the two sets only: with the
    desired set defined, every host it removes is a live member that is
    not desired, every host it adds is a desired host that is not a live
    member and was found ready, and no host is removed or added twice:
    its membership calls are pairwise different. *)
Theorem pass_touches_difference_only (event : Event) (w : World) (desired : gset string) :
  mongodb_config_hosts w = Some desired ->
  let o := _relation_changes_handler E event w in
  (forall h, In (RemoveReplsetMember h) (calls o) -> h ∈ replset w /\ (h ∉ desired)) /\
  (forall h, In (AddReplsetMember h) (calls o) ->
             h ∈ desired /\ (h ∉ replset w) /\ direct_is_ready E h = true) /\
  NoDup (membership_calls (calls o)).
Proof.
  intros Hh o.
  destruct (handler_membership event w desired Hh) as (k1 & k2 & n & Hn & Hm & Hr).
  fold o in Hm.
  split; [|split].
  - intros h Hin. apply (In_membership_calls (RemoveReplsetMember h) _ eq_refl) in Hin.
    rewrite Hm, in_app_iff, !in_map_iff in Hin.
    destruct Hin as [(x & [= ->] & Hx) | (x & ? & _)]; [|discriminate].
    apply list_elem_of_In, subseteq_take, elem_of_elements in Hx. set_solver.
  - intros h Hin. apply (In_membership_calls (AddReplsetMember h) _ eq_refl) in Hin.
    rewrite Hm, in_app_iff, !in_map_iff in Hin.
    destruct Hin as [(x & ? & _) | (x & [= ->] & Hx)]; [discriminate|].
    pose proof (Hr _ Hx) as Hready.
    apply list_elem_of_In, subseteq_take, elem_of_elements in Hx. set_solver.
  - rewrite Hm. apply NoDup_app. split; [|split].
    + apply NoDup_map_take; [congruence | apply NoDup_elements].
    + intros c Hc1 Hc2. apply list_elem_of_In, in_map_iff in Hc1 as (x & <- & _).
      apply list_elem_of_In, in_map_iff in Hc2 as (y & ? & _). discriminate.
    + apply NoDup_map_take; [congruence | apply NoDup_elements].
Qed.

(** *** Readiness before addition, in a whole pass *)

Lemma additions_checked_no_add (t : list Call) :
  no_add t = true -> additions_checked E t.
Proof.
  intros Hn.
  assert (H : forall i x, t !! i <> Some (AddReplsetMember x)).
  { intros i x Hi. apply list_elem_of_lookup_2, list_elem_of_In in Hi.
    unfold no_add in Hn. rewrite forallb_forall in Hn. specialize (Hn _ Hi). discriminate. }
  split; [intros x; apply H | intros i x Hi; destruct (H _ _ Hi)].
Qed.

Lemma additions_checked_app (t1 t2 : list Call) :
  additions_checked E t1 -> additions_checked E t2 -> additions_checked E (t1 ++ t2).
Proof.
  intros [H10 H1S] [H20 H2S]. split.
  - intros x. destruct t1 as [|c t1]; [apply H20 | apply (H10 x)].
  - intros i x Hi.
    destruct (decide (Datatypes.S i < length t1)) as [Hlt | Hge].
    + rewrite lookup_app_l in Hi by exact Hlt. rewrite lookup_app_l by lia. auto.
    + rewrite lookup_app_r in Hi by lia.
      destruct (decide (Datatypes.S i = length t1)) as [Heq | Hne].
      * rewrite Heq, Nat.sub_diag in Hi. destruct (H20 _ Hi).
      * replace (Datatypes.S i - length t1) with (Datatypes.S (i - length t1)) in Hi by lia.
        rewrite lookup_app_r by lia. auto.
Qed.

Lemma users_no_add (w : World) :
  no_add (calls ((let* users := get_users E in call (UpdateAppRelationData users)) w)) = true.
Proof. unfold get_users. run. destruct (get_users_fails E); reflexivity. Qed.

Lemma add_phase_checked (event : Event) (l : list string) (w : World) :
  additions_checked E
    (calls ((_add_units_from_replica_set E event l ;;
             let* users := get_users E in call (UpdateAppRelationData users)) w)).
Proof.
  rewrite calls_bind. apply additions_checked_app.
  - apply (add_units_checked E event l w).
  - apply additions_checked_no_add.
    destruct (result _); [apply users_no_add | reflexivity].
Qed.

Lemma body_checked (event : Event) (w : World) :
  additions_checked E (calls (reconfigure_body E event w)).
Proof.
  unfold reconfigure_body, get_replset_members. run.
  destruct (get_replset_members_fails E); run;
    [apply additions_checked_no_add; reflexivity|].
  destruct (mongodb_config_hosts w) as [hosts|]; run;
    [|apply additions_checked_no_add; reflexivity].
  apply (additions_checked_app [GetReplsetMembers]);
    [apply additions_checked_no_add; reflexivity|].
  destruct (bool_decide (replset w = hosts)).
  { rewrite set_leader_active_calls. apply additions_checked_no_add. reflexivity. }
  rewrite calls_bind. apply additions_checked_app.
  { apply additions_checked_no_add, remove_units_no_add. }
  destruct (result _); [|apply additions_checked_no_add; reflexivity].
  destruct (is_departed event), (ev_unit event) as [u|]; run;
    try apply add_phase_checked.
  destruct (get_hostname_for_unit (app_name w) u); run;
    [apply add_phase_checked | apply additions_checked_no_add; reflexivity].
Qed.

(** X5.  In the trace of a whole pass, every [AddMember] call directly
    follows the direct-connection readiness check of the same host, and
    that check found the host ready. *)
Theorem pass_adds_after_ready_check (event : Event) (w : World) :
  forall i h,
    calls (_relation_changes_handler E event w) !! (Datatypes.S i)
    = Some (AddReplsetMember h) ->
    calls (_relation_changes_handler E event w) !! i = Some (DirectIsReady h) /\
    direct_is_ready E h = true.
Proof.
  assert (H : additions_checked E (calls (_relation_changes_handler E event w))).
  { destruct (handler_cases E event w) as [(w1 & _ & _ & _ & _ & ->) | ([-> | ->] & _)];
      [|apply additions_checked_no_add; reflexivity..].
    cbn [calls snd]. apply additions_checked_app;
      [apply additions_checked_no_add; reflexivity|].
    destruct (reconfigure_outcome E event w1) as (_ & (tl & -> & Htl) & _).
    apply additions_checked_app; [apply body_checked|].
    apply additions_checked_no_add. destruct Htl as [-> | ->]; reflexivity. }
  apply H.
Qed.

(** *** Driver failures *)

Lemma reconfigure_run (event : Event) (w : World) :
  reconfigure E event w =
  let b := reconfigure_body E event w in
  match result b with
  | Raise NotReadyError | Raise PyMongoError => (Ret tt, final b, calls b ++ [Defer])
  | _ => b
  end.
Proof.
  unfold reconfigure. rewrite run_try_except. cbv zeta.
  destruct (result (reconfigure_body E event w)) as [[]|[]]; reflexivity.
Qed.

(** The removal loop either removes every host, or stops at the first
    host whose removal fails. *)
Lemma remove_units_outcome (event : Event) (l : list string) :
  forall w,
    let o := _remove_units_from_replica_set E event l w in
    (result o = Ret tt /\ forall x, In x l -> remove_replset_member_fails E x = None) \/
    (exists l1 x e,
        (forall y, In y l1 -> remove_replset_member_fails E y = None) /\
        remove_replset_member_fails E x = Some e /\
        result o = Raise e /\
        calls o = map RemoveReplsetMember (l1 ++ [x])).
Proof.
  induction l as [|h l IH]; intros w; cbv zeta; simpl.
  - left. split; [reflexivity | intros x []].
  - unfold remove_replset_member. run.
    destruct (remove_replset_member_fails E h) as [e|] eqn:Hh; run.
    + right. exists [], h, e. repeat split; auto. intros y [].
    + destruct (IH (set_replset (replset w ∖ {[h]}) w))
        as [[Hr Hall] | (l1 & x & e & Hl1 & Hx & Hr & Hc)].
      * left. split; [exact Hr|]. intros x [<- | Hx]; auto.
      * right. exists (h :: l1), x, e. repeat split; auto.
        -- intros y [<- | Hy]; auto.
        -- rewrite Hc. reflexivity.
Qed.

Lemma In_remove_map (h : string) (l : list string) :
  In (RemoveReplsetMember h) (map RemoveReplsetMember l) -> In h l.
Proof. rewrite in_map_iff. intros (x & [= ->] & Hx). exact Hx. Qed.

Lemma no_remove_In (t : list Call) (h : string) :
  no_remove t = true -> ~ In (RemoveReplsetMember h) t.
Proof.
  unfold no_remove. rewrite forallb_forall. intros H Hin.
  specialize (H _ Hin). discriminate.
Qed.

(** A removal that fails ends the body at once. *)
Lemma body_failed_removal (event : Event) (w : World) (h : string) (e : Exn) :
  In (RemoveReplsetMember h) (calls (reconfigure_body E event w)) ->
  remove_replset_member_fails E h = Some e ->
  let b := reconfigure_body E event w in
  result b = Raise e /\
  exists l, calls b = GetReplsetMembers :: map RemoveReplsetMember (l ++ [h]).
Proof.
  intros Hin Hh. cbv zeta. revert Hin.
  unfold reconfigure_body, get_replset_members. run.
  destruct (get_replset_members_fails E); run; [intros [? | []]; discriminate|].
  destruct (mongodb_config_hosts w) as [hosts|]; run; [|intros [? | []]; discriminate].
  destruct (bool_decide (replset w = hosts)).
  { rewrite set_leader_active_calls. intros [? | []]. discriminate. }
  rewrite calls_bind, result_bind.
  destruct (remove_units_outcome event (elements (replset w ∖ hosts)) w)
    as [[Hr Hall] | (l1 & x & e' & Hl1 & Hx & Hr & Hc)].
  - intros Hin. exfalso. rewrite Hr in Hin.
    destruct (remove_units_calls E event (elements (replset w ∖ hosts)) w) as [k Hk].
    destruct Hin as [? | Hin]; [discriminate|].
    apply in_app_iff in Hin as [Hin | Hin].
    + rewrite Hk in Hin. apply In_remove_map in Hin.
      apply list_elem_of_In, subseteq_take, list_elem_of_In in Hin.
      rewrite (Hall _ Hin) in Hh. discriminate.
    + revert Hin. apply no_remove_In.
      destruct (is_departed event), (ev_unit event) as [u|]; run;
        try apply add_phase_no_remove.
      destruct (get_hostname_for_unit (app_name w) u); run;
        [apply add_phase_no_remove | reflexivity].
  - rewrite Hr, Hc, app_nil_r. intros [? | Hin]; [discriminate|].
    apply In_remove_map, in_app_iff in Hin as [Hin | [<- | []]].
    + rewrite (Hl1 _ Hin) in Hh. discriminate.
    + assert (e' = e) as -> by congruence. split; [reflexivity|]. exists l1. reflexivity.
Qed.

Lemma map_remove_quiet (l : list string) :
  no_add (map RemoveReplsetMember l) = true /\ ~ In GetUsers (map RemoveReplsetMember l).
Proof.
  induction l as [|x l [IH1 IH2]]; simpl; [auto|].
  split; [exact IH1 | intros [? | ?]; [discriminate | auto]].
Qed.

(** A pass whose read of the members fails in one of the two expected
    ways. *)
Lemma failed_read_run (event : Event) (w : World) (e : Exn) :
  is_leader w = true -> db_initialised w = true ->
  mongodb_config_hosts w <> None ->
  (is_departed event = true -> departing_unit event <> None) ->
  get_replset_members_fails E = Some e ->
  e = NotReadyError \/ e = PyMongoError ->
  exists w1,
    (w1 = w \/ w1 = mark_unit_departed w) /\
    _relation_changes_handler E event w
    = (Ret tt, w1, handler_prelude ++ [GetReplsetMembers; Defer]).
Proof.
  intros Hl Hi Hh Hdu Hget He.
  assert (Hlp : forall w1, is_leader w1 = true -> db_initialised w1 = true ->
            mongodb_config_hosts w1 <> None ->
            leader_pass E event w1 = (Ret tt, w1, [GenerateSecrets; GetReplsetMembers; Defer])).
  { intros w1 Hl1 Hi1 Hh1. unfold leader_pass. run. rewrite Hl1. run. rewrite Hi1. run.
    destruct (mongodb_config_hosts w1) eqn:Hhs; [|congruence]. run.
    rewrite reconfigure_run. cbv zeta.
    unfold reconfigure_body, get_replset_members. run. rewrite Hget. run.
    destruct He as [-> | ->]; reflexivity. }
  destruct (frame_mark_unit_departed w) as (_ & _ & Hml & _ & _ & _ & Hmh & Hmi).
  assert (Hlpm := Hlp (mark_unit_departed w)).
  rewrite Hml, Hmh, Hmi in Hlpm. specialize (Hlpm Hl Hi Hh).
  specialize (Hlp w Hl Hi Hh).
  destruct (is_departed event) eqn:Hdep.
  - destruct (departing_unit event) as [d|] eqn:Hd; [|destruct (Hdu eq_refl eq_refl)].
    destruct (bool_decide (name d = name (self_unit w))) eqn:Hself.
    + exists (mark_unit_departed w). split; [auto|].
      rewrite handler_unfold, Hdep, Hd. run. rewrite Hself. run. rewrite Hlpm. reflexivity.
    + exists w. split; [auto|].
      rewrite handler_unfold, Hdep, Hd. run. rewrite Hself. run. rewrite Hlp. reflexivity.
  - exists w. split; [auto|].
    rewrite handler_unfold, Hdep. run. rewrite Hlp. reflexivity.
Qed.

(** X6.  A driver failure cuts the pass short.  When reading the
    members fails with [NotReadyError] or [PyMongoError], the leader of
    an initialised replica set defers the event, changes nothing and
    returns normally.  When the removal of a host fails, that removal is
    the last driver call of the pass: nothing is added and the users are
    not read; if the failure is one of the two, the pass ends with the
    deferral and returns normally, and otherwise the exception reaches
    the caller. *)
Theorem driver_failure_stops_pass (event : Event) (w : World) :
  let o := _relation_changes_handler E event w in
  (forall e,
      is_leader w = true -> db_initialised w = true ->
      mongodb_config_hosts w <> None ->
      (is_departed event = true -> departing_unit event <> None) ->
      get_replset_members_fails E = Some e ->
      e = NotReadyError \/ e = PyMongoError ->
      result o = Ret tt /\
      calls o = handler_prelude ++ [GetReplsetMembers; Defer] /\
      replset (final o) = replset w /\
      unit_status (final o) = unit_status w) /\
  (forall h e,
      In (RemoveReplsetMember h) (calls o) ->
      remove_replset_member_fails E h = Some e ->
      no_add (calls o) = true /\
      ~ In GetUsers (calls o) /\
      (e = NotReadyError \/ e = PyMongoError ->
       result o = Ret tt /\ exists t, calls o = t ++ [RemoveReplsetMember h; Defer]) /\
      (e <> NotReadyError -> e <> PyMongoError ->
       result o = Raise e /\ exists t, calls o = t ++ [RemoveReplsetMember h])).
Proof.
  cbv zeta. split.
  - intros e Hl Hi Hh Hdu Hget He.
    destruct (failed_read_run event w e Hl Hi Hh Hdu Hget He) as (w1 & Hw1 & ->).
    cbn [result final calls fst snd]. repeat split.
    + destruct Hw1 as [-> | ->]; [reflexivity | apply mark_unit_departed_replset].
    + destruct Hw1 as [-> | ->]; [reflexivity|].
      unfold mark_unit_departed. destruct (peers w) as [r|]; [|reflexivity].
      destruct (unit_data r !! "unit_departed"); reflexivity.
  - intros h e Hin Hh.
    destruct (handler_cases E event w) as [(w1 & _ & _ & _ & _ & Heq) | ([Hc | Hc] & _)].
    2,3: rewrite Hc in Hin; simpl in Hin; intuition discriminate.
    rewrite Heq in Hin |- *. cbn [result final calls fst snd] in Hin |- *.
    rewrite reconfigure_run in Hin |- *. cbv zeta in Hin |- *.
    assert (Hinb : In (RemoveReplsetMember h) (calls (reconfigure_body E event w1))).
    { apply in_app_iff in Hin as [Hin | Hin]; [simpl in Hin; intuition discriminate|].
      destruct (result (reconfigure_body E event w1)) as [[]|[]];
        cbn [calls snd] in Hin; try exact Hin;
        apply in_app_iff in Hin as [Hin | [? | []]]; (exact Hin || discriminate). }
    destruct (body_failed_removal event w1 h e Hinb Hh) as (Hr & l & Hc).
    rewrite Hr. destruct (map_remove_quiet (l ++ [h])) as [Hq1 Hq2].
    assert (Hsplit : handler_prelude ++ GetReplsetMembers :: map RemoveReplsetMember (l ++ [h])
                     = (handler_prelude ++ GetReplsetMembers :: map RemoveReplsetMember l)
                         ++ [RemoveReplsetMember h]).
    { rewrite map_app. reflexivity. }
    assert (Hcases : (e = NotReadyError \/ e = PyMongoError) \/
                     (e <> NotReadyError /\ e <> PyMongoError)).
    { destruct e; (left; auto; fail) || (right; split; discriminate). }
    destruct Hcases as [He | [He1 He2]].
    + assert (Hrun : match e with
                     | NotReadyError | PyMongoError =>
                         (Ret tt, final (reconfigure_body E event w1),
                          calls (reconfigure_body E event w1) ++ [Defer])
                     | _ => reconfigure_body E event w1
                     end
                     = (@Ret unit tt, final (reconfigure_body E event w1),
                        calls (reconfigure_body E event w1) ++ [Defer]))
        by (destruct He as [-> | ->]; reflexivity).
      rewrite Hrun. cbn [result final calls fst snd]. rewrite Hc.
      split; [|split; [|split]].
      * unfold no_add in *. rewrite ?forallb_app. simpl. rewrite Hq1. reflexivity.
      * rewrite !in_app_iff. simpl. intuition discriminate.
      * intros _. split; [reflexivity|].
        exists (handler_prelude ++ GetReplsetMembers :: map RemoveReplsetMember l).
        rewrite map_app. simpl. rewrite <- ?app_assoc. reflexivity.
      * intros H1 H2. destruct He; contradiction.
    + assert (Hrun : match e with
                     | NotReadyError | PyMongoError =>
                         (Ret tt, final (reconfigure_body E event w1),
                          calls (reconfigure_body E event w1) ++ [Defer])
                     | _ => reconfigure_body E event w1
                     end
                     = reconfigure_body E event w1)
        by (destruct e; try reflexivity; contradiction).
      rewrite Hrun, Hr, Hc.
      split; [|split; [|split]].
      * unfold no_add in *. rewrite ?forallb_app. simpl. rewrite Hq1. reflexivity.
      * rewrite !in_app_iff. simpl. intuition discriminate.
      * intros [? | ?]; contradiction.
      * intros _ _. split; [reflexivity|].
        exists (handler_prelude ++ GetReplsetMembers :: map RemoveReplsetMember l).
        exact Hsplit.
Qed.

(** *** The departure flag *)




End ReconcilerMore.

(* ===================================================================== *)
(** * The unit status and the actions, further *)
(* ===================================================================== *)

Section StatusMore.

Context (E : Env).

(** X8.  Update-status waits for the database.  Before the replica set
    is initialised the handler does nothing at all.  Once it is, and the
    local database does not answer, the handler asks it once, sets the
    unit to waiting with the message "Waiting for MongoDB to start" and
    stops: no reconciliation pass is run, not even on the leader, and
    the backup tool is not polled. *)
Theorem update_status_waits_for_database (event : Event) (w : World) :
  db_initialised w = false \/
  (mongodb_config_hosts w <> None /\ direct_is_ready E "localhost" = false) ->
  _on_update_status E event w
  = if db_initialised w
    then (Ret tt, set_unit_status (WaitingStatus "Waiting for MongoDB to start") w,
          [DirectIsReady "localhost"])
    else (Ret tt, w, []).
Proof.
  intros H. rewrite on_update_status_unfold. run.
  destruct (db_initialised w) eqn:Hi; run; [|reflexivity].
  destruct H as [H | [Hh Hr]]; [discriminate|].
  unfold is_ready. run.
  destruct (mongodb_config_hosts w); [|congruence]. run.
  rewrite Hr. run. reflexivity.
Qed.

(** X9.  Polling the backup tool never raises.  [_get_pbm_status]
    always returns a status.  When Pebble does not know the pbm-agent
    service, the status is waiting with "waiting for pbm to start" and
    pbm is not run.  When it does, pbm is run exactly once; its output is
    classified by [process_pbm_status], and whatever exception the run
    raises becomes a blocked status. *)
Theorem pbm_status_never_raises (w : World) :
  let o := _get_pbm_status E w in
  exists st,
    result o = Ret st /\
    (if backup_service w
     then calls o = [GetBackupService; RunPbmCommand PBM_STATUS_CMD] /\
          final o = set_pbm_runs (S (pbm_runs w)) w /\
          match pbm_exec E (pbm_runs w) PBM_STATUS_CMD with
          | PbmStdout stdout => st = process_pbm_status E stdout
          | PbmRaises e =>
              is_BlockedStatus st = true /\
              (forall out, e = ExecError out \/ e = CalledProcessError out ->
                           st = BlockedStatus (process_pbm_error E out)) /\
              ((forall out, e <> ExecError out /\ e <> CalledProcessError out) ->
               st = BlockedStatus "PBM error")
          end
     else calls o = [GetBackupService] /\ final o = w /\
          st = WaitingStatus "waiting for pbm to start").
Proof.
  cbv zeta. rewrite get_pbm_status_run. cbn [result final calls fst snd].
  eexists. split; [reflexivity|].
  unfold poll_status, poll_calls.
  destruct (backup_service w); [|auto].
  split; [reflexivity|]. split; [reflexivity|].
  destruct (pbm_exec E (pbm_runs w) PBM_STATUS_CMD) as [out | e]; [reflexivity|].
  destruct e; (split; [reflexivity|]); split;
    try (intros out [Ho | Ho]; (discriminate Ho || (injection Ho as <-; reflexivity)));
    try reflexivity;
    intros Hn.
  - destruct (Hn stdout) as [Hn1 _]. congruence.
  - destruct (Hn output) as [_ Hn2]. congruence.
Qed.

(** X10.  What an action leaves behind.  An action that is turned away
    before the status check (no storage relation, no backup id for a
    restore, not the leader) changes nothing.  An action that reaches
    the check overwrites the unit's status with pbm's status as polled,
    whatever it is, and changes nothing else but the count of pbm runs.
    In both cases the event is answered at most once. *)
Theorem action_footprint (a : Action) (event : Event) (w : World) :
  let o := run_action E a event w in
  final o
  = (if reaches_status_check a (s3_relation w) (is_leader w) (params event !! "backup-id")
     then set_unit_status (poll_status E (backup_service w) (pbm_runs w)) (polled w)
     else w) /\
  event_answers (calls o) <= 1.
Proof.
  cbv zeta. unfold reaches_status_check, polled.
  destruct a; cbn [run_action is_restore mutating andb orb negb];
    unfold _on_create_backup_action, _on_list_backups_action, _on_restore_action; run;
    destruct (s3_relation w) eqn:Hs3; run; cbn [negb andb];
    try (split; [reflexivity | cbn; lia]).
  - destruct (is_leader w); run; [|split; [reflexivity | cbn; lia]].
    rewrite run_bind_get_pbm_status. cbv zeta. run. unfold poll_calls.
    destruct (poll_status E (backup_service w) (pbm_runs w)), (backup_service w);
      (split; [reflexivity | cbn; lia]).
  - rewrite run_bind_get_pbm_status. cbv zeta. run. unfold poll_calls.
    destruct (poll_status E (backup_service w) (pbm_runs w)), (backup_service w);
      (split; [reflexivity | cbn; lia]).
  - destruct (falsy (params event !! "backup-id")); run; cbn [negb andb];
      [split; [reflexivity | cbn; lia]|].
    destruct (is_leader w); run; [|split; [reflexivity | cbn; lia]].
    rewrite run_bind_get_pbm_status. cbv zeta. run. unfold poll_calls.
    destruct (poll_status E (backup_service w) (pbm_runs w)), (backup_service w);
      (split; [reflexivity | cbn; lia]).
Qed.

End StatusMore.

(* ===================================================================== *)
(** * Configuring pbm *)
(* ===================================================================== *)

(** ** The options handed to pbm *)

Lemma dict_set_fresh (k v : string) (d : Dict) :
  k ∉ map fst d -> dict_set k v d = d ++ [(k, v)].
Proof.
  induction d as [|[k' v'] d IH]; intros Hk; [reflexivity|].
  cbn [dict_set]. cbn [map fst] in Hk. apply not_elem_of_cons in Hk as [Hne Hk].
  destruct (String.eqb_spec k' k) as [-> | _]; [congruence|].
  rewrite IH by exact Hk. reflexivity.
Qed.

Lemma option_map_cases (k p : string) :
  dict_get k S3_PBM_OPTION_MAP = Some p ->
  In (k, p) S3_PBM_OPTION_MAP.
Proof.
  unfold S3_PBM_OPTION_MAP. cbn [dict_get].
  repeat match goal with
         | |- context [String.eqb ?a k] =>
             destruct (String.eqb_spec a k) as [<- | _];
             [intros [= <-]; cbn; tauto|]
         end.
  discriminate.
Qed.

Lemma option_map_inj (k1 k2 p : string) :
  dict_get k1 S3_PBM_OPTION_MAP = Some p ->
  dict_get k2 S3_PBM_OPTION_MAP = Some p ->
  k1 = k2.
Proof.
  intros H1%option_map_cases H2%option_map_cases.
  cbn in H1, H2.
  repeat match goal with
         | H : _ \/ _ |- _ => destruct H
         | H : False |- _ => destruct H
         end; simplify_eq; reflexivity.
Qed.

Lemma option_map_not_type (k : string) :
  dict_get k S3_PBM_OPTION_MAP <> Some "storage.type".
Proof.
  intros H%option_map_cases. cbn in H.
  repeat match goal with
         | H : _ \/ _ |- _ => destruct H
         | H : False |- _ => destruct H
         end; discriminate.
Qed.

Lemma known_options_cons (k v : string) (l : Dict) :
  known_options ((k, v) :: l)
  = match dict_get k S3_PBM_OPTION_MAP with
    | Some p => (p, v) :: known_options l
    | None => known_options l
    end.
Proof.
  unfold known_options. cbn [omap list_omap].
  destruct (dict_get k S3_PBM_OPTION_MAP); reflexivity.
Qed.

Lemma known_options_keys (credentials : Dict) (p : string) :
  p ∈ map fst (known_options credentials) ->
  exists k, k ∈ map fst credentials /\ dict_get k S3_PBM_OPTION_MAP = Some p.
Proof.
  induction credentials as [|[k v] l IH]; [intros H; inversion H|].
  rewrite known_options_cons.
  destruct (dict_get k S3_PBM_OPTION_MAP) as [q|] eqn:Hq; cbn [map fst].
  - intros [-> | H]%elem_of_cons.
    + exists k. split; [left | exact Hq].
    + destruct (IH H) as (k' & Hk' & Hp). exists k'. split; [right; exact Hk' | exact Hp].
  - intros H. destruct (IH H) as (k' & Hk' & Hp). exists k'. split; [right; exact Hk' | exact Hp].
Qed.

Lemma get_pbm_configs_fold (credentials acc : Dict) :
  NoDup (map fst credentials) ->
  (forall k p, k ∈ map fst credentials -> dict_get k S3_PBM_OPTION_MAP = Some p ->
               p ∉ map fst acc) ->
  fold_left
    (fun pbm_configs '(s3_option, s3_value) =>
       match dict_get s3_option S3_PBM_OPTION_MAP with
       | None => pbm_configs
       | Some pbm_key => dict_set pbm_key s3_value pbm_configs
       end)
    credentials acc
  = acc ++ known_options credentials.
Proof.
  revert acc. induction credentials as [|[k v] l IH]; intros acc Hnd Hfresh.
  { cbn. rewrite app_nil_r. reflexivity. }
  cbn [map fst] in Hnd. apply NoDup_cons in Hnd as [Hk Hnd].
  cbn [fold_left]. rewrite known_options_cons.
  destruct (dict_get k S3_PBM_OPTION_MAP) as [p|] eqn:Hp.
  - rewrite dict_set_fresh by (apply (Hfresh k p); [left | exact Hp]).
    rewrite IH; [rewrite <- app_assoc; reflexivity | exact Hnd |].
    intros k' p' Hk' Hp'. rewrite map_app. cbn [map fst].
    intros [H | H]%elem_of_app.
    + apply (Hfresh k' p'); [right; exact Hk' | exact Hp' | exact H].
    + apply list_elem_of_singleton in H. subst p'.
      apply Hk. rewrite (option_map_inj k k' p Hp Hp'). exact Hk'.
  - apply IH; [exact Hnd|].
    intros k' p' Hk' Hp'. apply (Hfresh k' p'); [right; exact Hk' | exact Hp'].
Qed.

Lemma known_options_NoDup (credentials : Dict) :
  NoDup (map fst credentials) -> NoDup (map fst (known_options credentials)).
Proof.
  induction credentials as [|[k v] l IH]; [constructor|].
  rewrite known_options_cons. cbn [map fst].
  intros [Hk Hnd]%NoDup_cons.
  destruct (dict_get k S3_PBM_OPTION_MAP) as [p|] eqn:Hp; [|exact (IH Hnd)].
  cbn [map fst]. apply NoDup_cons. split; [|exact (IH Hnd)].
  intros (k' & Hk' & Hp')%known_options_keys.
  apply Hk. rewrite (option_map_inj k k' p Hp Hp'). exact Hk'.
Qed.

(** X11.  The options handed to pbm.  For connection info whose keys
    are distinct, as the keys of a dictionary are, [_get_pbm_configs]
    yields ["storage.type"] set to ["s3"] first and then, in the order of
    the connection info, each option that [S3_PBM_OPTION_MAP] knows
    under pbm's name with its value unchanged; options the map does not
    know are dropped, and no pbm option appears twice. *)
Theorem pbm_configs_in_order (credentials : Dict) :
  NoDup (map fst credentials) ->
  _get_pbm_configs credentials = ("storage.type", "s3") :: known_options credentials /\
  NoDup (map fst (_get_pbm_configs credentials)) /\
  (forall s3_option, dict_get s3_option S3_PBM_OPTION_MAP = None ->
     forall v, known_options (credentials ++ [(s3_option, v)]) = known_options credentials).
Proof.
  intros Hnd.
  assert (Heq : _get_pbm_configs credentials
                = ("storage.type", "s3") :: known_options credentials).
  { unfold _get_pbm_configs. rewrite get_pbm_configs_fold; [reflexivity | exact Hnd |].
    intros k p _ Hp. cbn [map fst]. intros H%list_elem_of_singleton. subst p.
    exact (option_map_not_type k Hp). }
  split; [exact Heq|]. split.
  - rewrite Heq. cbn [map fst]. apply NoDup_cons. split; [|apply known_options_NoDup, Hnd].
    intros (k & _ & Hp)%known_options_keys. exact (option_map_not_type k Hp).
  - intros s3_option Hnone v.
    assert (H1 : known_options [(s3_option, v)] = [])
      by (rewrite known_options_cons, Hnone; reflexivity).
    unfold known_options in *. rewrite omap_app, H1. apply app_nil_r.
Qed.

(** ** Setting the options *)

Lemma ran_S (n : nat) (w : World) :
  ran n (set_pbm_runs (S (pbm_runs w)) w) = ran (S n) w.
Proof.
  unfold ran. symmetry.
  exact (Nat.iter_succ_r n (fun w' => set_pbm_runs (S (pbm_runs w')) w') w).
Qed.

Lemma ran_1 (n : nat) (w : World) : ran n (ran 1 w) = ran (S n) w.
Proof. exact (ran_S n w). Qed.

Lemma ran_fields (n : nat) (w : World) :
  pbm_runs (ran n w) = pbm_runs w + n /\
  unit_status (ran n w) = unit_status w /\
  keeps_model w (set_pbm_runs (pbm_runs w) (ran n w)) /\
  replset (ran n w) = replset w.
Proof.
  induction n as [|n (IH1 & IH2 & IH3 & IH4)].
  - cbn. rewrite Nat.add_0_r. repeat split.
  - change (ran (S n) w) with (set_pbm_runs (S (pbm_runs (ran n w))) (ran n w)).
    cbn [pbm_runs unit_status replset set_pbm_runs].
    rewrite IH1. split; [lia|]. split; [exact IH2|]. split; [|exact IH4].
    destruct IH3 as (H1 & H2 & H3 & H4 & H5 & H6 & H7).
    repeat split; assumption.
Qed.

Lemma run_bind_fail {S A B} (m : M S A) (f : A -> M S B) (w w1 : S) (e : Exn)
    (t1 : list Call) :
  m w = (Raise e, w1, t1) -> bind m f w = (Raise e, w1, t1).
Proof. intros H. unfold bind. rewrite H. reflexivity. Qed.

Section ConfigureFacts.

Context (E : Env).

Lemma set_pbm_config_file_run (w : World) :
  set_pbm_config_file E w
  = match pbm_exec E (pbm_runs w) CONFIG_FILE_CMD with
    | PbmStdout _ => (Ret tt, ran 1 w, [RunPbmCommand CONFIG_FILE_CMD])
    | PbmRaises (ExecError out) =>
        (Ret tt, set_unit_status (BlockedStatus (process_pbm_error E out)) (ran 1 w),
         [RunPbmCommand CONFIG_FILE_CMD])
    | PbmRaises e => (Raise e, ran 1 w, [RunPbmCommand CONFIG_FILE_CMD])
    end.
Proof.
  unfold set_pbm_config_file, run_pbm_command. rewrite run_try_except. run.
  destruct (pbm_exec E (pbm_runs w) CONFIG_FILE_CMD) as [out | e]; run; [reflexivity|].
  destruct e; reflexivity.
Qed.

Lemma set_option_run (option : string * string) (w : World) :
  try_except
    (run_pbm_command E (config_cmd option) ;; ret tt)
    (fun e =>
       match e with
       | CalledProcessError _ | ExecError _ => Some (raise SetPBMConfigError)
       | _ => None
       end) w
  = (match pbm_exec E (pbm_runs w) (config_cmd option) with
     | PbmStdout _ => Ret tt
     | PbmRaises e => Raise (if is_process_error e then SetPBMConfigError else e)
     end, ran 1 w, [RunPbmCommand (config_cmd option)]).
Proof.
  unfold run_pbm_command. rewrite run_try_except. run.
  destruct (pbm_exec E (pbm_runs w) (config_cmd option)) as [out | e]; run; [reflexivity|].
  destruct e; reflexivity.
Qed.

(** The loop while the commands succeed, and at the first that fails. *)
Lemma set_options_run (pbm_configs : Dict) :
  forall w,
    (forall i option, pbm_configs !! i = Some option ->
       exists out, pbm_exec E (pbm_runs w + i) (config_cmd option) = PbmStdout out) ->
    set_options E pbm_configs w
    = (Ret tt, ran (length pbm_configs) w, map RunPbmCommand (map config_cmd pbm_configs)).
Proof.
  induction pbm_configs as [|option rest IH]; intros w Hok; [reflexivity|].
  cbn [set_options].
  destruct (Hok 0 option eq_refl) as [out Hout]. rewrite Nat.add_0_r in Hout.
  erewrite run_bind_eq by (rewrite set_option_run, Hout; reflexivity).
  rewrite IH.
  - cbn [result final calls fst snd length map app].
    rewrite ran_1. reflexivity.
  - intros i o Hi. destruct (Hok (S i) o Hi) as [out' Ho'].
    exists out'. rewrite <- Ho'. f_equal.
    destruct (ran_fields 1 w) as [-> _]. lia.
Qed.

Lemma set_options_fail (done : Dict) (option : string * string) (rest : Dict) (e : Exn) :
  forall w,
    (forall i o, done !! i = Some o ->
       exists out, pbm_exec E (pbm_runs w + i) (config_cmd o) = PbmStdout out) ->
    pbm_exec E (pbm_runs w + length done) (config_cmd option) = PbmRaises e ->
    set_options E (done ++ option :: rest) w
    = (Raise (if is_process_error e then SetPBMConfigError else e),
       ran (S (length done)) w,
       map RunPbmCommand (map config_cmd (done ++ [option]))).
Proof.
  induction done as [|o done IH]; intros w Hok He.
  - cbn [app set_options length] in *. rewrite Nat.add_0_r in He.
    apply run_bind_fail. rewrite set_option_run, He. reflexivity.
  - cbn [app set_options length] in *.
    destruct (Hok 0 o eq_refl) as [out Hout]. rewrite Nat.add_0_r in Hout.
    erewrite run_bind_eq by (rewrite set_option_run, Hout; reflexivity).
    rewrite IH.
    + cbn [result final calls fst snd length map app].
      rewrite ran_1. reflexivity.
    + intros i o' Hi. destruct (Hok (S i) o' Hi) as [out' Ho'].
      exists out'. rewrite <- Ho'. f_equal.
      destruct (ran_fields 1 w) as [-> _]. lia.
    + rewrite <- He. f_equal. destruct (ran_fields 1 w) as [-> _]. lia.
Qed.

Lemma set_pbm_config_file_ok (w : World) :
  (forall e, pbm_exec E (pbm_runs w) CONFIG_FILE_CMD = PbmRaises e ->
             exists out, e = ExecError out) ->
  exists w1,
    set_pbm_config_file E w = (Ret tt, w1, [RunPbmCommand CONFIG_FILE_CMD]) /\
    pbm_runs w1 = pbm_runs w + 1 /\
    unit_status w1
    = match pbm_exec E (pbm_runs w) CONFIG_FILE_CMD with
      | PbmRaises (ExecError out) => BlockedStatus (process_pbm_error E out)
      | _ => unit_status w
      end.
Proof.
  intros H0. rewrite set_pbm_config_file_run.
  destruct (ran_fields 1 w) as (Hr & Hs & _).
  destruct (pbm_exec E (pbm_runs w) CONFIG_FILE_CMD) as [out | e].
  - exists (ran 1 w). auto.
  - destruct (H0 e eq_refl) as [out ->].
    eexists. split; [reflexivity|]. cbn [pbm_runs unit_status set_unit_status]. auto.
Qed.

(** X12.  Setting the options stops at the first failure.  Provided the
    command that makes pbm read its configuration file does not fail
    with anything but [ExecError], [_set_config_options] issues that
    command and then one [config --set key=value] per option, in the
    order of [_get_pbm_configs].  If every one succeeds it returns.  At
    the first one that fails nothing further is issued, and the failure
    is raised as [SetPBMConfigError] when it is an [ExecError] or a
    [CalledProcessError] and unchanged otherwise.  An [ExecError] of the
    configuration-file command does not stop the options from being
    set; it leaves the unit blocked with pbm's error. *)
Theorem config_stops_at_first_failure (credentials : Dict) (w : World) :
  (forall e, pbm_exec E (pbm_runs w) CONFIG_FILE_CMD = PbmRaises e ->
             exists out, e = ExecError out) ->
  let pbm_configs := _get_pbm_configs credentials in
  let o := _set_config_options E credentials w in
  ((forall i option, pbm_configs !! i = Some option ->
      exists out, pbm_exec E (pbm_runs w + 1 + i) (config_cmd option) = PbmStdout out) ->
   result o = Ret tt /\
   calls o = map RunPbmCommand (config_cmds pbm_configs) /\
   pbm_runs (final o) = pbm_runs w + 1 + length pbm_configs) /\
  (forall j option e,
      pbm_configs !! j = Some option ->
      (forall i o', i < j -> pbm_configs !! i = Some o' ->
         exists out, pbm_exec E (pbm_runs w + 1 + i) (config_cmd o') = PbmStdout out) ->
      pbm_exec E (pbm_runs w + 1 + j) (config_cmd option) = PbmRaises e ->
      result o = Raise (if is_process_error e then SetPBMConfigError else e) /\
      calls o = map RunPbmCommand (config_cmds (take (S j) pbm_configs)) /\
      pbm_runs (final o) = pbm_runs w + 2 + j) /\
  unit_status (final o)
  = match pbm_exec E (pbm_runs w) CONFIG_FILE_CMD with
    | PbmRaises (ExecError out) => BlockedStatus (process_pbm_error E out)
    | _ => unit_status w
    end.
Proof.
  intros H0. cbv zeta.
  destruct (set_pbm_config_file_ok w H0) as (w1 & Hfile & Hruns & Hstatus).
  unfold _set_config_options.
  rewrite (run_bind_eq _ _ _ _ _ _ Hfile).
  cbn [result final calls fst snd].
  split; [|split].
  - intros Hok. rewrite set_options_run.
    + cbn [result final calls fst snd]. split; [reflexivity|]. split; [reflexivity|].
      destruct (ran_fields (length (_get_pbm_configs credentials)) w1) as [-> _]. lia.
    + intros i o Hi. rewrite Hruns. exact (Hok i o Hi).
  - intros j option e Hj Hbefore He.
    pose proof (take_drop_middle _ _ _ Hj) as Hsplit.
    assert (Hlen : length (take j (_get_pbm_configs credentials)) = j).
    { apply length_take_le. apply lookup_lt_Some in Hj. lia. }
    pose proof (set_options_fail (take j (_get_pbm_configs credentials)) option
                  (drop (S j) (_get_pbm_configs credentials)) e w1) as Hrun.
    rewrite Hsplit in Hrun. rewrite Hrun.
    + cbn [result final calls fst snd]. split; [reflexivity|]. split.
      * unfold config_cmds. cbn [map app]. do 3 f_equal.
        rewrite (take_S_r _ _ _ Hj). reflexivity.
      * destruct (ran_fields (S (length (take j (_get_pbm_configs credentials)))) w1)
          as [-> _]. lia.
    + intros i o Hi. rewrite Hruns.
      apply lookup_take_Some in Hi as [Hi Hlt]. exact (Hbefore i o Hlt Hi).
    + rewrite Hruns, Hlen. exact He.
  - assert (Hst : forall l w2, unit_status (final (set_options E l w2)) = unit_status w2).
    { induction l as [|o l IH]; intros w2; [reflexivity|].
      cbn [set_options]. rewrite final_bind.
      rewrite set_option_run. cbn [result final fst snd].
      destruct (ran_fields 1 w2) as (_ & Hs & _).
      destruct (pbm_exec E (pbm_runs w2) (config_cmd o)); [rewrite IH|]; exact Hs. }
    rewrite Hst. exact Hstatus.
Qed.

End ConfigureFacts.

(* ===================================================================== *)
(** * Waiting for a resync *)
(* ===================================================================== *)

Lemma pbm_runs_resynced (w : World) : pbm_runs (resynced w) = pbm_runs w + 1.
Proof. exact (proj1 (ran_fields 1 w)). Qed.

Lemma resynced_iter (j : nat) (w : World) :
  pbm_runs (Nat.iter j resynced w) = pbm_runs w + j /\
  unit_status (Nat.iter (S j) resynced w)
  = WaitingStatus "waiting to sync s3 configurations.".
Proof.
  split; [|reflexivity].
  induction j as [|j IH]; [cbn; lia|].
  change (Nat.iter (S j) resynced w) with (resynced (Nat.iter j resynced w)).
  rewrite pbm_runs_resynced. lia.
Qed.

Lemma resynced_iter_r (j : nat) (w : World) :
  Nat.iter j resynced (resynced w) = Nat.iter (S j) resynced w.
Proof. symmetry. apply Nat.iter_succ_r. Qed.

Lemma iter_add {A} (f : A -> A) (a b : nat) (x : A) :
  Nat.iter a f (Nat.iter b f x) = Nat.iter (b + a) f x.
Proof.
  rewrite (Nat.add_comm b a). symmetry. apply Nat.iter_add.
Qed.

Lemma retrying_ret {S A} (more wait : nat) (retry_on : Exn -> bool) (body : M S A)
    (w w1 : S) (a : A) (t : list Call) :
  body w = (Ret a, w1, t) -> retrying more wait retry_on body w = (Ret a, w1, t).
Proof.
  intros H. destruct more; cbn [retrying]; rewrite run_try_except, H; reflexivity.
Qed.

Lemma retrying_not_retried {S A} (more wait : nat) (retry_on : Exn -> bool) (body : M S A)
    (w w1 : S) (e : Exn) (t : list Call) :
  body w = (Raise e, w1, t) -> retry_on e = false ->
  retrying more wait retry_on body w = (Raise e, w1, t).
Proof.
  intros H He. destruct more; cbn [retrying]; rewrite run_try_except, H;
    cbn [result final calls fst snd]; rewrite He; reflexivity.
Qed.

Lemma count_polls (k : nat) :
  count_occ Call_eq_dec (polls k) (RunPbmCommand PBM_STATUS_CMD) = S k.
Proof.
  induction k as [|k IH]; [reflexivity|].
  cbn [polls]. rewrite count_occ_cons_eq by reflexivity.
  rewrite count_occ_cons_neq by discriminate. rewrite IH. reflexivity.
Qed.

Section WaitFacts.

Context (E : Env).

Lemma wait_unfold :
  _wait_pbm_status E
  = Retrying 20 0 is_ResyncError (Retrying 3 5 any_exception (wait_attempt E)).
Proof. reflexivity. Qed.

Lemma wait_attempt_run (w : World) :
  wait_attempt E w
  = match pbm_exec E (pbm_runs w) PBM_STATUS_CMD with
    | PbmStdout stdout =>
        if contains "Resync" (current_pbm_op E stdout)
        then (Raise ResyncError, resynced w, [RunPbmCommand PBM_STATUS_CMD])
        else (Ret tt, ran 1 w, [RunPbmCommand PBM_STATUS_CMD])
    | PbmRaises (ExecError stdout) =>
        (Ret tt, set_unit_status (BlockedStatus (process_pbm_error E stdout)) (ran 1 w),
         [RunPbmCommand PBM_STATUS_CMD])
    | PbmRaises e => (Raise e, ran 1 w, [RunPbmCommand PBM_STATUS_CMD])
    end.
Proof.
  unfold wait_attempt, run_pbm_command. rewrite run_try_except. run.
  destruct (pbm_exec E (pbm_runs w) PBM_STATUS_CMD) as [out | e]; run.
  - destruct (contains "Resync" (current_pbm_op E out)); run; reflexivity.
  - destruct e; reflexivity.
Qed.

Lemma wait_attempt_resyncing (w : World) :
  resyncing E (pbm_runs w) = true ->
  wait_attempt E w = (Raise ResyncError, resynced w, [RunPbmCommand PBM_STATUS_CMD]).
Proof.
  unfold resyncing. intros H. rewrite wait_attempt_run.
  destruct (pbm_exec E (pbm_runs w) PBM_STATUS_CMD); [rewrite H; reflexivity | discriminate].
Qed.

Lemma wait_attempt_settled (w : World) :
  settled E (pbm_runs w) = true ->
  exists w',
    wait_attempt E w = (Ret tt, w', [RunPbmCommand PBM_STATUS_CMD]) /\
    pbm_runs w' = pbm_runs w + 1.
Proof.
  unfold settled. intros H. rewrite wait_attempt_run.
  destruct (ran_fields 1 w) as [Hr _].
  destruct (pbm_exec E (pbm_runs w) PBM_STATUS_CMD) as [out | e].
  - apply negb_true_iff in H. rewrite H. eauto.
  - destruct e; try discriminate. eexists. split; [reflexivity|]. exact Hr.
Qed.

(** The loop of three attempts, generalised to [more + 1]. *)
Lemma polls_resyncing (more : nat) :
  forall w,
    (forall i, i <= more -> resyncing E (pbm_runs w + i) = true) ->
    retrying more 5 any_exception (wait_attempt E) w
    = (Raise ResyncError, Nat.iter (S more) resynced w, polls more).
Proof.
  induction more as [|more IH]; intros w Hall.
  - cbn [retrying]. rewrite run_try_except, wait_attempt_resyncing; [reflexivity|].
    rewrite <- (Nat.add_0_r (pbm_runs w)). apply Hall. lia.
  - cbn [retrying]. rewrite run_try_except, wait_attempt_resyncing
      by (rewrite <- (Nat.add_0_r (pbm_runs w)); apply Hall; lia).
    cbn [result final calls fst snd any_exception].
    rewrite run_bind_call, IH.
    + cbn [result final calls fst snd polls app]. rewrite resynced_iter_r. reflexivity.
    + intros i Hi. rewrite pbm_runs_resynced. replace (pbm_runs w + 1 + i) with (pbm_runs w + S i) by lia.
      apply Hall. lia.
Qed.

Lemma polls_settled (more : nat) :
  forall k w,
    k <= more ->
    (forall i, i < k -> resyncing E (pbm_runs w + i) = true) ->
    settled E (pbm_runs w + k) = true ->
    exists w',
      retrying more 5 any_exception (wait_attempt E) w = (Ret tt, w', polls k) /\
      pbm_runs w' = pbm_runs w + S k.
Proof.
  induction more as [|more IH]; intros k w Hk Hres Hset.
  - assert (k = 0) as -> by lia. rewrite Nat.add_0_r in Hset.
    destruct (wait_attempt_settled w Hset) as (w' & Hw' & Hr).
    exists w'. split; [|lia]. cbn [retrying]. rewrite run_try_except, Hw'. reflexivity.
  - destruct k as [|k].
    + rewrite Nat.add_0_r in Hset.
      destruct (wait_attempt_settled w Hset) as (w' & Hw' & Hr).
      exists w'. split; [|lia]. cbn [retrying]. rewrite run_try_except, Hw'. reflexivity.
    + pose proof (pbm_runs_resynced w) as Hr.
      destruct (IH k (resynced w)) as (w' & Hw' & Hr'); [lia | | |].
      * intros i Hi. rewrite Hr. replace (pbm_runs w + 1 + i) with (pbm_runs w + S i) by lia.
        apply Hres. lia.
      * rewrite Hr. replace (pbm_runs w + 1 + k) with (pbm_runs w + S k) by lia. exact Hset.
      * exists w'. split; [|lia].
        cbn [retrying]. rewrite run_try_except, wait_attempt_resyncing
          by (rewrite <- (Nat.add_0_r (pbm_runs w)); apply Hres; lia).
        cbn [result final calls fst snd any_exception].
        rewrite run_bind_call, Hw'. reflexivity.
Qed.

(** The rounds of the decorator around the loop. *)
Lemma rounds_resyncing (more : nat) :
  forall w,
    (forall i, i < 3 * S more -> resyncing E (pbm_runs w + i) = true) ->
    retrying more 0 is_ResyncError (retrying 2 5 any_exception (wait_attempt E)) w
    = (Raise ResyncError, Nat.iter (3 * S more) resynced w, exhausted_wait more).
Proof.
  induction more as [|more IH]; intros w Hall.
  - cbn [retrying]. rewrite run_try_except.
    fold (retrying 2 5 any_exception (wait_attempt E)).
    rewrite polls_resyncing by (intros i Hi; apply Hall; lia). reflexivity.
  - change (retrying (S more) 0 is_ResyncError
              (retrying 2 5 any_exception (wait_attempt E)) w)
      with (try_except (retrying 2 5 any_exception (wait_attempt E))
              (fun e => if is_ResyncError e
                        then Some (call (Sleep 0) ;;
                                   retrying more 0 is_ResyncError
                                     (retrying 2 5 any_exception (wait_attempt E)))
                        else None) w).
    rewrite run_try_except.
    rewrite polls_resyncing by (intros i Hi; apply Hall; lia).
    cbn [result final calls fst snd is_ResyncError].
    rewrite run_bind_call, IH.
    + cbn [result final calls fst snd exhausted_wait].
      rewrite iter_add.
      replace (3 + 3 * S more) with (3 * S (S more)) by lia. reflexivity.
    + intros i Hi. destruct (resynced_iter 3 w) as [-> _].
      replace (pbm_runs w + 3 + i) with (pbm_runs w + (3 + i)) by lia.
      apply Hall. lia.
Qed.

Lemma rounds_settled (more : nat) :
  forall k w,
    k < 3 * S more ->
    (forall i, i < k -> resyncing E (pbm_runs w + i) = true) ->
    settled E (pbm_runs w + k) = true ->
    exists w' t,
      retrying more 0 is_ResyncError (retrying 2 5 any_exception (wait_attempt E)) w
      = (Ret tt, w', t) /\
      pbm_runs w' = pbm_runs w + S k /\
      count_occ Call_eq_dec t (RunPbmCommand PBM_STATUS_CMD) = S k.
Proof.
  induction more as [|more IH]; intros k w Hk Hres Hset.
  - destruct (polls_settled 2 k w ltac:(lia) Hres Hset) as (w' & Hw' & Hr).
    exists w', (polls k). split; [|split; [exact Hr | apply count_polls]].
    apply retrying_ret. exact Hw'.
  - destruct (le_lt_dec k 2) as [Hle | Hgt].
    + destruct (polls_settled 2 k w Hle Hres Hset) as (w' & Hw' & Hr).
      exists w', (polls k). split; [|split; [exact Hr | apply count_polls]].
      apply retrying_ret. exact Hw'.
    + destruct (resynced_iter 3 w) as [Hr3 _].
      destruct (IH (k - 3) (Nat.iter 3 resynced w)) as (w' & t & Hw' & Hr & Hc); [lia | | |].
      * intros i Hi. rewrite Hr3.
        replace (pbm_runs w + 3 + i) with (pbm_runs w + (3 + i)) by lia. apply Hres. lia.
      * rewrite Hr3. replace (pbm_runs w + 3 + (k - 3)) with (pbm_runs w + k) by lia.
        exact Hset.
      * exists w', (polls 2 ++ Sleep 0 :: t). split; [|split].
        -- change (retrying (S more) 0 is_ResyncError
                     (retrying 2 5 any_exception (wait_attempt E)) w)
             with (try_except (retrying 2 5 any_exception (wait_attempt E))
                     (fun e => if is_ResyncError e
                               then Some (call (Sleep 0) ;;
                                          retrying more 0 is_ResyncError
                                            (retrying 2 5 any_exception (wait_attempt E)))
                               else None) w).
           rewrite run_try_except.
           rewrite polls_resyncing by (intros i Hi; apply Hres; lia).
           cbn [result final calls fst snd is_ResyncError].
           rewrite run_bind_call, Hw'. reflexivity.
        -- rewrite Hr, Hr3. lia.
        -- rewrite count_occ_app, count_polls.
           rewrite count_occ_cons_neq by discriminate. rewrite Hc. lia.
Qed.

(** X13.  The wait after a resync is bounded.  [_wait_pbm_status]
    polls pbm's status until a poll shows no resync, at most 60 times:
    twenty rounds of three polls, five seconds apart inside a round.  It
    returns at the first poll that shows no resync, after exactly that
    many polls.  If all 60 show a resync it raises [ResyncError] and
    leaves the unit waiting with "waiting to sync s3 configurations.".
    An [ExecError] of the poll is not retried: the unit is blocked with
    pbm's error and the function returns at once. *)
Theorem wait_for_resync_bounded (w : World) :
  let o := _wait_pbm_status E w in
  let count := count_occ Call_eq_dec (calls o) in
  (forall k,
      k < 60 ->
      (forall i, i < k -> resyncing E (pbm_runs w + i) = true) ->
      settled E (pbm_runs w + k) = true ->
      result o = Ret tt /\
      pbm_runs (final o) = pbm_runs w + S k /\
      count (RunPbmCommand PBM_STATUS_CMD) = S k) /\
  ((forall i, i < 60 -> resyncing E (pbm_runs w + i) = true) ->
   result o = Raise ResyncError /\
   calls o = exhausted_wait 19 /\
   pbm_runs (final o) = pbm_runs w + 60 /\
   unit_status (final o) = WaitingStatus "waiting to sync s3 configurations.") /\
  (forall out,
      pbm_exec E (pbm_runs w) PBM_STATUS_CMD = PbmRaises (ExecError out) ->
      o = (Ret tt, set_unit_status (BlockedStatus (process_pbm_error E out)) (ran 1 w),
           [RunPbmCommand PBM_STATUS_CMD])).
Proof.
  cbv zeta. rewrite wait_unfold. unfold Retrying. cbn [pred].
  split; [|split].
  - intros k Hk Hres Hset.
    destruct (rounds_settled 19 k w ltac:(lia) Hres Hset) as (w' & t & -> & Hr & Hc).
    cbn [result final calls fst snd]. auto.
  - intros Hall. rewrite rounds_resyncing by (intros i Hi; apply Hall; lia).
    cbn [result final calls fst snd]. split; [reflexivity|]. split; [reflexivity|].
    destruct (resynced_iter 59 w) as [H1 H2].
    change (3 * 20) with 60.
    destruct (resynced_iter 60 w) as [-> _]. split; [reflexivity|]. exact H2.
  - intros out Hout. apply retrying_ret, retrying_ret.
    rewrite wait_attempt_run, Hout. reflexivity.
Qed.

End WaitFacts.

(* ===================================================================== *)
(** * The resync and the handler of the storage credentials *)
(* ===================================================================== *)

Section ResyncFacts.

Context (E : Env).

Lemma precheck_attempt_free (w : World) :
  is_busy (poll_status E (backup_service w) (pbm_runs w)) = false ->
  precheck_attempt E w = (Ret tt, polled w, poll_calls (backup_service w)).
Proof.
  intros Hb. rewrite precheck_attempt_run. cbv zeta. unfold is_busy in Hb.
  apply orb_false_iff in Hb as [-> ->]. reflexivity.
Qed.

(** The pre-check loop that finds pbm free after [k] busy attempts. *)
Lemma retrying_free (more : nat) :
  forall k w,
    k <= more ->
    forallb is_busy (attempt_statuses E w k) = true ->
    is_busy (poll_status E (backup_service (Nat.iter k polled w))
               (pbm_runs (Nat.iter k polled w))) = false ->
    retrying more 5 any_exception (precheck_attempt E) w
    = (Ret tt, Nat.iter (S k) polled w, free_trace E w k).
Proof.
  induction more as [|more IH]; intros k w Hk Hbusy Hfree.
  - assert (k = 0) as -> by lia. apply retrying_ret, precheck_attempt_free, Hfree.
  - destruct k as [|k]; [apply retrying_ret, precheck_attempt_free, Hfree|].
    cbn [attempt_statuses forallb] in Hbusy. apply andb_true_iff in Hbusy as [Hb Hbusy].
    cbn [retrying]. rewrite run_try_except, precheck_attempt_busy by exact Hb.
    cbn [result final calls fst snd any_exception].
    rewrite run_bind_call, (IH k (polled w)).
    + cbn [result final calls fst snd free_trace].
      rewrite <- !Nat.iter_succ_r. reflexivity.
    + lia.
    + exact Hbusy.
    + rewrite <- Nat.iter_succ_r. exact Hfree.
Qed.

Lemma free_trace_counts (k : nat) :
  forall w,
    count_occ Call_eq_dec (free_trace E w k) (RunPbmCommand FORCE_RESYNC_CMD) = 0 /\
    count_occ Call_eq_dec (free_trace E w k) GetBackupService = S k /\
    count_occ Call_eq_dec (free_trace E w k) StartBackupService = 0.
Proof.
  induction k as [|k IH]; intros w.
  - cbn [free_trace]. unfold poll_calls. destruct (backup_service w); repeat split.
  - cbn [free_trace]. rewrite !count_occ_app.
    destruct (count_busy_attempt E w) as (H1 & _ & H3 & _).
    destruct (IH (polled w)) as (I1 & I2 & I3).
    rewrite !count_occ_cons_neq by discriminate.
    rewrite H1, H3, I1, I2, I3. split; [reflexivity|]. split; [reflexivity|].
    unfold busy_attempt_calls, poll_calls.
    destruct (backup_service w), (is_MaintenanceStatus _); reflexivity.
Qed.

(** The operation when the pre-check finds pbm free after [k] busy
    attempts. *)
Lemma resync_run (k : nat) (w : World) :
  k < 20 ->
  forallb is_busy (attempt_statuses E w k) = true ->
  is_busy (poll_status E (backup_service (Nat.iter k polled w))
             (pbm_runs (Nat.iter k polled w))) = false ->
  _resync_config_options E w
  = match pbm_exec E (pbm_runs (Nat.iter (S k) polled w)) FORCE_RESYNC_CMD with
    | PbmStdout _ =>
        let o2 := _wait_pbm_status E (ran 1 (Nat.iter (S k) polled w)) in
        (result o2, final o2,
         (StartBackupService :: free_trace E w k)
           ++ RunPbmCommand FORCE_RESYNC_CMD :: Sleep 2 :: calls o2)
    | PbmRaises e =>
        (Raise e, ran 1 (Nat.iter (S k) polled w),
         (StartBackupService :: free_trace E w k) ++ [RunPbmCommand FORCE_RESYNC_CMD])
    end.
Proof.
  intros Hk Hbusy Hfree.
  unfold _resync_config_options, start_backup_service, Retrying. cbn [pred].
  rewrite run_bind_call.
  rewrite (run_bind_eq _ _ _ _ _ _ (retrying_free 19 k w ltac:(lia) Hbusy Hfree)).
  cbn [result final calls fst snd].
  unfold run_pbm_command. run.
  destruct (pbm_exec E (pbm_runs (Nat.iter (S k) polled w)) FORCE_RESYNC_CMD) as [out | e];
    run; reflexivity.
Qed.

(** X14.  The resync is asked for after a free poll.  When pbm is busy
    on the first [k] polls of the pre-check, with [k] below 20, and free
    on the next, [_resync_config_options] starts the service, makes
    exactly those [k + 1] polls, five seconds apart, and then asks pbm
    once to resync.  If that command fails its exception is raised and
    nothing follows; otherwise the operation sleeps two seconds and ends
    as the wait for the resync ends. *)
Theorem resync_after_free_poll (k : nat) (w : World) :
  k < 20 ->
  forallb is_busy (attempt_statuses E w k) = true ->
  is_busy (poll_status E (backup_service (Nat.iter k polled w))
             (pbm_runs (Nat.iter k polled w))) = false ->
  let w1 := Nat.iter (S k) polled w in
  let before := StartBackupService :: free_trace E w k in
  _resync_config_options E w
  = match pbm_exec E (pbm_runs w1) FORCE_RESYNC_CMD with
    | PbmStdout _ =>
        let o2 := _wait_pbm_status E (ran 1 w1) in
        (result o2, final o2,
         before ++ RunPbmCommand FORCE_RESYNC_CMD :: Sleep 2 :: calls o2)
    | PbmRaises e => (Raise e, ran 1 w1, before ++ [RunPbmCommand FORCE_RESYNC_CMD])
    end /\
  count_occ Call_eq_dec before (RunPbmCommand FORCE_RESYNC_CMD) = 0 /\
  count_occ Call_eq_dec before GetBackupService = S k.
Proof.
  intros Hk Hbusy Hfree. cbv zeta. split.
  - apply resync_run; assumption.
  - destruct (free_trace_counts k w) as (H1 & H2 & _).
    rewrite !count_occ_cons_neq by discriminate. auto.
Qed.

End ResyncFacts.

Lemma run_bind_try {S A B} (m : M S A) (h : Exn -> option (M S A)) (f : A -> M S B)
    (w : S) :
  bind (try_except m h) f w
  = match result (m w) with
    | Ret a =>
        let o := f a (final (m w)) in (result o, final o, calls (m w) ++ calls o)
    | Raise e =>
        match h e with
        | Some k =>
            let o := bind k f (final (m w)) in (result o, final o, calls (m w) ++ calls o)
        | None => (Raise e, final (m w), calls (m w))
        end
    end.
Proof.
  unfold bind at 1. rewrite run_try_except.
  destruct (m w) as [[[a|e] w1] t1]; cbn [result final calls fst snd].
  - destruct (f a w1) as [[r w2] t2]. reflexivity.
  - destruct (h e) as [k|]; [|reflexivity].
    cbv zeta. unfold bind.
    destruct (k w1) as [[[a|e'] w2] t2]; cbn [result final calls fst snd].
    + destruct (f a w2) as [[r w3] t3]. cbn [result final calls fst snd].
      rewrite app_assoc. reflexivity.
    + reflexivity.
Qed.

Section CredentialsFacts.

Context (E : Env).

Lemma configure_unfold (event : Event) (credentials : Dict) :
  _configure_pbm_options E event credentials
  = (let* go_on :=
       try_except (configure_attempt E credentials)
         (fun e =>
            match e with
            | SetPBMConfigError =>
                Some (modify (set_unit_status
                                (BlockedStatus "couldn't configure s3 backup options.")) ;;
                      ret false)
            | ResyncError =>
                Some (modify (set_unit_status
                                (WaitingStatus "waiting to sync s3 configurations.")) ;;
                      call Defer ;;
                      ret false)
            | PBMBusyError =>
                Some (modify (set_unit_status
                                (WaitingStatus "waiting to sync s3 configurations.")) ;;
                      call Defer ;;
                      ret false)
            | ExecError stdout =>
                Some (modify (set_unit_status (BlockedStatus (process_pbm_error E stdout))) ;;
                      ret false)
            | CalledProcessError _ => Some (ret true)
            | _ => None
            end) in
     if negb go_on then ret tt
     else
       let* pbm_status := _get_pbm_status E in
       modify (set_unit_status pbm_status)).
Proof. reflexivity. Qed.

Lemma configure_attempt_true (credentials : Dict) (w : World) (a : bool) :
  result (configure_attempt E credentials w) = Ret a -> a = true.
Proof.
  unfold configure_attempt. rewrite !result_bind.
  destruct (result (_set_config_options E credentials w)); [|discriminate].
  destruct (result (_resync_config_options E _)); [|discriminate].
  rewrite run_ret. cbn. congruence.
Qed.

(** The last statement of [_configure_pbm_options]. *)
Lemma report_run (w : World) :
  (let* pbm_status := _get_pbm_status E in modify (set_unit_status pbm_status)) w
  = (Ret tt,
     set_unit_status (poll_status E (backup_service w) (pbm_runs w)) (polled w),
     poll_calls (backup_service w)).
Proof.
  rewrite run_bind_get_pbm_status. cbv zeta. run. rewrite app_nil_r. reflexivity.
Qed.

(** How [_configure_pbm_options] ends, by the way its attempt ended. *)
Lemma configure_outcome (event : Event) (credentials : Dict) (w : World) :
  let i := configure_attempt E credentials w in
  let w' := final i in
  _configure_pbm_options E event credentials w
  = match result i with
    | Ret _ | Raise (CalledProcessError _) =>
        (Ret tt,
         set_unit_status (poll_status E (backup_service w') (pbm_runs w')) (polled w'),
         calls i ++ poll_calls (backup_service w'))
    | Raise SetPBMConfigError =>
        (Ret tt,
         set_unit_status (BlockedStatus "couldn't configure s3 backup options.") w',
         calls i)
    | Raise ResyncError | Raise PBMBusyError =>
        (Ret tt,
         set_unit_status (WaitingStatus "waiting to sync s3 configurations.") w',
         calls i ++ [Defer])
    | Raise (ExecError stdout) =>
        (Ret tt, set_unit_status (BlockedStatus (process_pbm_error E stdout)) w', calls i)
    | Raise e => (Raise e, w', calls i)
    end.
Proof.
  cbv zeta. rewrite configure_unfold, run_bind_try.
  destruct (result (configure_attempt E credentials w)) as [a|e] eqn:Hr.
  - rewrite (configure_attempt_true _ _ _ Hr). cbv zeta. cbn [negb].
    rewrite report_run. reflexivity.
  - destruct e; cbv zeta; run; rewrite ?app_nil_r; try reflexivity.
    rewrite report_run. reflexivity.
Qed.

Lemma credentials_handler_run (event : Event) (credentials : Dict) (w : World) :
  _on_s3_credential_changed E event credentials w
  = if db_initialised w
    then let o := _configure_pbm_options E event credentials w in
         (result o, final o,
          (GetBackupService :: if backup_service w then [] else [Defer]) ++ calls o)
    else (Ret tt, w, [Defer]).
Proof.
  unfold _on_s3_credential_changed. run.
  destruct (db_initialised w); cbn [negb]; run; [|reflexivity].
  rewrite run_bind_try. unfold get_backup_service. run.
  destruct (backup_service w); run; reflexivity.
Qed.

Lemma backup_service_ran (n : nat) (w : World) :
  backup_service (ran n w) = backup_service w.
Proof.
  destruct (ran_fields n w) as (_ & _ & (_ & _ & _ & _ & _ & H & _) & _). exact H.
Qed.

Lemma polled_known (w : World) : backup_service w = true -> polled w = ran 1 w.
Proof. unfold polled. intros ->. reflexivity. Qed.

Lemma ran_ran (a b : nat) (w : World) : ran a (ran b w) = ran (b + a) w.
Proof. unfold ran. apply iter_add. Qed.

Lemma wait_settled_run (w : World) :
  settled E (pbm_runs w) = true ->
  exists w',
    _wait_pbm_status E w = (Ret tt, w', [RunPbmCommand PBM_STATUS_CMD]) /\
    pbm_runs w' = pbm_runs w + 1 /\
    backup_service w' = backup_service w.
Proof.
  unfold settled. intros H.
  assert (Hrun : exists w', wait_attempt E w = (Ret tt, w', [RunPbmCommand PBM_STATUS_CMD]) /\
                            pbm_runs w' = pbm_runs w + 1 /\
                            backup_service w' = backup_service w).
  { rewrite wait_attempt_run.
    destruct (ran_fields 1 w) as [Hr _]. pose proof (backup_service_ran 1 w) as Hb.
    destruct (pbm_exec E (pbm_runs w) PBM_STATUS_CMD) as [out | e].
    - apply negb_true_iff in H. rewrite H. eauto.
    - destruct e; try discriminate. eexists. split; [reflexivity|]. split; assumption. }
  destruct Hrun as (w' & Hw' & Hr & Hb). exists w'. split; [|auto].
  rewrite wait_unfold. apply retrying_ret, retrying_ret. exact Hw'.
Qed.

(** The options set without a failure. *)
Lemma set_config_options_ok (credentials : Dict) (w : World) :
  (exists out, pbm_exec E (pbm_runs w) CONFIG_FILE_CMD = PbmStdout out) ->
  (forall i option, _get_pbm_configs credentials !! i = Some option ->
     exists out, pbm_exec E (pbm_runs w + 1 + i) (config_cmd option) = PbmStdout out) ->
  _set_config_options E credentials w
  = (Ret tt, ran (S (length (_get_pbm_configs credentials))) w,
     map RunPbmCommand (config_cmds (_get_pbm_configs credentials))).
Proof.
  intros [out Hout] Hok. unfold _set_config_options.
  erewrite run_bind_eq by (rewrite set_pbm_config_file_run, Hout; reflexivity).
  rewrite set_options_run.
  - cbn [result final calls fst snd]. rewrite ran_ran. reflexivity.
  - intros i o Hi. destruct (ran_fields 1 w) as [-> _]. exact (Hok i o Hi).
Qed.

(** X15.  A change of the storage credentials, when all goes well.  On
    an initialised replica set whose pbm-agent service is known, with
    every configuration command succeeding, pbm free at the pre-check,
    the resync accepted and the first poll after it showing no resync,
    the handler issues, in this order: the lookup of the service, the
    configuration-file command, one command per option, the start of the
    service, one poll, the resync, a sleep of two seconds, one poll, and
    a last poll whose status becomes the unit's status.  The event is
    not deferred. *)
Theorem credentials_change_configures (event : Event) (credentials : Dict) (w : World) :
  db_initialised w = true ->
  backup_service w = true ->
  let pbm_configs := _get_pbm_configs credentials in
  let n1 := pbm_runs w + 1 + length pbm_configs in
  (exists out, pbm_exec E (pbm_runs w) CONFIG_FILE_CMD = PbmStdout out) ->
  (forall i option, pbm_configs !! i = Some option ->
     exists out, pbm_exec E (pbm_runs w + 1 + i) (config_cmd option) = PbmStdout out) ->
  is_busy (poll_status E true n1) = false ->
  (exists out, pbm_exec E (n1 + 1) FORCE_RESYNC_CMD = PbmStdout out) ->
  settled E (n1 + 2) = true ->
  let o := _on_s3_credential_changed E event credentials w in
  result o = Ret tt /\
  calls o
  = GetBackupService :: map RunPbmCommand (config_cmds pbm_configs)
      ++ [StartBackupService;
          GetBackupService; RunPbmCommand PBM_STATUS_CMD;
          RunPbmCommand FORCE_RESYNC_CMD; Sleep 2;
          RunPbmCommand PBM_STATUS_CMD;
          GetBackupService; RunPbmCommand PBM_STATUS_CMD] /\
  unit_status (final o) = poll_status E true (n1 + 3) /\
  pbm_runs (final o) = n1 + 4.
Proof.
  intros Hi Hb pbm_configs n1 Hfile Hopts Hfree [outf Hforce] Hset.
  set (w2 := ran (S (length pbm_configs)) w).
  assert (Hr2 : pbm_runs w2 = n1).
  { subst w2 n1. destruct (ran_fields (S (length pbm_configs)) w) as [-> _]. lia. }
  assert (Hb2 : backup_service w2 = true) by (subst w2; rewrite backup_service_ran; exact Hb).
  assert (Hp2 : Nat.iter 1 polled w2 = ran 1 w2) by (apply polled_known, Hb2).
  assert (Hr3 : pbm_runs (ran 1 (ran 1 w2)) = n1 + 2).
  { rewrite ran_ran. destruct (ran_fields (1 + 1) w2) as [-> _]. lia. }
  destruct (wait_settled_run (ran 1 (ran 1 w2))) as (w4 & Hwait & Hr4 & Hb4).
  { rewrite Hr3. exact Hset. }
  rewrite backup_service_ran, backup_service_ran, Hb2 in Hb4. rewrite Hr3 in Hr4.
  replace (n1 + 2 + 1) with (n1 + 3) in Hr4 by lia.
  assert (Hresync : _resync_config_options E w2
                    = (Ret tt, w4,
                       [StartBackupService; GetBackupService; RunPbmCommand PBM_STATUS_CMD;
                        RunPbmCommand FORCE_RESYNC_CMD; Sleep 2;
                        RunPbmCommand PBM_STATUS_CMD])).
  { rewrite (resync_run E 0 w2); [| lia | reflexivity |].
    - rewrite Hp2. destruct (ran_fields 1 w2) as [-> _]. rewrite Hr2, Hforce.
      cbv zeta. rewrite Hwait. cbn [result final calls fst snd free_trace].
      rewrite Hb2. reflexivity.
    - change (Nat.iter 0 polled w2) with w2. rewrite Hb2, Hr2. exact Hfree. }
  assert (Hattempt : configure_attempt E credentials w
                     = (Ret true, w4,
                        map RunPbmCommand (config_cmds pbm_configs)
                          ++ [StartBackupService; GetBackupService;
                              RunPbmCommand PBM_STATUS_CMD;
                              RunPbmCommand FORCE_RESYNC_CMD; Sleep 2;
                              RunPbmCommand PBM_STATUS_CMD])).
  { unfold configure_attempt.
    rewrite (run_bind_eq _ _ _ _ _ _ (set_config_options_ok credentials w Hfile Hopts)).
    fold pbm_configs. fold w2.
    rewrite (run_bind_eq _ _ _ _ _ _ Hresync). run. rewrite app_nil_r. reflexivity. }
  cbv zeta. rewrite credentials_handler_run, Hi. cbv zeta.
  rewrite configure_outcome. cbv zeta. rewrite Hattempt.
  cbn [result final calls fst snd]. rewrite Hb, Hb4, Hr4.
  split; [reflexivity|]. split.
  - unfold poll_calls. cbn [app]. rewrite <- app_assoc. reflexivity.
  - split; [reflexivity|].
    rewrite (polled_known w4 Hb4). cbn [pbm_runs set_unit_status].
    destruct (ran_fields 1 w4) as [-> _]. lia.
Qed.

(** The options set up to the first that fails. *)
Lemma set_config_options_fail (credentials : Dict) (w : World) (j : nat)
    (option : string * string) (e : Exn) :
  (forall e', pbm_exec E (pbm_runs w) CONFIG_FILE_CMD = PbmRaises e' ->
              exists out, e' = ExecError out) ->
  _get_pbm_configs credentials !! j = Some option ->
  (forall i o', i < j -> _get_pbm_configs credentials !! i = Some o' ->
     exists out, pbm_exec E (pbm_runs w + 1 + i) (config_cmd o') = PbmStdout out) ->
  pbm_exec E (pbm_runs w + 1 + j) (config_cmd option) = PbmRaises e ->
  exists w',
    _set_config_options E credentials w
    = (Raise (if is_process_error e then SetPBMConfigError else e), w',
       map RunPbmCommand (config_cmds (take (S j) (_get_pbm_configs credentials)))) /\
    backup_service w' = backup_service w.
Proof.
  intros H0 Hj Hbefore He.
  destruct (set_pbm_config_file_ok E w H0) as (w1 & Hfile & Hruns & _).
  assert (Hb1 : backup_service w1 = backup_service w).
  { rewrite set_pbm_config_file_run in Hfile.
    pose proof (backup_service_ran 1 w) as Hb.
    destruct (pbm_exec E (pbm_runs w) CONFIG_FILE_CMD) as [out | []];
      try discriminate Hfile; injection Hfile as <-; exact Hb. }
  unfold _set_config_options. rewrite (run_bind_eq _ _ _ _ _ _ Hfile).
  pose proof (take_drop_middle _ _ _ Hj) as Hsplit.
  assert (Hlen : length (take j (_get_pbm_configs credentials)) = j).
  { apply length_take_le. apply lookup_lt_Some in Hj. lia. }
  pose proof (set_options_fail E (take j (_get_pbm_configs credentials)) option
                (drop (S j) (_get_pbm_configs credentials)) e w1) as Hrun.
  rewrite Hsplit in Hrun. rewrite Hrun.
  - cbn [result final calls fst snd]. eexists. split.
    + unfold config_cmds. cbn [map app]. rewrite (take_S_r _ _ _ Hj). reflexivity.
    + rewrite backup_service_ran. exact Hb1.
  - intros i o Hi. rewrite Hruns.
    apply lookup_take_Some in Hi as [Hi Hlt]. exact (Hbefore i o Hlt Hi).
  - rewrite Hruns, Hlen. exact He.
Qed.

(** X16.  An option pbm rejects blocks the unit.  On an initialised
    replica set, when the command that sets one of the options fails
    with an [ExecError] or a [CalledProcessError], the handler of the
    storage credentials stops there: the later options are not set, the
    service is not started, no resync is asked for, and the unit is
    blocked with "couldn't configure s3 backup options.".  The handler
    returns normally. *)
Theorem option_failure_blocks_unit (event : Event) (credentials : Dict) (w : World)
    (j : nat) (option : string * string) (e : Exn) :
  db_initialised w = true ->
  (forall e', pbm_exec E (pbm_runs w) CONFIG_FILE_CMD = PbmRaises e' ->
              exists out, e' = ExecError out) ->
  _get_pbm_configs credentials !! j = Some option ->
  (forall i o', i < j -> _get_pbm_configs credentials !! i = Some o' ->
     exists out, pbm_exec E (pbm_runs w + 1 + i) (config_cmd o') = PbmStdout out) ->
  pbm_exec E (pbm_runs w + 1 + j) (config_cmd option) = PbmRaises e ->
  is_process_error e = true ->
  let o := _on_s3_credential_changed E event credentials w in
  result o = Ret tt /\
  unit_status (final o) = BlockedStatus "couldn't configure s3 backup options." /\
  calls o
  = (GetBackupService :: if backup_service w then [] else [Defer])
      ++ map RunPbmCommand (config_cmds (take (S j) (_get_pbm_configs credentials))).
Proof.
  intros Hi H0 Hj Hbefore He Hpe. cbv zeta.
  destruct (set_config_options_fail credentials w j option e H0 Hj Hbefore He)
    as (w' & Hset & _).
  rewrite Hpe in Hset.
  assert (Hattempt : configure_attempt E credentials w
                     = (Raise SetPBMConfigError, w',
                        map RunPbmCommand
                          (config_cmds (take (S j) (_get_pbm_configs credentials))))).
  { unfold configure_attempt. apply run_bind_fail. exact Hset. }
  rewrite credentials_handler_run, Hi. cbv zeta.
  rewrite configure_outcome. cbv zeta. rewrite Hattempt.
  cbn [result final calls fst snd]. auto.
Qed.

Lemma resync_busy_run (w : World) :
  forallb is_busy (attempt_statuses E w 20) = true ->
  _resync_config_options E w
  = (Raise PBMBusyError, Nat.iter 20 polled w, StartBackupService :: busy_trace E w 19).
Proof.
  intros Hall. unfold _resync_config_options, start_backup_service, Retrying. cbn [pred].
  rewrite run_bind_call.
  rewrite (run_bind_fail _ _ _ _ _ _ (retrying_busy E 19 w Hall)). reflexivity.
Qed.

Lemma config_cmds_no_resync (pbm_configs : Dict) :
  count_occ Call_eq_dec (map RunPbmCommand (config_cmds pbm_configs))
    (RunPbmCommand FORCE_RESYNC_CMD) = 0.
Proof.
  unfold config_cmds. cbn [map]. rewrite count_occ_cons_neq by discriminate.
  induction pbm_configs as [|x l IH]; [reflexivity|].
  cbn [map]. rewrite count_occ_cons_neq; [exact IH|].
  unfold config_cmd, FORCE_RESYNC_CMD. discriminate.
Qed.

(** X17.  A busy pbm defers the new credentials.  On an initialised
    replica set whose pbm-agent service is known, with every
    configuration command succeeding, when pbm is then busy on all 20
    polls of the pre-check, the handler asks for no resync, leaves the
    unit waiting with "waiting to sync s3 configurations.", defers the
    event once, as its last step, and returns normally. *)
Theorem busy_pbm_defers_credentials (event : Event) (credentials : Dict) (w : World) :
  db_initialised w = true ->
  backup_service w = true ->
  let pbm_configs := _get_pbm_configs credentials in
  let w2 := ran (S (length pbm_configs)) w in
  (exists out, pbm_exec E (pbm_runs w) CONFIG_FILE_CMD = PbmStdout out) ->
  (forall i option, pbm_configs !! i = Some option ->
     exists out, pbm_exec E (pbm_runs w + 1 + i) (config_cmd option) = PbmStdout out) ->
  forallb is_busy (attempt_statuses E w2 20) = true ->
  let o := _on_s3_credential_changed E event credentials w in
  result o = Ret tt /\
  unit_status (final o) = WaitingStatus "waiting to sync s3 configurations." /\
  calls o
  = GetBackupService :: map RunPbmCommand (config_cmds pbm_configs)
      ++ StartBackupService :: busy_trace E w2 19 ++ [Defer] /\
  count_occ Call_eq_dec (calls o) (RunPbmCommand FORCE_RESYNC_CMD) = 0 /\
  count_occ Call_eq_dec (calls o) Defer = 1.
Proof.
  intros Hi Hb pbm_configs w2 Hfile Hopts Hbusy. cbv zeta.
  assert (Hattempt : configure_attempt E credentials w
                     = (Raise PBMBusyError, Nat.iter 20 polled w2,
                        map RunPbmCommand (config_cmds pbm_configs)
                          ++ StartBackupService :: busy_trace E w2 19)).
  { unfold configure_attempt.
    rewrite (run_bind_eq _ _ _ _ _ _ (set_config_options_ok credentials w Hfile Hopts)).
    fold pbm_configs. fold w2.
    rewrite (run_bind_fail _ _ _ _ _ _ (resync_busy_run w2 Hbusy)). reflexivity. }
  rewrite credentials_handler_run, Hi. cbv zeta.
  rewrite configure_outcome. cbv zeta. rewrite Hattempt.
  cbn [result final calls fst snd]. rewrite Hb.
  assert (Hcalls : ([GetBackupService] ++
                    (map RunPbmCommand (config_cmds pbm_configs)
                       ++ StartBackupService :: busy_trace E w2 19) ++ [Defer])
                   = GetBackupService :: map RunPbmCommand (config_cmds pbm_configs)
                       ++ StartBackupService :: busy_trace E w2 19 ++ [Defer]).
  { cbn [app]. rewrite <- app_assoc. reflexivity. }
  rewrite Hcalls.
  split; [reflexivity|]. split; [reflexivity|]. split; [reflexivity|].
  assert (Hcfg : forall c l, (forall x, c <> RunPbmCommand x) ->
                   count_occ Call_eq_dec (map RunPbmCommand l) c = 0).
  { intros c l Hc. induction l as [|x l IH]; [reflexivity|].
    cbn [map]. rewrite count_occ_cons_neq by (intros Heq; exact (Hc x (eq_sym Heq))).
    exact IH. }
  pose proof (config_cmds_no_resync pbm_configs) as Hforce.
  assert (Hdefer : forall k w0, count_occ Call_eq_dec (busy_trace E w0 k) Defer = 0).
  { assert (Hone : forall w0, count_occ Call_eq_dec (busy_attempt_calls E w0) Defer = 0).
    { intros w0. unfold busy_attempt_calls, poll_calls.
      destruct (backup_service w0), (is_MaintenanceStatus _); reflexivity. }
    induction k as [|k IH]; intros w0; cbn [busy_trace]; [apply Hone|].
    rewrite count_occ_app, Hone. rewrite count_occ_cons_neq by discriminate. apply IH. }
  destruct (count_busy_trace E 19 w2) as (_ & _ & Hf & _).
  split.
  - rewrite count_occ_cons_neq by discriminate.
    rewrite count_occ_app, Hforce. rewrite count_occ_cons_neq by discriminate.
    rewrite count_occ_app, Hf. reflexivity.
  - rewrite count_occ_cons_neq by discriminate.
    rewrite count_occ_app, (Hcfg Defer) by discriminate.
    rewrite count_occ_cons_neq by discriminate.
    rewrite count_occ_app, Hdefer. reflexivity.
Qed.

(** X18.  The two deferrals of the credentials handler.  Before the
    replica set is initialised the handler defers the event and does
    nothing else.  Once it is initialised and Pebble does not know the
    pbm-agent service, the handler defers the event and, there being no
    return after that deferral, goes on to configure pbm: the next call
    is the configuration-file command. *)
Theorem credentials_change_deferrals (event : Event) (credentials : Dict) (w : World) :
  let o := _on_s3_credential_changed E event credentials w in
  (db_initialised w = false -> o = (Ret tt, w, [Defer])) /\
  (db_initialised w = true -> backup_service w = false ->
   exists t, calls o = GetBackupService :: Defer :: RunPbmCommand CONFIG_FILE_CMD :: t).
Proof.
  cbv zeta. rewrite credentials_handler_run. split; intros Hi; rewrite Hi; [reflexivity|].
  intros Hb. rewrite Hb. cbv zeta. cbn [calls snd app].
  rewrite configure_outcome. cbv zeta.
  assert (Hstart : exists t, calls (configure_attempt E credentials w)
                             = RunPbmCommand CONFIG_FILE_CMD :: t).
  { unfold configure_attempt, _set_config_options.
    rewrite !calls_bind, set_pbm_config_file_run.
    destruct (pbm_exec E (pbm_runs w) CONFIG_FILE_CMD) as [out | []];
      cbn [calls snd app]; eauto. }
  destruct Hstart as [t Ht]. rewrite Ht.
  destruct (result (configure_attempt E credentials w)) as [a | []];
    cbn [calls snd app]; eauto.
Qed.

End CredentialsFacts.

(* ===================================================================== *)
(** * Leaving the replica set, and the flags of the peer data *)
(* ===================================================================== *)

Section StopFacts.

Context (E : Env).





End StopFacts.

(** X20.  The flags of the application's peer data are read by their
    presence.  With a peer relation, setting [db_initialised] makes it
    read true whatever value is set, [False] included, since the getter
    only looks for the key; marking a user as created makes
    [_is_user_created] true for that user, leaves it as it was for every
    other user, and does not touch [db_initialised].  Without a peer
    relation the writes are lost and both flags read false. *)
Theorem peer_flags_read_by_presence (value : bool) (username other : string) (w : World) :
  (peers w <> None ->
   db_initialised (set_db_initialised value w) = true /\
   _is_user_created username (_set_user_created username w) = true /\
   (other <> username ->
    _is_user_created other (_set_user_created username w) = _is_user_created other w) /\
   db_initialised (_set_user_created username w) = db_initialised w /\
   _is_user_created other (set_db_initialised value w) = _is_user_created other w) /\
  (peers w = None ->
   db_initialised (set_db_initialised value w) = false /\
   _is_user_created username (_set_user_created username w) = false).
Proof.
  assert (Hne : forall u, u +:+ "-user-created" <> "db_initialised").
  { intros u Heq.
    assert (Hlen : String.length (u +:+ "-user-created") = String.length "db_initialised")
      by (rewrite Heq; reflexivity).
    assert (Hl : forall a b, String.length (a +:+ b) = String.length a + String.length b).
    { intros a b. induction a as [|c a IH]; [reflexivity|]. cbn. rewrite <- IH. reflexivity. }
    rewrite Hl in Hlen. cbn in Hlen.
    destruct u as [|c [|c' u]]; cbn in Heq, Hlen; [discriminate Heq | discriminate Heq | lia]. }
  unfold set_db_initialised, _set_user_created, set_app_peer_data, db_initialised,
    _is_user_created.
  split; intros Hp; destruct (peers w) as [r|] eqn:Hr; try congruence;
    cbn [peers set_peers app_data]; rewrite ?Hr; [|auto].
  repeat split.
  - rewrite lookup_insert_eq. reflexivity.
  - rewrite lookup_insert_eq. reflexivity.
  - intros Ho. rewrite lookup_insert_ne; [reflexivity|].
    intros Heq. apply Ho. symmetry. exact (append_inj_r _ _ _ Heq).
  - rewrite lookup_insert_ne; [reflexivity | apply Hne].
  - rewrite lookup_insert_ne; [reflexivity|]. intros Heq. exact (Hne other (eq_sym Heq)).
Qed.

(* ===================================================================== *)
(** * Secrets, further *)
(* ===================================================================== *)

Section SecretsMore.

Import Secrets.

Lemma fetched_coherent (w : Secrets.World) (scope : Scope) :
  coherent w scope ->
  match fetched w scope with
  | Some (id, content) =>
      peer_data w scope !! SECRET_INTERNAL_LABEL = Some id /\ id <> "" /\
      juju_secrets w !! id = Some content
  | None => True
  end.
Proof.
  intros [Hc _]. unfold fetched.
  destruct (secrets w scope) as [[id content]|]; [exact Hc|].
  destruct (peer_data w scope !! SECRET_INTERNAL_LABEL) as [id|] eqn:Hl; cbn; [|exact I].
  destruct (bool_decide (id = "")) eqn:Hid; [exact I|].
  apply bool_decide_eq_false in Hid.
  destruct (juju_secrets w !! id) as [content|] eqn:Hj; [|exact I]. auto.
Qed.

Lemma empty_reads_nothing (content : gmap string string) (key : string) :
  nonempty content = false -> readable (content !! key) = None.
Proof.
  unfold nonempty. intros H. apply negb_false_iff, bool_decide_eq_true in H.
  subst content. rewrite lookup_empty. reflexivity.
Qed.

(** Reading a key under Juju secrets. *)
Lemma get_secret_juju (scope : Scope) (key : string) (w : Secrets.World) :
  has_secrets w = true ->
  coherent w scope ->
  key <> "" ->
  let o := get_secret scope key w in
  result o = Ret (match fetched w scope with
                  | Some (_, content) => readable (content !! key)
                  | None => None
                  end) /\
  has_secrets (final o) = true /\
  peer_data (final o) = peer_data w /\
  juju_secrets (final o) = juju_secrets w /\
  unused_ids (final o) = unused_ids w /\
  secrets (final o) scope = fetched w scope /\
  (forall s, s <> scope -> secrets (final o) s = secrets w s) /\
  calls o = match secrets w scope, fetched w scope with
            | None, Some (id, _) => [GetSecret id]
            | None, None =>
                let label := peer_data w scope !! SECRET_INTERNAL_LABEL in
                if falsy label then [] else [GetSecret (default "" label)]
            | Some _, _ => []
            end.
Proof.
  intros Hj Hc Hkey. pose proof (fetched_coherent w scope Hc) as Hf.
  cbv zeta. unfold get_secret. run. rewrite Hj.
  unfold _juju_secret_get_key. rewrite bool_decide_eq_false_2 by exact Hkey.
  unfold _juju_secrets_get, fetched, coherent in *. cbv zeta. run.
  destruct (secrets w scope) as [[id content]|] eqn:Hs.
  - destruct Hc as [(Hl & Hid & Hheld) _]. rewrite Hl. cbn [falsy default].
    rewrite bool_decide_eq_false_2 by exact Hid. run. rewrite Hs. run.
    destruct (nonempty content) eqn:Hne; run.
    + rewrite Hs. run. rewrite Hne. unfold readable.
      destruct (negb (falsy (content !! key)) &&
                negb (bool_decide (content !! key = Some SECRET_DELETED_LABEL)));
        run; repeat split; rewrite ?Hs; try reflexivity; exact Hj.
    + rewrite (empty_reads_nothing content key Hne).
      repeat split; rewrite ?Hs; try reflexivity; exact Hj.
  - destruct (falsy (peer_data w scope !! SECRET_INTERNAL_LABEL)) eqn:Hl; run.
    { repeat split; try reflexivity; try exact Hj; exact Hs. }
    rewrite Hs. run. rewrite run_bind_try. unfold model_get_secret. run.
    destruct (juju_secrets w !! default "" (peer_data w scope !! SECRET_INTERNAL_LABEL))
      as [content|] eqn:Hheld; run.
    + cbv zeta. destruct (nonempty content) eqn:Hne; run.
      * cbn [secrets set_secrets]. rewrite upd_same. run. rewrite Hne. unfold readable.
        destruct (negb (falsy (content !! key)) &&
                  negb (bool_decide (content !! key = Some SECRET_DELETED_LABEL)));
          run; cbn [secrets set_secrets has_secrets peer_data juju_secrets unused_ids];
          (repeat split; try reflexivity; try exact Hj; try apply upd_same;
           intros s Hne'; apply upd_other, Hne').
      * rewrite (empty_reads_nothing content key Hne).
        cbn [secrets set_secrets has_secrets peer_data juju_secrets unused_ids].
        repeat split; try reflexivity; try exact Hj; try apply upd_same.
        intros s Hne'. apply upd_other, Hne'.
    + cbv zeta. run. repeat split; try reflexivity; try exact Hj; exact Hs.
Qed.

(** [_juju_secrets_get] fetches at most; it writes nothing. *)
Lemma juju_secrets_get_frame (scope : Scope) (w : Secrets.World) :
  let o := _juju_secrets_get scope w in
  (exists r, result o = Ret r) /\
  has_secrets (final o) = has_secrets w /\
  peer_data (final o) = peer_data w /\
  juju_secrets (final o) = juju_secrets w /\
  unused_ids (final o) = unused_ids w /\
  secrets (final o) scope = fetched w scope /\
  (forall s, s <> scope -> secrets (final o) s = secrets w s) /\
  List.filter is_secret_write (calls o) = [].
Proof.
  unfold _juju_secrets_get, fetched. cbv zeta. run.
  destruct (falsy (peer_data w scope !! SECRET_INTERNAL_LABEL)) eqn:Hl; run.
  { repeat split; eauto. destruct (secrets w scope); reflexivity. }
  destruct (secrets w scope) as [[id content]|] eqn:Hs; run.
  { repeat split; eauto. }
  rewrite run_try_except. unfold model_get_secret. run.
  destruct (juju_secrets w !! default "" (peer_data w scope !! SECRET_INTERNAL_LABEL))
    as [content|] eqn:Hj; run.
  - cbn [secrets set_secrets has_secrets peer_data juju_secrets unused_ids].
    repeat split; eauto; try apply upd_same.
    intros s Hne. apply upd_other, Hne.
  - repeat split; eauto.
Qed.

(** Storing a value under Juju secrets. *)
Lemma set_secret_juju (scope : Scope) (key v : string) (w : Secrets.World) :
  has_secrets w = true ->
  v <> "" ->
  let o := set_secret scope key (Some v) w in
  has_secrets (final o) = true /\
  (forall s, s <> scope -> secrets (final o) s = secrets w s) /\
  match fetched w scope with
  | Some (id, content) =>
      result o = Ret (Some id) /\
      secrets (final o) scope = Some (id, <[key := v]> content) /\
      juju_secrets (final o)
      = (if bool_decide (content !! key = Some v) then juju_secrets w
         else <[id := <[key := v]> content]> (juju_secrets w)) /\
      peer_data (final o) = peer_data w /\
      unused_ids (final o) = unused_ids w /\
      List.filter is_secret_write (calls o)
      = (if bool_decide (content !! key = Some v) then []
         else [SetContent id (<[key := v]> content)])
  | None =>
      match unused_ids w with
      | [] =>
          result o = Raise SecretNotAddedError /\
          secrets (final o) scope = None /\ unused_ids (final o) = []
      | id :: ids =>
          result o = Ret (Some id) /\
          secrets (final o) scope = Some (id, {[key := v]}) /\
          juju_secrets (final o) = <[id := {[key := v]}]> (juju_secrets w) /\
          peer_data (final o) scope = <[SECRET_INTERNAL_LABEL := id]> (peer_data w scope) /\
          (forall s, s <> scope -> peer_data (final o) s = peer_data w s) /\
          unused_ids (final o) = ids /\
          List.filter is_secret_write (calls o) = [AddSecret {[key := v]}]
      end
  end.
Proof.
  intros Hj Hv. cbv zeta. unfold set_secret. cbn [falsy].
  change (default "" (Some v)) with v.
  rewrite bool_decide_eq_false_2 by exact Hv. run. rewrite Hj.
  destruct (juju_secrets_get_frame scope w)
    as ([r Hr] & Hhas & Hpeer & Hheld & Hids & Hsec & Hother & Hwrites).
  unfold _juju_secret_set. rewrite run_bind_assoc.
  rewrite (run_bind_outcome _ _ _ _ Hr).
  set (w1 := final (_juju_secrets_get scope w)) in *.
  set (t1 := calls (_juju_secrets_get scope w)) in *.
  run. rewrite Hsec.
  destruct (fetched w scope) as [[id content]|]; run.
  - destruct (bool_decide (content !! key = Some v)) eqn:Heq; run.
    + apply bool_decide_eq_true in Heq.
      rewrite List.filter_app, Hwrites. cbn [List.filter app].
      rewrite Hhas, Hpeer, Hheld, Hids, Hsec, (insert_id _ _ _ Heq).
      repeat split; auto.
    + unfold set_content. run.
      cbn [secrets set_secrets set_juju_secret has_secrets peer_data juju_secrets
           unused_ids].
      rewrite List.filter_app, Hwrites. cbn [List.filter app is_secret_write].
      rewrite Hhas, Hpeer, Hheld, Hids, upd_same.
      repeat split; auto. intros s Hne. rewrite upd_other by exact Hne. auto.
  - unfold add_secret. run. rewrite Hids.
    destruct (unused_ids w) as [|id ids] eqn:Hu; run;
      [rewrite Hhas; repeat split; auto|].
    cbn [secrets set_secrets set_juju_secret set_unused_ids set_peer_data has_secrets
         peer_data juju_secrets unused_ids].
    rewrite List.filter_app, Hwrites. cbn [List.filter app is_secret_write].
    rewrite Hhas, Hpeer, Hheld, !upd_same.
    repeat split; auto.
    + intros s Hne. rewrite upd_other by exact Hne. auto.
    + intros s Hne. rewrite upd_other by exact Hne. reflexivity.
Qed.

Lemma coherent_new_event (w : Secrets.World) (scope : Scope) :
  coherent w scope -> coherent (new_event w) scope.
Proof. intros [_ H]. split; [exact I | exact H]. Qed.

Lemma set_secret_value_coherent (scope : Scope) (key v : string) (w : Secrets.World) :
  has_secrets w = true -> v <> "" -> coherent w scope ->
  coherent (final (set_secret scope key (Some v) w)) scope.
Proof.
  intros Hj Hv Hc. pose proof (fetched_coherent w scope Hc) as Hf.
  destruct (set_secret_juju scope key v w Hj Hv) as (_ & _ & Hset).
  destruct Hc as [_ Hids]. unfold coherent.
  destruct (fetched w scope) as [[id content]|].
  - destruct Hset as (_ & -> & -> & -> & -> & _). destruct Hf as (Hl & Hid & Hheld).
    split; [|exact Hids]. split; [exact Hl|]. split; [exact Hid|].
    destruct (bool_decide (content !! key = Some v)) eqn:Heq.
    + apply bool_decide_eq_true in Heq. rewrite (insert_id _ _ _ Heq). exact Hheld.
    + apply lookup_insert_eq.
  - destruct (unused_ids w) as [|id ids].
    + destruct Hset as (_ & -> & ->). split; [exact I | constructor].
    + destruct Hset as (_ & -> & -> & -> & _ & -> & _).
      apply Forall_cons in Hids as [Hid Hids].
      split; [|exact Hids]. split; [apply lookup_insert_eq|].
      split; [exact Hid | apply lookup_insert_eq].
Qed.

Lemma remove_secret_coherent (scope : Scope) (key : string) (w : Secrets.World) :
  has_secrets w = true -> coherent w scope ->
  coherent (final (remove_secret scope key w)) scope.
Proof.
  intros Hj Hc. pose proof (fetched_coherent w scope Hc) as Hf.
  assert (Hu : unused_ids (final (remove_secret scope key w)) = unused_ids w).
  { unfold remove_secret. run. rewrite Hj. unfold _juju_secret_remove.
    destruct (juju_secrets_get_frame scope w) as ([r Hr] & _ & _ & _ & Hids & _).
    rewrite (run_bind_outcome _ _ _ _ Hr). run.
    destruct (secrets _ scope) as [[id c]|]; run; [|exact Hids].
    destruct (negb (nonempty c) || negb (bool_decide (is_Some (c !! key)))); run;
      [exact Hids|].
    unfold set_content. run. exact Hids. }
  assert (Heq : remove_secret scope key w = _juju_secret_remove scope key w).
  { unfold remove_secret. run. rewrite Hj. reflexivity. }
  destruct (juju_secret_remove_spec scope key w) as (_ & _ & Hp & Hrem).
  destruct Hc as [_ Hids]. unfold coherent. rewrite Hu. split; [|exact Hids].
  rewrite Heq, Hp.
  destruct (fetched w scope) as [[id content]|].
  - destruct Hf as (Hl & Hid & Hheld).
    destruct (bool_decide (is_Some (content !! key))).
    + destruct Hrem as (-> & -> & _). repeat split; auto. apply lookup_insert_eq.
    + destruct Hrem as (-> & -> & _). auto.
  - destruct Hrem as (-> & _). exact I.
Qed.

Lemma get_secret_coherent (scope : Scope) (key : string) (w : Secrets.World) :
  has_secrets w = true -> coherent w scope ->
  coherent (final (get_secret scope key w)) scope.
Proof.
  intros Hj Hc. destruct (decide (key = "")) as [-> | Hkey].
  - unfold get_secret. run. rewrite Hj. exact Hc.
  - pose proof (fetched_coherent w scope Hc) as Hf.
    destruct (get_secret_juju scope key w Hj Hc Hkey)
      as (_ & _ & Hp & Hheld & Hu & Hs & _).
    destruct Hc as [_ Hids]. unfold coherent. rewrite Hp, Hheld, Hu, Hs.
    split; [|exact Hids].
    destruct (fetched w scope) as [[id content]|]; [exact Hf | exact I].
Qed.

Lemma set_secret_falsy (scope : Scope) (key : string) (value : option string)
    (w : Secrets.World) :
  falsy value = true ->
  final (set_secret scope key value w) = final (remove_secret scope key w).
Proof.
  intros Hf. unfold set_secret. rewrite Hf. rewrite final_bind.
  destruct (result (remove_secret scope key w)); reflexivity.
Qed.


Lemma fetched_cached (w : Secrets.World) (scope : Scope) (s : string * gmap string string) :
  secrets w scope = Some s -> fetched w scope = Some s.
Proof. unfold fetched. intros ->. reflexivity. Qed.

Lemma fetched_new_event (w : Secrets.World) (scope : Scope) (id : string)
    (content : gmap string string) :
  peer_data w scope !! SECRET_INTERNAL_LABEL = Some id -> id <> "" ->
  juju_secrets w !! id = Some content ->
  fetched (new_event w) scope = Some (id, content).
Proof.
  intros Hl Hid Hheld. unfold fetched, new_event.
  cbn [secrets peer_data juju_secrets]. rewrite Hl. cbn [falsy].
  rewrite bool_decide_eq_false_2 by exact Hid.
  change (default "" (Some id)) with id. rewrite Hheld. reflexivity.
Qed.

Lemma readable_value (v : string) :
  v <> "" ->
  readable (Some v) = if bool_decide (v = SECRET_DELETED_LABEL) then None else Some v.
Proof.
  intros Hv. unfold readable. cbn [falsy].
  rewrite bool_decide_eq_false_2 by exact Hv. cbn [negb andb].
  destruct (decide (v = SECRET_DELETED_LABEL)) as [-> | Hne].
  - rewrite !bool_decide_eq_true_2 by reflexivity. reflexivity.
  - rewrite !bool_decide_eq_false_2 by congruence. reflexivity.
Qed.

(** What is stored reads back, in this event and the next. *)
Lemma set_then_get (scope : Scope) (key v : string) (w : Secrets.World) :
  coherent w scope ->
  key <> "" ->
  v <> "" ->
  let o := set_secret scope key (Some v) w in
  (exists r, result o = Ret r) ->
  let expected :=
    if has_secrets w && bool_decide (v = SECRET_DELETED_LABEL) then None else Some v in
  get_secret scope key (final o) = (Ret expected, final o, []) /\
  result (get_secret scope key (new_event (final o))) = Ret expected.
Proof.
  intros Hc Hkey Hv o [r Hr] expected. subst o expected.
  destruct (has_secrets w) eqn:Hj; cbn [andb].
  - pose proof (set_secret_value_coherent scope key v w Hj Hv Hc) as Hc'.
    destruct (set_secret_juju scope key v w Hj Hv) as (Hj' & _ & Hset).
    set (w' := final (set_secret scope key (Some v) w)) in *.
    assert (Hcache : exists id content,
               secrets w' scope = Some (id, content) /\ content !! key = Some v).
    { destruct (fetched w scope) as [[id content]|].
      - destruct Hset as (_ & Hs & _). exists id, (<[key := v]> content).
        split; [exact Hs | apply lookup_insert_eq].
      - destruct (unused_ids w) as [|id ids].
        + destruct Hset as (Hraise & _). rewrite Hraise in Hr. discriminate.
        + destruct Hset as (_ & Hs & _). exists id, {[key := v]}.
          split; [exact Hs | apply lookup_singleton_eq]. }
    destruct Hcache as (id & content & Hs & Hk).
    pose proof Hc' as [Hcoh _]. rewrite Hs in Hcoh. destruct Hcoh as (Hl & Hid & Hheld).
    split.
    + destruct (get_secret_juju scope key w' Hj' Hc' Hkey)
        as (Hres & _ & Hp & Hh & Hu & Hs' & Ho & Hcalls).
      rewrite (fetched_cached _ _ _ Hs), Hk, (readable_value v Hv) in Hres.
      rewrite Hs in Hcalls.
      rewrite (outcome_eta (get_secret scope key w')), Hres, Hcalls.
      f_equal. f_equal.
      unfold get_secret. run. rewrite Hj'. unfold _juju_secret_get_key.
      rewrite bool_decide_eq_false_2 by exact Hkey.
      unfold _juju_secrets_get. run. rewrite Hl. cbn [falsy].
      rewrite bool_decide_eq_false_2 by exact Hid. run. rewrite Hs. run.
      destruct (nonempty content); run; [|reflexivity].
      rewrite Hs. run.
      destruct (nonempty content); [|reflexivity].
      destruct (_ && _); reflexivity.
    + destruct (get_secret_juju scope key (new_event w') Hj'
                  (coherent_new_event _ _ Hc') Hkey) as (Hres & _).
      rewrite (fetched_new_event _ _ _ _ Hl Hid Hheld), Hk, (readable_value v Hv) in Hres.
      exact Hres.
  - unfold set_secret, get_secret. cbn [falsy].
    rewrite bool_decide_eq_false_2 by exact Hv. run. rewrite Hj. run.
    cbn [has_secrets set_peer_data peer_data new_event]. rewrite Hj. run.
    rewrite upd_same. change (default "" (Some v)) with v.
    rewrite lookup_insert_eq. split; reflexivity.
Qed.



Lemma fetched_stable (w w' : Secrets.World) (scope : Scope) :
  secrets w' scope = fetched w scope ->
  peer_data w' = peer_data w ->
  juju_secrets w' = juju_secrets w ->
  fetched w' scope = fetched w scope.
Proof.
  unfold fetched. intros Hs Hp Hh. rewrite Hp, Hh.
  destruct (secrets w scope) as [s|]; [rewrite Hs; reflexivity|].
  destruct (secrets w' scope) as [s'|]; [exact Hs | reflexivity].
Qed.

(** The other keys of the scope read as before. *)
Lemma set_secret_other_key (scope : Scope) (key other : string)
    (value : option string) (w : Secrets.World) :
  coherent w scope ->
  other <> key ->
  other <> "" ->
  let o := set_secret scope key value w in
  (exists r, result o = Ret r) ->
  result (get_secret scope other (final o)) = result (get_secret scope other w).
Proof.
  intros Hc Hne Hother o [r Hr]. subst o.
  destruct (has_secrets w) eqn:Hj.
  - destruct (get_secret_juju scope other w Hj Hc Hother) as (-> & _).
    destruct (falsy value) eqn:Hf.
    + rewrite (set_secret_falsy _ _ _ _ Hf).
      pose proof (remove_secret_coherent scope key w Hj Hc) as Hc'.
      assert (Heq : remove_secret scope key w = _juju_secret_remove scope key w).
      { unfold remove_secret. run. rewrite Hj. reflexivity. }
      destruct (juju_secret_remove_spec scope key w) as (_ & Hh & Hp & Hrem).
      rewrite <- Heq in Hh, Hp, Hrem. rewrite Hj in Hh.
      set (w' := final (remove_secret scope key w)) in *.
      destruct (get_secret_juju scope other w' Hh Hc' Hother) as (-> & _).
      destruct (fetched w scope) as [[id content]|] eqn:Hfw.
      * destruct (bool_decide (is_Some (content !! key)));
          destruct Hrem as (Hs & _); rewrite (fetched_cached _ _ _ Hs); [|reflexivity].
        rewrite lookup_insert_ne by congruence. reflexivity.
      * destruct Hrem as (Hs & Hheld & _).
        rewrite <- Hfw in Hs. rewrite (fetched_stable w w' scope Hs Hp Hheld), Hfw.
        reflexivity.
    + destruct value as [v|]; [|discriminate]. cbn in Hf.
      apply bool_decide_eq_false in Hf.
      pose proof (set_secret_value_coherent scope key v w Hj Hf Hc) as Hc'.
      destruct (set_secret_juju scope key v w Hj Hf) as (Hh & _ & Hset).
      set (w' := final (set_secret scope key (Some v) w)) in *.
      destruct (get_secret_juju scope other w' Hh Hc' Hother) as (-> & _).
      destruct (fetched w scope) as [[id content]|].
      * destruct Hset as (_ & Hs & _). rewrite (fetched_cached _ _ _ Hs).
        rewrite lookup_insert_ne by congruence. reflexivity.
      * destruct (unused_ids w) as [|id ids].
        -- destruct Hset as (Hraise & _). rewrite Hraise in Hr. discriminate.
        -- destruct Hset as (_ & Hs & _). rewrite (fetched_cached _ _ _ Hs).
           rewrite lookup_singleton_ne by congruence. reflexivity.
  - unfold set_secret, remove_secret, get_secret.
    destruct (falsy value); run; rewrite Hj; run;
      cbn [has_secrets set_peer_data peer_data]; rewrite Hj; run; rewrite upd_same.
    + rewrite lookup_delete_ne by congruence. reflexivity.
    + rewrite lookup_insert_ne by congruence. reflexivity.
Qed.

(** X23.  Storing or removing one key leaves the others as they read.
    After a [set_secret] on a scope and key that did not fail, whatever
    the value, a [get_secret] on the same scope for any other key yields
    what it yielded before. *)
Theorem secret_set_leaves_other_keys (scope : Scope) (key other : string)
    (value : option string) (w : Secrets.World) :
  coherent w scope ->
  other <> key ->
  other <> "" ->
  let o := set_secret scope key value w in
  (exists r, result o = Ret r) ->
  result (get_secret scope other (final o)) = result (get_secret scope other w).
Proof. apply set_secret_other_key. Qed.


(** X24.  Storing the same value again writes nothing.  Under Juju
    secrets, after a [set_secret] with a value that is not empty and
    that did not fail, the same [set_secret] once more returns the same
    secret id, makes no call to Juju at all and leaves everything as it
    is. *)
Theorem secret_set_twice_writes_once (scope : Scope) (key v : string) (r : option string)
    (w : Secrets.World) :
  has_secrets w = true ->
  v <> "" ->
  let o := set_secret scope key (Some v) w in
  result o = Ret r ->
  set_secret scope key (Some v) (final o) = (Ret r, final o, []).
Proof.
  intros Hj Hv o Hr. subst o.
  destruct (set_secret_juju scope key v w Hj Hv) as (Hh & _ & Hset).
  set (w' := final (set_secret scope key (Some v) w)) in *.
  assert (Hcache : exists id content,
             secrets w' scope = Some (id, content) /\ content !! key = Some v /\
             r = Some id).
  { destruct (fetched w scope) as [[id content]|].
    - destruct Hset as (Hres & Hs & _). exists id, (<[key := v]> content).
      split; [exact Hs|]. split; [apply lookup_insert_eq | congruence].
    - destruct (unused_ids w) as [|id ids].
      + destruct Hset as (Hraise & _). congruence.
      + destruct Hset as (Hres & Hs & _). exists id, {[key := v]}.
        split; [exact Hs|]. split; [apply lookup_singleton_eq | congruence]. }
  destruct Hcache as (id & content & Hs & Hk & ->).
  unfold set_secret. cbn [falsy]. change (default "" (Some v)) with v.
  rewrite bool_decide_eq_false_2 by exact Hv. run. rewrite Hh.
  unfold _juju_secret_set, _juju_secrets_get. run.
  destruct (falsy (peer_data w' scope !! SECRET_INTERNAL_LABEL)); run;
    rewrite Hs; run; rewrite ?Hs; run;
    rewrite (bool_decide_eq_true_2 _ Hk); run; reflexivity.
Qed.

(** A second read in the same event. *)
Lemma get_secret_twice (scope : Scope) (key other : string)
    (w : Secrets.World) :
  has_secrets w = true ->
  coherent w scope ->
  key <> "" ->
  other <> "" ->
  let o := get_secret scope key w in
  length (calls o) <= 1 /\
  (fetched w scope <> None -> calls (get_secret scope other (final o)) = []) /\
  result (get_secret scope other (final o)) = result (get_secret scope other w).
Proof.
  intros Hj Hc Hkey Hother. cbv zeta.
  pose proof (get_secret_coherent scope key w Hj Hc) as Hc'.
  destruct (get_secret_juju scope key w Hj Hc Hkey)
    as (_ & Hh & Hp & Hheld & _ & Hs & _ & Hcalls).
  destruct (get_secret_juju scope other w Hj Hc Hother) as (-> & _).
  set (w' := final (get_secret scope key w)) in *.
  destruct (get_secret_juju scope other w' Hh Hc' Hother)
    as (-> & _ & _ & _ & _ & _ & _ & Hcalls').
  rewrite (fetched_stable w w' scope Hs Hp Hheld).
  split; [|split; [|reflexivity]].
  - rewrite Hcalls.
    destruct (secrets w scope) as [s|]; [cbn; lia|].
    destruct (fetched w scope) as [[id c]|]; [cbn; lia|].
    cbv zeta. destruct (falsy _); cbn; lia.
  - intros Hf. rewrite Hcalls', Hs.
    destruct (fetched w scope) as [s|]; [reflexivity | congruence].
Qed.

(** X25.  Juju is asked once per event.  Under Juju secrets a
    [get_secret] makes at most one call, the fetch of the scope's
    secret.  Once that secret is at hand, cached or just fetched, a
    further [get_secret] on the scope in the same event makes no call;
    and in any case it yields what it would have yielded before the
    first one. *)
Theorem secret_fetched_once_per_event (scope : Scope) (key other : string)
    (w : Secrets.World) :
  has_secrets w = true ->
  coherent w scope ->
  key <> "" ->
  other <> "" ->
  let o := get_secret scope key w in
  length (calls o) <= 1 /\
  (fetched w scope <> None -> calls (get_secret scope other (final o)) = []) /\
  result (get_secret scope other (final o)) = result (get_secret scope other w).
Proof. apply get_secret_twice. Qed.


(** ** Generating the secrets *)

Lemma get_secret_no_write (key : string) (w : Secrets.World) :
  has_secrets w = true -> coherent w APP_SCOPE -> key <> "" ->
  List.filter is_secret_write (calls (get_secret APP_SCOPE key w)) = [].
Proof.
  intros Hj Hc Hkey.
  destruct (get_secret_juju APP_SCOPE key w Hj Hc Hkey) as (_ & _ & _ & _ & _ & _ & _ & ->).
  destruct (secrets w APP_SCOPE); [reflexivity|].
  destruct (fetched w APP_SCOPE) as [[id c]|]; [reflexivity|].
  cbv zeta. destruct (falsy _); reflexivity.
Qed.

Lemma readable_not_falsy (x : option string) (v : string) :
  readable x = Some v -> v <> "".
Proof.
  unfold readable. destruct (negb (falsy x)) eqn:Hf; cbn [andb]; [|discriminate].
  destruct (negb (bool_decide _)); [|discriminate].
  intros ->. cbn in Hf. apply negb_true_iff, bool_decide_eq_false in Hf. exact Hf.
Qed.

(** One key of [_generate_secrets]. *)
Lemma check_or_set_step (key generated : string) (w : Secrets.World) :
  has_secrets w = true -> coherent w APP_SCOPE -> key <> "" -> storable generated ->
  let o := _check_or_set key generated w in
  has_secrets (final o) = true /\
  coherent (final o) APP_SCOPE /\
  (result o = Ret tt ->
   (forall k v, k <> "" -> reads k v w -> reads k v (final o)) /\
   exists v, reads key v (final o)) /\
  ((exists v, reads key v w) ->
   result o = Ret tt /\ List.filter is_secret_write (calls o) = []).
Proof.
  intros Hj Hc Hkey [Hg Hg']. cbv zeta. unfold _check_or_set.
  pose proof (get_secret_coherent APP_SCOPE key w Hj Hc) as Hc1.
  pose proof (get_secret_no_write key w Hj Hc Hkey) as Hw1.
  assert (Hstable : forall k, k <> "" ->
            result (get_secret APP_SCOPE k (final (get_secret APP_SCOPE key w)))
            = result (get_secret APP_SCOPE k w)).
  { intros k Hk. apply (get_secret_twice APP_SCOPE key k w Hj Hc Hkey Hk). }
  destruct (get_secret_juju APP_SCOPE key w Hj Hc Hkey) as (Hr1 & Hj1 & _).
  rewrite (run_bind_outcome _ _ _ _ Hr1).
  set (w1 := final (get_secret APP_SCOPE key w)) in *.
  set (r1 := match fetched w APP_SCOPE with
             | Some (_, content) => readable (content !! key)
             | None => None
             end) in *.
  destruct r1 as [v|] eqn:Hv1; cbn [falsy].
  - assert (Hvne : v <> "").
    { subst r1. destruct (fetched w APP_SCOPE) as [[id c]|]; [|discriminate].
      exact (readable_not_falsy _ _ Hv1). }
    rewrite bool_decide_eq_false_2 by exact Hvne. run. rewrite app_nil_r.
    split; [exact Hj1|]. split; [exact Hc1|]. split.
    + intros _. split.
      * intros k v' Hk Hreads. unfold reads in *. rewrite Hstable by exact Hk. exact Hreads.
      * exists v. unfold reads. rewrite Hstable by exact Hkey. exact Hr1.
    + intros _. split; [reflexivity | exact Hw1].
  - pose proof (set_secret_value_coherent APP_SCOPE key generated w1 Hj1 Hg Hc1) as Hc2.
    destruct (set_secret_juju APP_SCOPE key generated w1 Hj1 Hg) as (Hj2 & _ & _).
    destruct (result (set_secret APP_SCOPE key (Some generated) w1)) as [r|e] eqn:Hr2.
    + rewrite (run_bind_outcome _ _ _ _ Hr2). run.
      set (w2 := final (set_secret APP_SCOPE key (Some generated) w1)) in *.
      split; [exact Hj2|]. split; [exact Hc2|]. split.
      * intros _. split.
        -- intros k v' Hk Hreads. unfold reads in *.
           assert (Hne : k <> key).
           { intros ->. rewrite Hr1 in Hreads. discriminate. }
           pose proof (set_secret_other_key APP_SCOPE key k (Some generated) w1 Hc1 Hne Hk
                         (ex_intro _ r Hr2)) as Hframe.
           fold w2 in Hframe. rewrite Hframe, Hstable by exact Hk. exact Hreads.
        -- exists generated. unfold reads.
           destruct (set_then_get APP_SCOPE key generated w1 Hc1 Hkey Hg (ex_intro _ r Hr2))
             as (Hget & _).
           fold w2 in Hget. rewrite Hget. cbn [result fst]. rewrite Hj1. cbn [andb].
           rewrite bool_decide_eq_false_2 by exact Hg'. reflexivity.
      * intros [v Hreads]. unfold reads in Hreads. rewrite Hr1 in Hreads. discriminate.
    + assert (Hraise : bind (set_secret APP_SCOPE key (Some generated)) (fun _ => ret tt) w1
                       = (Raise e, final (set_secret APP_SCOPE key (Some generated) w1),
                          calls (set_secret APP_SCOPE key (Some generated) w1))).
      { apply run_bind_fail. rewrite <- Hr2. apply outcome_eta. }
      rewrite Hraise. cbn [result final calls fst snd].
      split; [exact Hj2|]. split; [exact Hc2|]. split; [discriminate|].
      intros [v Hreads]. unfold reads in Hreads. rewrite Hr1 in Hreads. discriminate.
Qed.

(** X27.  Generating the secrets never overwrites one.  Under Juju
    secrets, with generated values that are not empty and not ["None"],
    a [_generate_secrets] that returns leaves every key of the
    application's scope that read as a value reading as that value;
    after it each of the three keys reads as some value; and a further
    [_generate_secrets], with whatever new values, returns and writes
    nothing to Juju. *)
Theorem generate_secrets_keeps_existing
    (operator_key monitor_key g1 g2 g3 g1' g2' g3' : string) (w : Secrets.World) :
  has_secrets w = true ->
  coherent w APP_SCOPE ->
  operator_key <> "" -> monitor_key <> "" ->
  storable g1 -> storable g2 -> storable g3 ->
  storable g1' -> storable g2' -> storable g3' ->
  let o := _generate_secrets operator_key monitor_key g1 g2 g3 w in
  result o = Ret tt ->
  (forall k v, k <> "" -> reads k v w -> reads k v (final o)) /\
  (exists v1 v2 v3,
      reads operator_key v1 (final o) /\ reads monitor_key v2 (final o) /\
      reads "keyfile" v3 (final o)) /\
  let o' := _generate_secrets operator_key monitor_key g1' g2' g3' (final o) in
  result o' = Ret tt /\ List.filter is_secret_write (calls o') = [].
Proof.
  intros Hj Hc Hk1 Hk2 Hg1 Hg2 Hg3 Hg1' Hg2' Hg3'.
  assert (Hkf : "keyfile" <> "") by discriminate.
  assert (Hrun : forall k1 k2 a b c w0,
            k1 <> "" -> k2 <> "" -> storable a -> storable b -> storable c ->
            has_secrets w0 = true -> coherent w0 APP_SCOPE ->
            let o := _generate_secrets k1 k2 a b c w0 in
            has_secrets (final o) = true /\ coherent (final o) APP_SCOPE /\
            (result o = Ret tt ->
             (forall k v, k <> "" -> reads k v w0 -> reads k v (final o)) /\
             exists v1 v2 v3,
               reads k1 v1 (final o) /\ reads k2 v2 (final o) /\
               reads "keyfile" v3 (final o)) /\
            ((exists v1 v2 v3, reads k1 v1 w0 /\ reads k2 v2 w0 /\ reads "keyfile" v3 w0) ->
             result o = Ret tt /\ List.filter is_secret_write (calls o) = [])).
  { intros k1 k2 a b c w0 Hn1 Hn2 Ha Hb Hcc Hj0 Hc0. cbv zeta.
    unfold _generate_secrets.
    destruct (check_or_set_step k1 a w0 Hj0 Hc0 Hn1 Ha) as (Hj1 & Hc1 & Hs1 & Hq1).
    rewrite result_bind, final_bind, calls_bind.
    destruct (result (_check_or_set k1 a w0)) as [[]|e1] eqn:Hr1.
    2:{ split; [exact Hj1|]. split; [exact Hc1|]. split; [discriminate|].
        intros (v1 & _ & _ & H1 & _). destruct (Hq1 (ex_intro _ v1 H1)). discriminate. }
    destruct (Hs1 eq_refl) as (Hkeep1 & [u1 Hu1]).
    set (w1 := final (_check_or_set k1 a w0)) in *.
    destruct (check_or_set_step k2 b w1 Hj1 Hc1 Hn2 Hb) as (Hj2 & Hc2 & Hs2 & Hq2).
    rewrite result_bind, final_bind, calls_bind.
    destruct (result (_check_or_set k2 b w1)) as [[]|e2] eqn:Hr2.
    2:{ split; [exact Hj2|]. split; [exact Hc2|]. split; [discriminate|].
        intros (v1 & v2 & _ & _ & H2 & _).
        destruct (Hq2 (ex_intro _ v2 (Hkeep1 _ _ Hn2 H2))). discriminate. }
    destruct (Hs2 eq_refl) as (Hkeep2 & [u2 Hu2]).
    set (w2 := final (_check_or_set k2 b w1)) in *.
    destruct (check_or_set_step "keyfile" c w2 Hj2 Hc2 Hkf Hcc) as (Hj3 & Hc3 & Hs3 & Hq3).
    split; [exact Hj3|]. split; [exact Hc3|]. split.
    - intros Hr3. destruct (Hs3 Hr3) as (Hkeep3 & [u3 Hu3]). split.
      + intros k v Hk Hreads. apply Hkeep3, Hkeep2, Hkeep1; assumption.
      + exists u1, u2, u3. split; [|split; [|exact Hu3]].
        * apply Hkeep3, Hkeep2; assumption.
        * apply Hkeep3; assumption.
    - intros (v1 & v2 & v3 & H1 & H2 & H3).
      destruct (Hq1 (ex_intro _ v1 H1)) as (_ & Hw1).
      destruct (Hq2 (ex_intro _ v2 (Hkeep1 _ _ Hn2 H2))) as (_ & Hw2).
      destruct (Hq3 (ex_intro _ v3 (Hkeep2 _ _ Hkf (Hkeep1 _ _ Hkf H3)))) as (Hr3 & Hw3).
      split; [exact Hr3|].
      rewrite !List.filter_app, Hw1, Hw2, Hw3. reflexivity. }
  intros o Hr. subst o.
  destruct (Hrun operator_key monitor_key g1 g2 g3 w Hk1 Hk2 Hg1 Hg2 Hg3 Hj Hc)
    as (Hj' & Hc' & Hs & _).
  destruct (Hs Hr) as (Hkeep & Hall).
  split; [exact Hkeep|]. split; [exact Hall|].
  destruct (Hrun operator_key monitor_key g1' g2' g3' _ Hk1 Hk2 Hg1' Hg2' Hg3' Hj' Hc')
    as (_ & _ & _ & Hq).
  exact (Hq Hall).
Qed.

End SecretsMore.

(* ===================================================================== *)
(** * Comparing secret ids *)
(* ===================================================================== *)

Lemma compile_SECRET_ID_PATTERN : Regex.compile SECRET_ID_PATTERN = Some SECRET_ID_RE.
Proof. vm_compute. reflexivity. Qed.

Lemma SECRET_ID_RE_shape :
  SECRET_ID_RE = Regex.RCat (Regex.RStar Regex.RAny) SECRET_ID_TAIL.
Proof. reflexivity. Qed.

(** A greedy [.*] on a stretch without a line feed. *)
Lemma star_any (k : Regex.cont) (n : nat) :
  forall s pos c,
    forallb not_newline s = true ->
    length s <= n ->
    Regex.star_loop (Regex.rmatch Regex.RAny) k n pos s c = try_splits k pos s c.
Proof.
  induction n as [|n IH]; intros s pos c Hnl Hlen.
  - destruct s; [reflexivity | cbn in Hlen; lia].
  - destruct s as [|x s]; [reflexivity|].
    cbn [forallb] in Hnl. apply andb_true_iff in Hnl as [Hx Hnl].
    cbn [Regex.star_loop Regex.rmatch try_splits].
    unfold not_newline in Hx. apply negb_true_iff in Hx. rewrite Hx.
    replace (Nat.eqb (S pos) pos) with false by (symmetry; apply Nat.eqb_neq; lia).
    rewrite IH by (cbn in Hlen; auto with arith). reflexivity.
Qed.

Lemma try_splits_cons (k : Regex.cont) (x : ascii) (s : list ascii) (pos : nat)
    (c : Regex.caps) :
  try_splits k pos (x :: s) c
  = match try_splits k (S pos) s c with
    | Some res => Some res
    | None => k pos (x :: s) c
    end.
Proof. reflexivity. Qed.

Lemma try_splits_app (k : Regex.cont) (p t : list ascii) :
  forall pos c res,
    try_splits k (pos + length p) t c = Some res ->
    try_splits k pos (p ++ t) c = Some res.
Proof.
  induction p as [|x p IH]; intros pos c res H.
  - cbn in *. rewrite Nat.add_0_r in H. exact H.
  - cbn [app try_splits]. rewrite (IH (S pos) c res); [reflexivity|].
    rewrite <- H. f_equal. cbn. lia.
Qed.

(** The end of the pattern on what is left of the subject. *)
Lemma tail_step (k : Regex.cont) (pos : nat) (s : list ascii) (c : Regex.caps) :
  Regex.rmatch SECRET_ID_TAIL pos s c k
  = match s with
    | a :: b :: rest =>
        if negb (Ascii.eqb a "/") && (Ascii.eqb b "/" || Ascii.eqb b ":")
        then k (S (S pos)) rest c
        else None
    | _ => None
    end.
Proof.
  unfold SECRET_ID_TAIL. cbn [Regex.rmatch].
  destruct s as [|a [|b rest]]; cbn [Regex.set_matches existsb Regex.item_matches xorb].
  - reflexivity.
  - rewrite orb_false_r. rewrite (Ascii.eqb_sym "/" a). destruct (Ascii.eqb a "/"); reflexivity.
  - rewrite !orb_false_r. rewrite (Ascii.eqb_sym "/" a), (Ascii.eqb_sym "/" b),
      (Ascii.eqb_sym ":" b).
    destruct (Ascii.eqb a "/"); cbn [negb xorb andb]; [reflexivity|].
    destruct (Ascii.eqb b "/" || Ascii.eqb b ":"); reflexivity.
Qed.

Lemma id_char_parts (x : ascii) :
  id_char x = true ->
  Ascii.eqb x "/" = false /\ Ascii.eqb x ":" = false /\ not_newline x = true.
Proof.
  unfold id_char, not_newline. intros H.
  apply andb_true_iff in H as [H H3]. apply andb_true_iff in H as [H1 H2].
  apply negb_true_iff in H1, H2. auto.
Qed.

Lemma id_text_not_newline (l : list ascii) :
  forallb id_char l = true -> forallb not_newline l = true.
Proof.
  induction l as [|x l IH]; [reflexivity|]. cbn [forallb]. intros H.
  apply andb_true_iff in H as [Hx H]. rewrite (IH H).
  destruct (id_char_parts x Hx) as (_ & _ & ->). reflexivity.
Qed.

(** Where no separator follows, the pattern's end cannot match. *)
Lemma try_splits_none (k : Regex.cont) (id : list ascii) :
  forallb id_char id = true ->
  forall d pos c,
    try_splits (fun p s c' => Regex.rmatch SECRET_ID_TAIL p s c' k) pos (d :: id) c = None.
Proof.
  induction id as [|x id IH]; intros Hid d pos c.
  - cbn [try_splits]. rewrite !tail_step. reflexivity.
  - cbn [forallb] in Hid. apply andb_true_iff in Hid as [Hx Hid].
    rewrite try_splits_cons. rewrite (IH Hid x (S pos) c).
    rewrite tail_step. destruct (id_char_parts x Hx) as (-> & -> & _).
    rewrite andb_false_r. reflexivity.
Qed.

Lemma try_splits_none_all (k : Regex.cont) (u : list ascii) (pos : nat) (c : Regex.caps) :
  forallb id_char u = true ->
  try_splits (fun p s c' => Regex.rmatch SECRET_ID_TAIL p s c' k) pos u c = None.
Proof.
  destruct u as [|x u]; intros H.
  - cbn [try_splits]. rewrite tail_step. reflexivity.
  - cbn [forallb] in H. apply andb_true_iff in H as [_ H]. apply try_splits_none, H.
Qed.

Lemma match_length_none (u : list ascii) (pos : nat) :
  forallb id_char u = true -> match_length SECRET_ID_RE pos u = None.
Proof.
  intros H. unfold match_length. rewrite SECRET_ID_RE_shape.
  cbn [Regex.rmatch]. rewrite star_any by (auto using id_text_not_newline).
  rewrite try_splits_none_all by exact H. reflexivity.
Qed.

Lemma match_length_prefix (p : list ascii) (a d : ascii) (id : list ascii) :
  forallb not_newline p = true ->
  not_newline a = true -> Ascii.eqb a "/" = false ->
  (Ascii.eqb d "/" || Ascii.eqb d ":") = true -> not_newline d = true ->
  forallb id_char id = true ->
  match_length SECRET_ID_RE 0 (p ++ a :: d :: id) = Some (length p + 2).
Proof.
  intros Hp Ha Ha' Hd Hd' Hid. unfold match_length. rewrite SECRET_ID_RE_shape.
  cbn [Regex.rmatch].
  assert (Hnl : forallb not_newline (p ++ a :: d :: id) = true).
  { rewrite forallb_app, Hp. cbn [forallb]. rewrite Ha, Hd', (id_text_not_newline _ Hid).
    reflexivity. }
  rewrite star_any by auto.
  erewrite try_splits_app.
  2:{ rewrite try_splits_cons. rewrite try_splits_none by exact Hid.
      rewrite tail_step, Ha', Hd. cbn [negb andb]. reflexivity. }
  cbn [Regex.caps_lookup Nat.eqb fmap option_fmap option_map].
  f_equal. rewrite Nat.sub_0_r, length_firstn, length_app. cbn [length]. lia.
Qed.

Lemma sub_empty_skip (r : Regex.re) (l rest : list ascii) :
  forall pos,
    sub_empty_from r (length l) pos (l ++ rest) = sub_empty_from r 0 (pos + length l) rest.
Proof.
  induction l as [|x l IH]; intros pos.
  - cbn. rewrite Nat.add_0_r. reflexivity.
  - cbn [app length sub_empty_from]. rewrite IH. f_equal. lia.
Qed.

Lemma sub_empty_id (id : list ascii) :
  forallb id_char id = true ->
  forall pos, sub_empty_from SECRET_ID_RE 0 pos id = id.
Proof.
  induction id as [|x id IH]; intros Hid pos; [reflexivity|].
  cbn [sub_empty_from]. rewrite (match_length_none _ _ Hid).
  cbn [forallb] in Hid. apply andb_true_iff in Hid as [_ Hid].
  rewrite IH by exact Hid. reflexivity.
Qed.

(** The substitution drops everything up to the last separator. *)
Lemma sub_empty_strips (p : list ascii) (a d : ascii) (id : list ascii) :
  forallb not_newline p = true ->
  not_newline a = true -> Ascii.eqb a "/" = false ->
  (Ascii.eqb d "/" || Ascii.eqb d ":") = true -> not_newline d = true ->
  forallb id_char id = true ->
  sub_empty_from SECRET_ID_RE 0 0 (p ++ a :: d :: id) = id.
Proof.
  intros Hp Ha Ha' Hd Hd' Hid.
  pose proof (match_length_prefix p a d id Hp Ha Ha' Hd Hd' Hid) as Hm.
  replace (length p + 2) with (S (length p + 1)) in Hm by lia.
  destruct p as [|x p].
  - cbn [app] in *. cbn [sub_empty_from]. rewrite Hm. cbn [length Nat.add sub_empty_from].
    apply sub_empty_id, Hid.
  - cbn [app] in *. cbn [sub_empty_from]. rewrite Hm.
    replace (p ++ a :: d :: id) with ((p ++ [a; d]) ++ id)
      by (rewrite <- app_assoc; reflexivity).
    replace (length (x :: p) + 1) with (length (p ++ [a; d]))
      by (rewrite length_app; cbn; lia).
    rewrite sub_empty_skip. apply sub_empty_id, Hid.
Qed.

Lemma sub_empty_long (uuid id : string) :
  uuid <> "" -> id_text uuid = true -> id_text id = true ->
  sub_empty SECRET_ID_RE (long_secret_id uuid id) = id.
Proof.
  unfold id_text, sub_empty, long_secret_id. intros Hne Hu Hid.
  rewrite !list_ascii_of_string_app.
  destruct (exists_last (l := list_ascii_of_string uuid)) as (u' & a & Hsplit).
  { intros Hnil. apply Hne. rewrite <- (string_of_list_ascii_of_string uuid), Hnil.
    reflexivity. }
  rewrite Hsplit in Hu |- *. rewrite forallb_app in Hu.
  apply andb_true_iff in Hu as [Hu' Ha]. cbn [forallb] in Ha. rewrite andb_true_r in Ha.
  destruct (id_char_parts a Ha) as (Ha1 & _ & Ha3).
  replace (list_ascii_of_string "secret://" ++ (u' ++ [a])
             ++ list_ascii_of_string "/" ++ list_ascii_of_string id)
    with ((list_ascii_of_string "secret://" ++ u')
            ++ a :: "/"%char :: list_ascii_of_string id)
    by (rewrite <- !app_assoc; reflexivity).
  rewrite sub_empty_strips; auto.
  - apply string_of_list_ascii_of_string.
  - rewrite forallb_app, (id_text_not_newline _ Hu'). reflexivity.
Qed.

Lemma sub_empty_short (id : string) :
  id_text id = true -> sub_empty SECRET_ID_RE (short_secret_id id) = id.
Proof.
  unfold id_text, sub_empty, short_secret_id. intros Hid.
  rewrite list_ascii_of_string_app.
  change (list_ascii_of_string "secret:" ++ list_ascii_of_string id)
    with (list_ascii_of_string "secre" ++ "t"%char :: ":"%char :: list_ascii_of_string id).
  rewrite sub_empty_strips; auto.
  apply string_of_list_ascii_of_string.
Qed.

Lemma compare_by_pure_ids (s1 s2 : string) :
  s1 <> "" -> s2 <> "" ->
  (_compare_secret_ids (Some s1) (Some s2) = true <->
   sub_empty SECRET_ID_RE s1 = sub_empty SECRET_ID_RE s2 /\
   sub_empty SECRET_ID_RE s1 <> "").
Proof.
  intros H1 H2. unfold _compare_secret_ids. cbn [falsy].
  rewrite !bool_decide_eq_false_2 by assumption. cbn [orb].
  change (default "" (Some s1)) with s1. change (default "" (Some s2)) with s2.
  cbv zeta.
  destruct (decide (sub_empty SECRET_ID_RE s1 = "")) as [He1 | He1].
  { rewrite (bool_decide_eq_true_2 _ He1). cbn. split; [discriminate | tauto]. }
  rewrite (bool_decide_eq_false_2 _ He1). cbn [negb andb].
  destruct (decide (sub_empty SECRET_ID_RE s2 = "")) as [He2 | He2].
  { rewrite (bool_decide_eq_true_2 _ He2). cbn. split; [discriminate|].
    intros [Heq _]. congruence. }
  rewrite (bool_decide_eq_false_2 _ He2). cbn [negb].
  rewrite bool_decide_eq_true. tauto.
Qed.

(** X26.  Secret ids are compared by their last part.  The
    substitution takes from an id of either form, [secret://<uuid>/<id>]
    or [secret:<id>], everything up to the last separator, so that two
    ids in these forms compare equal exactly when their last parts are
    the same and not empty.  An argument that is [None] or empty
    compares equal to nothing, itself included. *)
Theorem compare_secret_ids_forms (uuid id1 id2 : string) :
  uuid <> "" -> id_text uuid = true -> id_text id1 = true -> id_text id2 = true ->
  sub_empty SECRET_ID_RE (long_secret_id uuid id1) = id1 /\
  sub_empty SECRET_ID_RE (short_secret_id id2) = id2 /\
  (_compare_secret_ids (Some (long_secret_id uuid id1)) (Some (short_secret_id id2)) = true
   <-> id1 = id2 /\ id1 <> "") /\
  (_compare_secret_ids (Some (short_secret_id id1)) (Some (short_secret_id id2)) = true
   <-> id1 = id2 /\ id1 <> "") /\
  (forall x, _compare_secret_ids None x = false /\
             _compare_secret_ids x None = false /\
             _compare_secret_ids (Some "") x = false /\
             _compare_secret_ids x (Some "") = false).
Proof.
  intros Hne Hu H1 H2.
  pose proof (sub_empty_long uuid id1 Hne Hu H1) as Hl1.
  pose proof (sub_empty_short id1 H1) as Hs1.
  pose proof (sub_empty_short id2 H2) as Hs2.
  split; [exact Hl1|]. split; [exact Hs2|]. split; [|split].
  - rewrite compare_by_pure_ids by (unfold long_secret_id, short_secret_id; discriminate).
    rewrite Hl1, Hs2. reflexivity.
  - rewrite compare_by_pure_ids by (unfold short_secret_id; discriminate).
    rewrite Hs1, Hs2. reflexivity.
  - intros x. unfold _compare_secret_ids. cbn [falsy orb].
    rewrite (bool_decide_eq_true_2 ("" = "")) by reflexivity. cbn [orb].
    repeat split; destruct (falsy x); reflexivity.
Qed.

(* ===================================================================== *)
(** * The further properties on the sample deployments *)
(* ===================================================================== *)

(** A follower sees unit 2 join: no call to the driver. *)
Lemma no_driver_call_by_follower_sample :
  let o := _relation_changes_handler (sample_env all_ready (ActiveStatus "") (ActiveStatus ""))
             relation_changed follower_world in
  forallb (fun c => negb (is_driver_call c)) (calls o) = true /\
  replset (final o) = replset follower_world /\
  unit_status (final o) = unit_status follower_world.
Proof.
  exact (no_driver_call_by_follower
           (sample_env all_ready (ActiveStatus "") (ActiveStatus ""))
           relation_changed follower_world (or_introl eq_refl)).
Defined.

(** Desired = {A, C}, live = {A, B}: B, which the pass removes, was
    live and is not desired, and no membership call is issued twice. *)
Lemma pass_touches_difference_only_sample :
  let o := _relation_changes_handler
             (sample_env all_ready (ActiveStatus "") (ActiveStatus ""))
             relation_changed (sample_world false {[host_A; host_B]}) in
  (host_B ∈ replset (sample_world false {[host_A; host_B]}) /\
   (host_B ∉ ({[host_A; host_C]} : gset string))) /\
  NoDup (membership_calls (calls o)).
Proof.
  destruct (pass_touches_difference_only
              (sample_env all_ready (ActiveStatus "") (ActiveStatus ""))
              relation_changed (sample_world false {[host_A; host_B]})
              {[host_A; host_C]} (sample_world_hosts false {[host_A; host_B]}))
    as (Hrm & _ & Hnd).
  split; [|exact Hnd].
  apply Hrm. vm_compute. do 4 right. left. reflexivity.
Defined.

(** In that pass the addition of C is the seventh call and the check of
    C the sixth. *)
Lemma pass_adds_after_ready_check_sample :
  calls (_relation_changes_handler
           (sample_env all_ready (ActiveStatus "") (ActiveStatus ""))
           relation_changed (sample_world false {[host_A; host_B]})) !! 5
  = Some (DirectIsReady host_C) /\
  direct_is_ready (sample_env all_ready (ActiveStatus "") (ActiveStatus "")) host_C = true.
Proof.
  apply (pass_adds_after_ready_check
           (sample_env all_ready (ActiveStatus "") (ActiveStatus ""))
           relation_changed (sample_world false {[host_A; host_B]}) 5 host_C).
  vm_compute. reflexivity.
Defined.

(** The database does not answer: the unit waits. *)
Lemma update_status_waits_for_database_sample :
  _on_update_status (sample_env nothing_ready (ActiveStatus "") (ActiveStatus ""))
    update_status (sample_world false {[host_A; host_C]})
  = (Ret tt,
     set_unit_status (WaitingStatus "Waiting for MongoDB to start")
       (sample_world false {[host_A; host_C]}),
     [DirectIsReady "localhost"]).
Proof.
  apply (update_status_waits_for_database
           (sample_env nothing_ready (ActiveStatus "") (ActiveStatus ""))
           update_status (sample_world false {[host_A; host_C]})).
  right. split; [|reflexivity].
  rewrite sample_world_hosts. discriminate.
Defined.

(** The bucket and the endpoint go to pbm under its names; the
    certificate chain is dropped. *)
Lemma pbm_configs_in_order_sample :
  _get_pbm_configs sample_credentials
  = [("storage.type", "s3"); ("storage.s3.bucket", "backups");
     ("storage.s3.endpointUrl", "https://s3.example")].
Proof.
  apply (pbm_configs_in_order sample_credentials).
  apply (bool_decide_unpack _). vm_compute. exact I.
Defined.

(** pbm refuses the bucket: the endpoint is not set. *)
Lemma config_stops_at_first_failure_sample :
  let o := _set_config_options rejecting_env sample_credentials
             (sample_world true {[host_A; host_C]}) in
  result o = Raise SetPBMConfigError /\
  calls o = [RunPbmCommand CONFIG_FILE_CMD;
             RunPbmCommand ["config"; "--set"; "storage.type=s3"];
             RunPbmCommand ["config"; "--set"; "storage.s3.bucket=backups"]].
Proof.
  assert (H0 : forall e,
             pbm_exec rejecting_env (pbm_runs (sample_world true {[host_A; host_C]}))
               CONFIG_FILE_CMD = PbmRaises e ->
             exists out, e = ExecError out) by (intros e H; discriminate H).
  destruct (config_stops_at_first_failure rejecting_env sample_credentials
              (sample_world true {[host_A; host_C]}) H0) as (_ & Hfail & _).
  destruct (Hfail 1 ("storage.s3.bucket", "backups") (ExecError "denied") eq_refl)
    as (Hr & Hc & _).
  - intros i o' Hi Ho'. destruct i as [|i]; [|lia]. exists "". reflexivity.
  - reflexivity.
  - split; [exact Hr | exact Hc].
Defined.

(** pbm free at the first poll: the resync is not asked for before it. *)
Lemma resync_after_free_poll_sample :
  count_occ Call_eq_dec
    (StartBackupService
     :: free_trace (sample_env all_ready (ActiveStatus "") (ActiveStatus ""))
          (sample_world true {[host_A; host_C]}) 0)
    (RunPbmCommand FORCE_RESYNC_CMD) = 0.
Proof.
  destruct (resync_after_free_poll
              (sample_env all_ready (ActiveStatus "") (ActiveStatus "")) 0
              (sample_world true {[host_A; host_C]})) as (_ & H & _);
    [lia | reflexivity | vm_compute; reflexivity | exact H].
Defined.

(** New credentials with pbm at ease: configured, resynced, active. *)
Lemma credentials_change_configures_sample :
  let o := _on_s3_credential_changed
             (sample_env all_ready (ActiveStatus "") (ActiveStatus ""))
             credentials_changed sample_credentials (sample_world true {[host_A; host_C]}) in
  result o = Ret tt /\
  unit_status (final o) = ActiveStatus "" /\
  pbm_runs (final o) = 8.
Proof.
  destruct (credentials_change_configures
              (sample_env all_ready (ActiveStatus "") (ActiveStatus ""))
              credentials_changed sample_credentials (sample_world true {[host_A; host_C]}))
    as (Hr & _ & Hs & Hp).
  - reflexivity.
  - reflexivity.
  - exists "". reflexivity.
  - intros i option _. exists "". reflexivity.
  - vm_compute. reflexivity.
  - exists "". reflexivity.
  - vm_compute. reflexivity.
  - split; [exact Hr|]. split; [exact Hs | exact Hp].
Defined.

(** pbm refuses the bucket: the unit is blocked. *)
Lemma option_failure_blocks_unit_sample :
  let o := _on_s3_credential_changed rejecting_env credentials_changed sample_credentials
             (sample_world true {[host_A; host_C]}) in
  result o = Ret tt /\
  unit_status (final o) = BlockedStatus "couldn't configure s3 backup options.".
Proof.
  destruct (option_failure_blocks_unit rejecting_env credentials_changed sample_credentials
              (sample_world true {[host_A; host_C]}) 1 ("storage.s3.bucket", "backups")
              (ExecError "denied")) as (Hr & Hs & _).
  - reflexivity.
  - intros e H. discriminate H.
  - reflexivity.
  - intros i o' Hi Ho'. destruct i as [|i]; [|lia]. exists "". reflexivity.
  - reflexivity.
  - reflexivity.
  - split; [exact Hr | exact Hs].
Defined.

(** A backup runs throughout: the credentials wait. *)
Lemma busy_pbm_defers_credentials_sample :
  let o := _on_s3_credential_changed
             (sample_env all_ready (ActiveStatus "") (MaintenanceStatus "backup"))
             credentials_changed sample_credentials (sample_world true {[host_A; host_C]}) in
  result o = Ret tt /\
  unit_status (final o) = WaitingStatus "waiting to sync s3 configurations." /\
  count_occ Call_eq_dec (calls o) Defer = 1.
Proof.
  destruct (busy_pbm_defers_credentials
              (sample_env all_ready (ActiveStatus "") (MaintenanceStatus "backup"))
              credentials_changed sample_credentials (sample_world true {[host_A; host_C]}))
    as (Hr & Hs & _ & _ & Hd).
  - reflexivity.
  - reflexivity.
  - exists "". reflexivity.
  - intros i option _. exists "". reflexivity.
  - vm_compute. reflexivity.
  - split; [exact Hr|]. split; [exact Hs | exact Hd].
Defined.


Section SecretSamples.

Import Secrets.

Lemma secret_with_k_coherent : coherent secret_with_k APP_SCOPE.
Proof. split; [exact I | constructor]. Qed.

Lemma no_secret_yet_coherent : coherent no_secret_yet APP_SCOPE.
Proof. split; [exact I | repeat constructor; discriminate]. Qed.



(** A value under "j" does not change what "k" reads as. *)
Lemma secret_set_leaves_other_keys_sample :
  result (get_secret APP_SCOPE "k"
            (final (set_secret APP_SCOPE "j" (Some "x") secret_with_k)))
  = result (get_secret APP_SCOPE "k" secret_with_k).
Proof.
  apply (secret_set_leaves_other_keys APP_SCOPE "j" "k" (Some "x") secret_with_k
           secret_with_k_coherent).
  - discriminate.
  - discriminate.
  - exists (Some "secret:1"). vm_compute. reflexivity.
Defined.

(** The same value again: no call. *)
Lemma secret_set_twice_writes_once_sample :
  set_secret APP_SCOPE "k" (Some "v2")
    (final (set_secret APP_SCOPE "k" (Some "v2") secret_with_k))
  = (Ret (Some "secret:1"), final (set_secret APP_SCOPE "k" (Some "v2") secret_with_k), []).
Proof.
  apply (secret_set_twice_writes_once APP_SCOPE "k" "v2" (Some "secret:1") secret_with_k).
  - reflexivity.
  - discriminate.
  - vm_compute. reflexivity.
Defined.

(** A second read of "k" in the same event asks Juju for nothing. *)
Lemma secret_fetched_once_per_event_sample :
  calls (get_secret APP_SCOPE "k" (final (get_secret APP_SCOPE "k" secret_with_k))) = [].
Proof.
  destruct (secret_fetched_once_per_event APP_SCOPE "k" "k" secret_with_k
              eq_refl secret_with_k_coherent) as (_ & H & _).
  - discriminate.
  - discriminate.
  - apply H. vm_compute. discriminate.
Defined.

(** The passwords and the keyfile of a fresh application are generated
    once. *)
Lemma generate_secrets_keeps_existing_sample :
  let o := _generate_secrets "operator-password" "monitor-password" "pw1" "pw2" "kf"
             no_secret_yet in
  let o' := _generate_secrets "operator-password" "monitor-password" "pw3" "pw4" "kf2"
              (final o) in
  result o' = Ret tt /\ List.filter is_secret_write (calls o') = [].
Proof.
  destruct (generate_secrets_keeps_existing "operator-password" "monitor-password"
              "pw1" "pw2" "kf" "pw3" "pw4" "kf2" no_secret_yet) as (_ & _ & H);
    [ reflexivity | exact no_secret_yet_coherent | discriminate | discriminate
    | split; discriminate | split; discriminate | split; discriminate
    | split; discriminate | split; discriminate | split; discriminate
    | vm_compute; reflexivity | exact H ].
Defined.

End SecretSamples.

(** The two forms of one id are the same secret. *)
Lemma compare_secret_ids_forms_sample :
  _compare_secret_ids (Some (long_secret_id sample_uuid sample_secret_id))
    (Some (short_secret_id sample_secret_id)) = true.
Proof.
  destruct (compare_secret_ids_forms sample_uuid sample_secret_id sample_secret_id)
    as (_ & _ & H & _).
  - discriminate.
  - reflexivity.
  - reflexivity.
  - reflexivity.
  - apply H. split; [reflexivity | discriminate].
Defined.
